(** * Cortex Lattice test runner: a shallow embedding of [executor/run_tests.py]

    The runner loads a problem definition, executes an untrusted candidate
    source file, resolves the function to test, calls it once per test case
    under a SIGALRM deadline, compares every output with the expected value
    and aggregates a report.  Each Python function of the runner is embedded
    below under its own name; what the runner obtains from the outside (the
    file system, the YAML parser, [exec] on candidate code, the behaviour of
    a candidate call, the clock) is an explicit parameter.  Three of the
    reference solutions the runner is given follow: the LRU cache, the
    replay buffer and the clipped objective. *)

From Stdlib Require Import ZArith String Ascii Bool Lia Floats SpecFloat.
From Stdlib Require Import DecimalString List Permutation.
Import ListNotations.

Set Warnings "-inexact-float,-register-all".

Local Open Scope string_scope.
Local Open Scope Z_scope.

(** ** Python values *)

(** The dynamically typed values that flow through the runner, as far as
    they are plain data: what [yaml.safe_load] yields for a test case with
    string keys and what a candidate returns when it returns no object of a
    class of its own.  [float] is Rocq's primitive binary64 type, Python's
    [float]; [int] is unbounded; a [dict] is an association list in
    insertion order with pairwise distinct string keys. *)
Inductive Value : Type :=
| VNone
| VBool (b : bool)
| VInt (n : Z)
| VFloat (f : float)
| VStr (s : string)
| VList (l : list Value)
| VTuple (l : list Value)
| VDict (d : list (string * Value)).

(** Induction principle that reaches the elements of the containers. *)
Section ValueInd.
Variable P : Value -> Prop.
Hypothesis HNone : P VNone.
Hypothesis HBool : forall b, P (VBool b).
Hypothesis HInt : forall n, P (VInt n).
Hypothesis HFloat : forall f, P (VFloat f).
Hypothesis HStr : forall s, P (VStr s).
Hypothesis HList : forall l, Forall P l -> P (VList l).
Hypothesis HTuple : forall l, Forall P l -> P (VTuple l).
Hypothesis HDict : forall d, Forall (fun kv => P (snd kv)) d -> P (VDict d).

Fixpoint Value_nested_ind (v : Value) : P v :=
    match v with
    | VNone => HNone
    | VBool b => HBool b
    | VInt n => HInt n
    | VFloat f => HFloat f
    | VStr s => HStr s
    | VList l =>
        HList l ((fix go (l : list Value) : Forall P l :=
                    match l with
                    | [] => Forall_nil P
                    | x :: r => Forall_cons x (Value_nested_ind x) (go r)
                    end) l)
    | VTuple l =>
        HTuple l ((fix go (l : list Value) : Forall P l :=
                     match l with
                     | [] => Forall_nil P
                     | x :: r => Forall_cons x (Value_nested_ind x) (go r)
                     end) l)
    | VDict d =>
        HDict d ((fix go (d : list (string * Value))
                    : Forall (fun kv => P (snd kv)) d :=
                    match d with
                    | [] => Forall_nil _
                    | kv :: r =>
                        Forall_cons kv (Value_nested_ind (snd kv)) (go r)
                    end) d)
    end.
End ValueInd.

(** [dict.get(key)] on the association list: [None] when the key is absent. *)
Fixpoint dict_lookup {A : Type} (key : string) (d : list (string * A)) : option A :=
  match d with
  | [] => None
  | (k, v) :: r => if String.eqb k key then Some v else dict_lookup key r
  end.

(** [type(v).__name__]. *)
Definition type_name (v : Value) : string :=
  match v with
  | VNone => "NoneType"
  | VBool _ => "bool"
  | VInt _ => "int"
  | VFloat _ => "float"
  | VStr _ => "str"
  | VList _ => "list"
  | VTuple _ => "tuple"
  | VDict _ => "dict"
  end.

(** ** Floating point: the builtin [round(x, ndigits)] *)

(** Quotient of [n] by [d > 0] rounded to the nearest integer, ties to the
    even one: the rounding of the decimal conversion behind [round]. *)
Definition round_half_even (n d : Z) : Z :=
  let q := n / d in
  match (2 * (n mod d)) ?= d with
  | Lt => q
  | Gt => q + 1
  | Eq => if Z.even q then q else q + 1
  end.

(** The magnitude of the finite double [m * 2^e], scaled by [10^ndigits] and
    rounded to an integer: the digits [round] keeps. *)
Definition scaled_digits (m : positive) (e : Z) (ndigits : Z) : Z :=
  if 0 <=? e then Z.pos m * 2 ^ e * 10 ^ ndigits
  else round_half_even (Z.pos m * 10 ^ ndigits) (2 ^ (- e)).

(** The double nearest to [(-1)^s * n / 10^ndigits] (ties to even mantissa):
    reading the decimal string back. *)
Definition float_of_decimal (s : bool) (n : Z) (ndigits : Z) : float :=
  match n with
  | Z.pos p =>
      SF2Prim (SFdiv prec emax (S754_finite s p 0)
                 (S754_finite false (Z.to_pos (10 ^ ndigits)) 0))
  | _ => SF2Prim (S754_zero s)
  end.

(** [round(x, ndigits)] for a float [x] and [0 <= ndigits]: infinities and
    NaN round to themselves; a finite [x] is converted exactly to the nearest
    decimal with [ndigits] fractional digits (half to even) and that decimal
    is converted back to the nearest double. *)
Definition py_round (x : float) (ndigits : Z) : float :=
  match Prim2SF x with
  | S754_finite s m e => float_of_decimal s (scaled_digits m e ndigits) ndigits
  | _ => x
  end.

(** ** Equality of Python values: the operator [==] *)

(** A float compared with an int: the comparison is exact, the int is not
    converted to a float first. *)
Definition float_eq_int (f : float) (n : Z) : bool :=
  match Prim2SF f with
  | S754_zero _ => n =? 0
  | S754_finite s m e =>
      let sm := if s then Z.neg m else Z.pos m in
      if 0 <=? e then sm * 2 ^ e =? n else sm =? n * 2 ^ (- e)
  | _ => false
  end.

Definition int_of_bool (b : bool) : Z := if b then 1 else 0.

(** [a == b].  [bool] is a subclass of [int], numbers compare by value across
    [bool], [int] and [float] (NaN differs from everything), sequences compare
    element by element, a list never equals a tuple, dicts compare as
    mappings whatever their insertion order. *)
Fixpoint py_eq (a b : Value) : bool :=
  match a, b with
  | VNone, VNone => true
  | VBool x, VBool y => Bool.eqb x y
  | VBool x, VInt y => int_of_bool x =? y
  | VInt x, VBool y => x =? int_of_bool y
  | VInt x, VInt y => x =? y
  | VBool x, VFloat y => float_eq_int y (int_of_bool x)
  | VFloat x, VBool y => float_eq_int x (int_of_bool y)
  | VInt x, VFloat y => float_eq_int y x
  | VFloat x, VInt y => float_eq_int x y
  | VFloat x, VFloat y => PrimFloat.eqb x y
  | VStr s, VStr t => String.eqb s t
  | VList l, VList m
  | VTuple l, VTuple m =>
      (fix all2 (l m : list Value) : bool :=
         match l, m with
         | [], [] => true
         | x :: l', y :: m' => py_eq x y && all2 l' m'
         | _, _ => false
         end) l m
  | VDict d, VDict e =>
      (Z.of_nat (length d) =? Z.of_nat (length e))
      && (fix all_in (d : list (string * Value)) : bool :=
            match d with
            | [] => true
            | (k, v) :: d' =>
                match dict_lookup k e with
                | Some w => py_eq v w && all_in d'
                | None => false
                end
            end) d
  | _, _ => false
  end.

(** ** Output normalizer and comparator *)

(** [normalize_output], lines 60-69: lists and tuples become lists of
    normalized elements, floats are rounded to 6 digits, dict values are
    normalized under their keys, anything else is returned as it is. *)
Fixpoint normalize_output (value : Value) : Value :=
  match value with
  | VList l | VTuple l => VList (map normalize_output l)
  | VFloat f => VFloat (py_round f 6)
  | VDict d => VDict (map (fun kv => (fst kv, normalize_output (snd kv))) d)
  | _ => value
  end.

Definition is_None (v : Value) : bool :=
  match v with VNone => true | _ => false end.

Definition isinstance_list (v : Value) : bool :=
  match v with VList _ => true | _ => false end.

(** [len(v)] for a value known to be a list. *)
Definition list_len (v : Value) : Z :=
  match v with VList l => Z.of_nat (length l) | _ => 0 end.

(** Lines 77-88 of [compare_outputs]: the decision taken on the two values
    once they are normalized. *)
Definition comparator (actual expected : Value) : bool :=
  if is_None expected then is_None actual
  else if isinstance_list expected && isinstance_list actual then
    if negb (list_len expected =? list_len actual) then false
    else py_eq actual expected
  else py_eq actual expected.

(** [compare_outputs], lines 72-88. *)
Definition compare_outputs (actual expected : Value) : bool :=
  let actual := normalize_output actual in
  let expected := normalize_output expected in
  comparator actual expected.

(** ** Strings *)

(** A string is the sequence of its characters, each a code point below
    256 (U+0000 to U+00FF).

    [c.isspace()], which decides what [strip] removes: tab, line feed,
    vertical tab, form feed, carriage return, the four separators 28-31, the
    space, the next-line control U+0085 and the no-break space U+00A0. *)
Definition is_space (c : ascii) : bool :=
  let n := Z.of_nat (nat_of_ascii c) in
  ((9 <=? n) && (n <=? 13)) || ((28 <=? n) && (n <=? 32))
  || (n =? 133) || (n =? 160).

Fixpoint lstrip (s : string) : string :=
  match s with
  | EmptyString => EmptyString
  | String c r => if is_space c then lstrip r else s
  end.

Fixpoint rstrip (s : string) : string :=
  match s with
  | EmptyString => EmptyString
  | String c r =>
      match rstrip r with
      | EmptyString => if is_space c then EmptyString else String c EmptyString
      | r' => String c r'
      end
  end.

(** [s.strip()]. *)
Definition strip (s : string) : string := rstrip (lstrip s).

(** [s.startswith(p)]. *)
Definition startswith (p s : string) : bool := String.prefix p s.

(** [s.split(c)] for a separator of one character: never empty. *)
Fixpoint split (c : ascii) (s : string) : list string :=
  match s with
  | EmptyString => [EmptyString]
  | String a r =>
      if Ascii.eqb a c then EmptyString :: split c r
      else match split c r with
           | h :: t => String a h :: t
           | [] => [String a EmptyString]
           end
  end.

(** [s.replace(old, "")] for a non-empty [old]: every occurrence of [old],
    found from the left and not overlapping, is dropped.  [skip] counts the
    characters of an occurrence still to drop. *)
Fixpoint remove_from (old : string) (skip : nat) (s : string) : string :=
  match s with
  | EmptyString => EmptyString
  | String a r =>
      match skip with
      | S k => remove_from old k r
      | O =>
          if String.prefix old s then remove_from old (String.length old - 1) r
          else String a (remove_from old 0 r)
      end
  end.

Definition remove_all (old s : string) : string := remove_from old 0 s.

(** [str(n)] for an int. *)
Definition str_of_int (n : Z) : string := NilZero.string_of_int (Z.to_int n).

(** ** Exceptions and results *)

(** Where the class of an exception stands with respect to the classes the
    runner's [except] clauses name: the first of them it is an instance of. *)
Inductive ExcKind : Type :=
| KTimeoutError      (* the runner's own TimeoutError, line 18 *)
| KFileNotFoundError
| KSyntaxError
| KValueError
| KException         (* any other subclass of Exception *)
| KSystemExit (status : Z)
                     (* SystemExit, outside Exception: raised by sys.exit and
                        exit, with the exit status its code stands for *)
| KBaseException.    (* outside Exception as well: KeyboardInterrupt, ... *)

Record Exc : Type := mkExc {
  exc_kind : ExcKind;
  exc_name : string;   (* type(e).__name__ *)
  exc_str : string     (* str(e), for an exception whose __str__ returns *)
}.

(** [isinstance(e, Exception)]. *)
Definition isinstance_Exception (e : Exc) : bool :=
  match exc_kind e with
  | KSystemExit _ | KBaseException => false
  | _ => true
  end.

Definition isinstance_TimeoutError (e : Exc) : bool :=
  match exc_kind e with KTimeoutError => true | _ => false end.

Definition isinstance_FileNotFoundError (e : Exc) : bool :=
  match exc_kind e with KFileNotFoundError => true | _ => false end.

Definition isinstance_SyntaxError (e : Exc) : bool :=
  match exc_kind e with KSyntaxError => true | _ => false end.

Definition isinstance_ValueError (e : Exc) : bool :=
  match exc_kind e with KValueError => true | _ => false end.

(** The exceptions the runner and the interpreter raise on its behalf. *)
Definition TimeoutError (msg : string) : Exc := mkExc KTimeoutError "TimeoutError" msg.
Definition FileNotFoundError (msg : string) : Exc :=
  mkExc KFileNotFoundError "FileNotFoundError" msg.
Definition SyntaxError (msg : string) : Exc := mkExc KSyntaxError "SyntaxError" msg.
Definition ValueError (msg : string) : Exc := mkExc KValueError "ValueError" msg.
Definition RuntimeError (msg : string) : Exc := mkExc KException "RuntimeError" msg.
Definition TypeError (msg : string) : Exc := mkExc KException "TypeError" msg.
Definition AttributeError (msg : string) : Exc := mkExc KException "AttributeError" msg.
Definition KeyError (msg : string) : Exc := mkExc KException "KeyError" msg.

(** The exception [sys.exit(status)] raises. *)
Definition SystemExit (status : Z) : Exc :=
  mkExc (KSystemExit status) "SystemExit" (str_of_int status).

(** What evaluating a piece of Python yields: a value, a raised exception,
    or nothing at all when it never ends. *)
Inductive Res (A : Type) : Type :=
| Return (a : A)
| Raise (e : Exc)
| Hang.

Arguments Return {A} a.
Arguments Raise {A} e.
Arguments Hang {A}.

(** Computations over a mutable state [St]: what was written before an
    exception is raised stays written. *)
Definition M (St A : Type) : Type := St -> Res A * St.

Definition ret {St A} (a : A) : M St A := fun s => (Return a, s).

Definition raise {St A} (e : Exc) : M St A := fun s => (Raise e, s).

Definition bind {St A B} (m : M St A) (k : A -> M St B) : M St B :=
  fun s =>
    match m s with
    | (Return a, s') => k a s'
    | (Raise e, s') => (Raise e, s')
    | (Hang, s') => (Hang, s')
    end.

Definition lift {St A} (r : Res A) : M St A := fun s => (r, s).

Definition gets {St A} (f : St -> A) : M St A := fun s => (Return (f s), s).

Definition modify {St} (f : St -> St) : M St unit := fun s => (Return tt, f s).

Declare Scope py_scope.
Delimit Scope py_scope with py.
Notation "x <- m ;; k" := (bind m (fun x => k))
  (at level 61, m at next level, right associativity) : py_scope.
Notation "m ;; k" := (bind m (fun _ => k))
  (at level 61, right associativity) : py_scope.
Local Open Scope py_scope.

(** [if c: m]. *)
Definition when {St} (c : bool) (m : M St unit) : M St unit :=
  if c then m else ret tt.

(** [try: body / except ...: handler].  [handler e] is [None] when no clause
    matches [e], which then propagates. *)
Definition try_except {St A} (body : M St A) (handler : Exc -> option (M St A))
  : M St A :=
  fun s =>
    match body s with
    | (Raise e, s') =>
        match handler e with
        | Some h => h s'
        | None => (Raise e, s')
        end
    | r => r
    end.

(** [try: body / finally: final].  [final] runs whenever control leaves
    [body]; an exception of [body] is raised again after it. *)
Definition try_finally {St A} (body : M St A) (final : M St unit) : M St A :=
  fun s =>
    match body s with
    | (Return a, s') => (final ;; ret a) s'
    | (Raise e, s') => (final ;; raise e) s'
    | (Hang, s') => (Hang, s')
    end.

(** A block that mutates a local object [l]: the object is the first
    component of the state inside, and the block yields it at the end. *)
Definition with_local {St L} (l : L) (m : M (L * St) unit) : M St L :=
  fun s =>
    match m (l, s) with
    | (Return _, (l', s')) => (Return l', s')
    | (Raise e, (_, s')) => (Raise e, s')
    | (Hang, (_, s')) => (Hang, s')
    end.

(** A computation on the outer state run inside such a block. *)
Definition outer {St L A} (m : M St A) : M (L * St) A :=
  fun ls => let (r, s') := m (snd ls) in (r, (fst ls, s')).

(** An update of the local object. *)
Definition local {St L} (f : L -> L) : M (L * St) unit :=
  modify (fun ls => (f (fst ls), snd ls)).

(** [for x in xs: body x]. *)
Fixpoint for_each {St A} (xs : list A) (body : A -> M St unit) : M St unit :=
  match xs with
  | [] => ret tt
  | x :: r => body x ;; for_each r body
  end.

(** ** Dynamic operations on values *)

(** [bool(v)]: what [not v] negates. *)
Definition truthy (v : Value) : bool :=
  match v with
  | VNone => false
  | VBool b => b
  | VInt n => negb (n =? 0)
  | VFloat f => negb (PrimFloat.eqb f 0)
  | VStr s => negb (String.eqb s "")
  | VList l | VTuple l => match l with [] => false | _ => true end
  | VDict d => match d with [] => false | _ => true end
  end.

(** The characters of a string, each a string of length one. *)
Fixpoint chars (s : string) : list Value :=
  match s with
  | EmptyString => []
  | String c r => VStr (String c EmptyString) :: chars r
  end.

(** What [for x in v] visits: the elements of a sequence, the keys of a dict,
    the characters of a string; other values are not iterable. *)
Definition py_iter (v : Value) : Res (list Value) :=
  match v with
  | VList l | VTuple l => Return l
  | VDict d => Return (map (fun kv => VStr (fst kv)) d)
  | VStr s => Return (chars s)
  | _ => Raise (TypeError ("'" ++ type_name v ++ "' object is not iterable"))
  end.

(** [len(v)]. *)
Definition py_len (v : Value) : Res Z :=
  match v with
  | VList l | VTuple l => Return (Z.of_nat (length l))
  | VDict d => Return (Z.of_nat (length d))
  | VStr s => Return (Z.of_nat (String.length s))
  | _ => Raise (TypeError ("object of type '" ++ type_name v ++ "' has no len()"))
  end.

(** [v.get(key, default)]: only a dict has the method. *)
Definition py_get (v : Value) (key : string) (default : Value) : Res Value :=
  match v with
  | VDict d =>
      Return (match dict_lookup key d with Some x => x | None => default end)
  | _ => Raise (AttributeError
                  ("'" ++ type_name v ++ "' object has no attribute 'get'"))
  end.

(** [v.split(c)]: only a string has the method. *)
Definition py_split (v : Value) (c : ascii) : Res (list string) :=
  match v with
  | VStr s => Return (split c s)
  | _ => Raise (AttributeError
                  ("'" ++ type_name v ++ "' object has no attribute 'split'"))
  end.

(** ** The recursion limit

    [normalize_output] calls itself once per level of nesting, and the
    interpreter allows only so many nested calls (1000 frames in all unless
    the limit is changed).  [normalize_output] and [compare_outputs] above
    are what the two functions compute on the values they can traverse;
    here is the call itself, with the number of nested calls the limit still
    allows. *)

(** What a call raises that would nest deeper than the interpreter
    allows. *)
Definition RecursionError : Exc :=
  mkExc KException "RecursionError" "maximum recursion depth exceeded".

(** The results of a comprehension, in order: the first element that
    raises or never ends decides. *)
Fixpoint collect {A : Type} (rs : list (Res A)) : Res (list A) :=
  match rs with
  | [] => Return []
  | Return a :: rest =>
      match collect rest with
      | Return l => Return (a :: l)
      | Raise e => Raise e
      | Hang => Hang
      end
  | Raise e :: _ => Raise e
  | Hang :: _ => Hang
  end.

Definition res_map {A B : Type} (g : A -> B) (r : Res A) : Res B :=
  match r with
  | Return a => Return (g a)
  | Raise e => Raise e
  | Hang => Hang
  end.

(** A call of [normalize_output], lines 60-69, when the interpreter allows
    [levels] more nested calls of it. *)
Fixpoint normalize_output_call (levels : nat) (value : Value) : Res Value :=
  match levels with
  | O => Raise RecursionError
  | S deeper =>
      match value with
      | VList l | VTuple l =>
          res_map VList (collect (map (normalize_output_call deeper) l))
      | VFloat f => Return (VFloat (py_round f 6))
      | VDict d =>
          res_map VDict
            (collect (map (fun kv =>
                             res_map (pair (fst kv))
                               (normalize_output_call deeper (snd kv))) d))
      | _ => Return value
      end
  end.

(** A call of [compare_outputs], lines 72-88, under the same limit. *)
Definition compare_outputs_call (levels : nat) (actual expected : Value)
  : Res bool :=
  match normalize_output_call levels actual with
  | Return actual' =>
      match normalize_output_call levels expected with
      | Return expected' => Return (comparator actual' expected')
      | Raise e => Raise e
      | Hang => Hang
      end
  | Raise e => Raise e
  | Hang => Hang
  end.

(** ** The candidate and the world around the runner *)

(** How a call of candidate code ends: with a value, plain data here, with
    an exception, or never. *)
Inductive Finish : Type :=
| Returns (v : Value)
| Raises (e : Exc)
| Never.

(** [timeout_handler], lines 23-25: the SIGALRM handler raises the runner's
    TimeoutError in whatever code is running. *)
Definition timeout_handler {A : Type} : Res A :=
  Raise (TimeoutError "Test execution timed out").

Section Runner.

(** The state candidate code keeps between calls (module globals, objects
    it created): the runner never looks into it. *)
Variable Heap : Type.

(** One call of a candidate function.  Left alone it ends as [finish] says,
    after [duration_ns] nanoseconds of real time (irrelevant when it never
    ends).  When the alarm handler raises inside it, the exception leaves the
    call unless candidate code catches it ([except Exception] around the
    interrupted statement): [intercepted] is [None] when the exception
    passes, and how the call ends after catching it otherwise.
    [clock_advance] is by how many seconds the reading of [time.time()]
    has moved, and [heap_after] the candidate's state, when control leaves
    the call. *)
Record Call : Type := mkCall {
  finish : Finish;
  duration_ns : Z;
  intercepted : option Finish;
  clock_advance : float;
  heap_after : Heap
}.

(** A callable of the candidate: keyword arguments and the current state
    determine the call. *)
Definition Func : Type := Heap -> list (string * Value) -> Call.

(** What a name of the candidate namespace is bound to: [callable(obj)] holds
    for functions and classes, not for data or modules. *)
Inductive Obj : Type :=
| NotCallable
| Callable (f : Func).

Definition callable (o : Obj) : bool :=
  match o with Callable _ => true | NotCallable => false end.

(** A namespace is a dict: names in insertion order. *)
Definition Namespace : Type := list (string * Obj).

(** What [exec] on the compiled candidate source does: it binds names, raises
    (a syntax error of [compile] included), or never ends. *)
Inductive ExecOutcome : Type :=
| ExecOk (bindings : Namespace)
| ExecRaises (e : Exc)
| ExecNever.

(** The mutable world: the alarm the process has pending (in seconds, with
    [timeout_handler] installed as its handler), the wall clock, the
    candidate's state. *)
Record World : Type := mkWorld {
  pending_alarm : option Z;
  clock : float;
  heap : Heap
}.

(** The fixed surroundings of one run. *)
Record Env : Type := mkEnv {
  has_SIGALRM : bool;                       (* hasattr(signal, 'SIGALRM') *)
  path_exists : string -> bool;             (* Path.exists() *)
  read_text : string -> Res string;         (* open(path, "r") and f.read() *)
  yaml_safe_load : string -> Res Value;     (* yaml.safe_load on a file's text *)
  py_exec : string -> string -> Heap -> ExecOutcome * Heap;
                                            (* exec(compile(code, path, "exec"), ns) *)
  builtin_names : list string;              (* dir(__builtins__) *)
  format_exc : Exc -> string                (* traceback.format_exc() while handling *)
}.

Variable env : Env.

(** [signal.signal(signal.SIGALRM, timeout_handler); signal.alarm(seconds)]
    for a number of seconds from 0 to 2^31 - 1, what [signal.alarm] takes
    ([run_tests] passes 2): a positive number arms the alarm, zero cancels
    it. *)
Definition signal_alarm (seconds : Z) : M World unit :=
  modify (fun w =>
    mkWorld (if 0 <? seconds then Some seconds else None) (clock w) (heap w)).

(** [time.time()]. *)
Definition time_time : M World float := gets clock.

(** The pending alarm goes off during a call that has not ended when its
    seconds have passed. *)
Definition alarm_fires (w : World) (c : Call) : bool :=
  match pending_alarm w with
  | Some t =>
      match finish c with
      | Never => true
      | _ => t * 10 ^ 9 <=? duration_ns c
      end
  | None => false
  end.

(** How a call that ends as [fin] comes back to the runner. *)
Definition come_back (fin : Finish) : M World Value :=
  match fin with
  | Returns v => ret v
  | Raises e => raise e
  | Never => fun w => (Hang, w)
  end.

(** The call of [func] with the keyword arguments [kwargs] unpacked, line
    119.  Unpacking needs a mapping and the call a callable.
    When the alarm goes off first, it is spent and [timeout_handler] runs
    inside the call: its exception leaves the call unless the candidate
    catches it.  Otherwise the call ends as the candidate ends it. *)
Definition call_function (func : Obj) (kwargs : Value) : M World Value :=
  fun w =>
    match kwargs, func with
    | VDict d, Callable f =>
        let c := f (heap w) d in
        if alarm_fires w c
        then
          let w' := mkWorld None (clock w + clock_advance c) (heap_after c) in
          match intercepted c with
          | None => (timeout_handler, w')
          | Some fin => come_back fin w'
          end
        else
          come_back (finish c)
            (mkWorld (pending_alarm w) (clock w + clock_advance c)
               (heap_after c))
    | VDict _, NotCallable => (Raise (TypeError "object is not callable"), w)
    | _, _ =>
        (Raise (TypeError ("argument after ** must be a mapping, not "
                           ++ type_name kwargs)), w)
    end.

(** ** Problem loader and candidate loader *)

(** [pathlib.Path] on a POSIX system.  A path is given by the string it is
    made from; [Path] keeps its root and its parts, which is what [str]
    and [/] work on. *)

(** [sep.join(parts)]. *)
Fixpoint join (sep : string) (parts : list string) : string :=
  match parts with
  | [] => ""
  | [p] => p
  | p :: rest => p ++ sep ++ join sep rest
  end.

(** The root: "//" for exactly two leading slashes, "/" for one and for
    three or more, none for a relative path. *)
Definition path_root (s : string) : string :=
  match s with
  | String "/" (String "/" (String "/" _)) => "/"
  | String "/" (String "/" _) => "//"
  | String "/" _ => "/"
  | _ => ""
  end.

(** The parts below the root: what stands between the slashes, without
    the empty parts and the parts ".". *)
Definition path_parts (s : string) : list string :=
  filter (fun part => negb (String.eqb part "" || String.eqb part "."))
    (split "/" s).

(** [str] of the path with this root and these parts: "." when it has
    neither. *)
Definition path_format (root : string) (parts : list string) : string :=
  match root, parts with
  | EmptyString, [] => "."
  | _, _ => root ++ join "/" parts
  end.

(** [str(Path(s))]. *)
Definition path_str (s : string) : string :=
  path_format (path_root s) (path_parts s).

(** [str(Path(dir) / name)] for a relative [name]: line 30 with
    "problem.yaml". *)
Definition path_join (dir name : string) : string :=
  path_format (path_root dir) (path_parts dir ++ path_parts name)%list.

(** [load_problem], lines 28-35. *)
Definition load_problem (problem_dir : string) : M World Value :=
  let problem_path := path_join problem_dir "problem.yaml" in
  if negb (path_exists env problem_path) then
    raise (FileNotFoundError ("Problem file not found: " ++ problem_path))
  else
    text <- lift (read_text env problem_path) ;;
    lift (yaml_safe_load env text).

(** The module object bound to [__builtins__]. *)
Definition builtins_module : Obj := NotCallable.

(** [import_user_solution], lines 38-57. *)
Definition import_user_solution (solution_path : string) : M World Namespace :=
  if negb (path_exists env solution_path) then
    raise (FileNotFoundError
             ("Solution file not found: " ++ path_str solution_path))
  else
    user_code <- lift (read_text env solution_path) ;;
    let namespace : Namespace := [("__builtins__", builtins_module)] in
    try_except
      (fun w =>
         match py_exec env user_code solution_path (heap w) with
         | (ExecOk bindings, h) =>
             (Return (namespace ++ bindings)%list,
              mkWorld (pending_alarm w) (clock w) h)
         | (ExecRaises e, h) => (Raise e, mkWorld (pending_alarm w) (clock w) h)
         | (ExecNever, h) => (Hang, mkWorld (pending_alarm w) (clock w) h)
         end)
      (fun e =>
         if isinstance_SyntaxError e then
           Some (raise (SyntaxError ("Syntax error in solution: " ++ exc_str e)))
         else if isinstance_Exception e then
           Some (raise (RuntimeError ("Error loading solution: " ++ exc_str e)))
         else None).

(** ** Sandboxed executor *)

(** The dict [run_single_test] returns.  [tr_error] and [tr_traceback] are
    [None] for Python's [None] and for an absent key. *)
Record TestResult : Type := mkTestResult {
  tr_id : Value;
  tr_input : Value;
  tr_expected : Value;
  tr_explanation : Value;
  tr_passed : bool;
  tr_output : Value;
  tr_error : option string;
  tr_execution_time_ms : Value;
  tr_traceback : option string
}.

Definition set_execution_time_ms (t : Value) (r : TestResult) : TestResult :=
  mkTestResult (tr_id r) (tr_input r) (tr_expected r) (tr_explanation r)
    (tr_passed r) (tr_output r) (tr_error r) t (tr_traceback r).

Definition set_output (v : Value) (r : TestResult) : TestResult :=
  mkTestResult (tr_id r) (tr_input r) (tr_expected r) (tr_explanation r)
    (tr_passed r) v (tr_error r) (tr_execution_time_ms r) (tr_traceback r).

Definition set_passed (b : bool) (r : TestResult) : TestResult :=
  mkTestResult (tr_id r) (tr_input r) (tr_expected r) (tr_explanation r)
    b (tr_output r) (tr_error r) (tr_execution_time_ms r) (tr_traceback r).

Definition set_error (msg : string) (r : TestResult) : TestResult :=
  mkTestResult (tr_id r) (tr_input r) (tr_expected r) (tr_explanation r)
    (tr_passed r) (tr_output r) (Some msg) (tr_execution_time_ms r)
    (tr_traceback r).

Definition set_traceback (tb : string) (r : TestResult) : TestResult :=
  mkTestResult (tr_id r) (tr_input r) (tr_expected r) (tr_explanation r)
    (tr_passed r) (tr_output r) (tr_error r) (tr_execution_time_ms r) (Some tb).

(** [round((end_time - start_time) * 1000, 2)], line 122. *)
Definition elapsed_ms (start_time end_time : float) : float :=
  py_round ((end_time - start_time) * 1000) 2.

(** The body of the [try] of [run_single_test], lines 110-129. *)
Definition run_single_test_try (func : Obj) (test_input expected : Value)
    (timeout_seconds : Z) : M (TestResult * World) unit :=
  when (has_SIGALRM env) (outer (signal_alarm timeout_seconds)) ;;
  start_time <- outer time_time ;;
  actual_output <- outer (call_function func test_input) ;;
  end_time <- outer time_time ;;
  local (set_execution_time_ms (VFloat (elapsed_ms start_time end_time))) ;;
  when (has_SIGALRM env) (outer (signal_alarm 0)) ;;
  local (set_output actual_output) ;;
  local (set_passed (compare_outputs actual_output expected)).

(** Its [except] clauses, lines 131-135: TimeoutError first, then Exception;
    anything else propagates. *)
Definition run_single_test_except (timeout_seconds : Z) (e : Exc)
  : option (M (TestResult * World) unit) :=
  if isinstance_TimeoutError e then
    Some (local (set_error ("Timeout: execution exceeded "
                            ++ str_of_int timeout_seconds ++ " seconds")))
  else if isinstance_Exception e then
    Some (local (set_error (exc_name e ++ ": " ++ exc_str e)) ;;
          local (set_traceback (format_exc env e)))
  else None.

(** Its [finally] clause, lines 136-139. *)
Definition run_single_test_finally : M (TestResult * World) unit :=
  when (has_SIGALRM env) (outer (signal_alarm 0)).

(** [run_single_test], lines 91-141. *)
Definition run_single_test (func : Obj) (test_case : Value) (timeout_seconds : Z)
  : M World TestResult :=
  test_input <- lift (py_get test_case "input" (VDict [])) ;;
  expected <- lift (py_get test_case "expected" VNone) ;;
  test_id <- lift (py_get test_case "id" (VStr "unknown")) ;;
  explanation <- lift (py_get test_case "explanation" (VStr "")) ;;
  let result :=
    mkTestResult test_id test_input expected explanation
      false VNone None (VInt 0) None in
  with_local result
    (try_finally
       (try_except
          (run_single_test_try func test_input expected timeout_seconds)
          (run_single_test_except timeout_seconds))
       run_single_test_finally).

(** ** Entry-point resolver *)

(** [name in namespace and callable(namespace[name])]. *)
Definition callable_in (namespace : Namespace) (name : string) : bool :=
  match dict_lookup name namespace with
  | Some o => callable o
  | None => false
  end.

(** The function name read off a line of starter code, line 153. *)
Definition hinted_name (line : string) : string :=
  strip (remove_all "def " (hd "" (split "(" (strip line)))).

(** The loop over the lines of the starter code, lines 150-155. *)
Fixpoint scan_starter_code (namespace : Namespace) (lines : list string)
  : option string :=
  match lines with
  | [] => None
  | line :: rest =>
      if startswith "def " (strip line) then
        let func_name := hinted_name line in
        if callable_in namespace func_name then Some func_name
        else scan_starter_code namespace rest
      else scan_starter_code namespace rest
  end.

Definition common_names : list string :=
  ["solve"; "solution"; "main"; "find_asteroid_pair"; "find_top_k_pairs"].

(** The loop over the conventional names, lines 159-161. *)
Fixpoint scan_common_names (namespace : Namespace) (names : list string)
  : option string :=
  match names with
  | [] => None
  | name :: rest =>
      if callable_in namespace name then Some name
      else scan_common_names namespace rest
  end.

(** [name in dir(__builtins__)]. *)
Definition is_builtin_name (name : string) : bool :=
  existsb (String.eqb name) (builtin_names env).

(** The loop over [namespace.items()], lines 164-166. *)
Fixpoint scan_namespace (items : Namespace) : option string :=
  match items with
  | [] => None
  | (name, obj) :: rest =>
      if callable obj && negb (startswith "_" name)
         && negb (is_builtin_name name)
      then Some name
      else scan_namespace rest
  end.

(** [detect_function_name], lines 144-168. *)
Definition detect_function_name (problem : Value) (namespace : Namespace)
  : Res string :=
  match py_get problem "starter_code_python" (VStr "") with
  | Return starter_code =>
      match py_split starter_code "010"%char with
      | Return lines =>
          match scan_starter_code namespace lines with
          | Some func_name => Return func_name
          | None =>
              match scan_common_names namespace common_names with
              | Some name => Return name
              | None =>
                  match scan_namespace namespace with
                  | Some name => Return name
                  | None => Raise (ValueError "Could not detect function to test")
                  end
              end
          end
      | Raise e => Raise e
      | Hang => Hang
      end
  | Raise e => Raise e
  | Hang => Hang
  end.

(** ** Result aggregator *)

(** The dict [run_tests] returns. *)
Record RunReport : Type := mkRunReport {
  rp_success : bool;
  rp_total : Z;
  rp_passed : Z;
  rp_failed : Z;
  rp_results : list TestResult;
  rp_error : option string;
  rp_traceback : option string
}.

Definition set_rp_success (b : bool) (r : RunReport) : RunReport :=
  mkRunReport b (rp_total r) (rp_passed r) (rp_failed r) (rp_results r)
    (rp_error r) (rp_traceback r).

Definition set_rp_total (n : Z) (r : RunReport) : RunReport :=
  mkRunReport (rp_success r) n (rp_passed r) (rp_failed r) (rp_results r)
    (rp_error r) (rp_traceback r).

Definition incr_rp_passed (r : RunReport) : RunReport :=
  mkRunReport (rp_success r) (rp_total r) (rp_passed r + 1) (rp_failed r)
    (rp_results r) (rp_error r) (rp_traceback r).

Definition incr_rp_failed (r : RunReport) : RunReport :=
  mkRunReport (rp_success r) (rp_total r) (rp_passed r) (rp_failed r + 1)
    (rp_results r) (rp_error r) (rp_traceback r).

Definition append_rp_results (t : TestResult) (r : RunReport) : RunReport :=
  mkRunReport (rp_success r) (rp_total r) (rp_passed r) (rp_failed r)
    (rp_results r ++ [t])%list (rp_error r) (rp_traceback r).

Definition set_rp_error (msg : string) (r : RunReport) : RunReport :=
  mkRunReport (rp_success r) (rp_total r) (rp_passed r) (rp_failed r)
    (rp_results r) (Some msg) (rp_traceback r).

Definition set_rp_traceback (tb : string) (r : RunReport) : RunReport :=
  mkRunReport (rp_success r) (rp_total r) (rp_passed r) (rp_failed r)
    (rp_results r) (rp_error r) (Some tb).

(** [namespace[func_name]]. *)
Definition namespace_getitem (namespace : Namespace) (name : string) : Res Obj :=
  match dict_lookup name namespace with
  | Some o => Return o
  | None => Raise (KeyError name)
  end.

(** The body of the loop over the test cases, lines 203-209; the default
    deadline of [run_single_test] is 2 seconds. *)
Definition run_test_case (func : Obj) (test_case : Value)
  : M (RunReport * World) unit :=
  test_result <- outer (run_single_test func test_case 2) ;;
  local (append_rp_results test_result) ;;
  if tr_passed test_result then local incr_rp_passed
  else local incr_rp_failed.

(** The body of the [try] of [run_tests], lines 183-209.  The [return] of
    line 190 ends the body: only [return results] follows the statement. *)
Definition run_tests_try (problem_dir solution_path : string)
  : M (RunReport * World) unit :=
  problem <- outer (load_problem problem_dir) ;;
  test_cases <- lift (py_get problem "test_cases" (VList [])) ;;
  if negb (truthy test_cases) then
    local (set_rp_error "No test cases found in problem definition") ;;
    local (set_rp_success false)
  else
    total <- lift (py_len test_cases) ;;
    local (set_rp_total total) ;;
    namespace <- outer (import_user_solution solution_path) ;;
    func_name <- lift (detect_function_name problem namespace) ;;
    func <- lift (namespace_getitem namespace func_name) ;;
    items <- lift (py_iter test_cases) ;;
    for_each items (run_test_case func).

(** Its [except] clauses, lines 211-223, in their order. *)
Definition run_tests_except (e : Exc) : option (M (RunReport * World) unit) :=
  if isinstance_FileNotFoundError e then
    Some (local (set_rp_success false) ;;
          local (set_rp_error (exc_str e)))
  else if isinstance_SyntaxError e then
    Some (local (set_rp_success false) ;;
          local (set_rp_error ("Syntax Error: " ++ exc_str e)))
  else if isinstance_ValueError e then
    Some (local (set_rp_success false) ;;
          local (set_rp_error (exc_str e)))
  else if isinstance_Exception e then
    Some (local (set_rp_success false) ;;
          local (set_rp_error ("Unexpected error: " ++ exc_name e
                               ++ ": " ++ exc_str e)) ;;
          local (set_rp_traceback (format_exc env e)))
  else None.

(** [run_tests], lines 171-225. *)
Definition run_tests (problem_dir solution_path : string) : M World RunReport :=
  let results := mkRunReport true 0 0 0 [] None None in
  with_local results
    (try_except (run_tests_try problem_dir solution_path) run_tests_except).

(** The two paths [main] works on, lines 231-237: the defaults unless the
    command line gives both. *)
Definition problem_dir_of (argv : list string) : string :=
  if 3 <=? Z.of_nat (length argv) then nth 1 argv "" else "/code/problem".

Definition solution_path_of (argv : list string) : string :=
  if 3 <=? Z.of_nat (length argv) then nth 2 argv "" else "/code/solution.py".

(** [print(json.dumps(results, indent=2, default=str))] for a report that
    [json.dumps] serializes: standard output is the list of the reports
    printed so far. *)
Definition print_json (results : RunReport) : M (list RunReport * World) unit :=
  local (fun out => (out ++ [results])%list).

(** [sys.exit(status)] raises SystemExit. *)
Definition sys_exit {St A : Type} (status : Z) : M St A :=
  raise (SystemExit status).

(** [main], lines 228-246, for the command line [argv]. *)
Definition main (argv : list string) : M (list RunReport * World) unit :=
  let problem_dir := problem_dir_of argv in
  let solution_path := solution_path_of argv in
  results <- outer (run_tests problem_dir solution_path) ;;
  print_json results ;;
  sys_exit (if rp_success results && (rp_failed results =? 0) then 0 else 1).

(** How the process that runs the script ends: with an exit status; with
    the traceback and the non-zero status the interpreter gives an uncaught
    exception other than SystemExit; or never. *)
Inductive ProcessEnd : Type :=
| Exits (status : Z)
| Crashes
| NeverEnds.

(** What the operating system sees of the script, lines 249-250: what the
    process printed on standard output and how it ended.  A SystemExit that
    nothing catches ends the process with its status, whoever raised it; a
    script that runs to its end exits with status 0. *)
Definition run_script (argv : list string) (w : World)
  : list RunReport * ProcessEnd :=
  match main argv ([], w) with
  | (Return _, (out, _)) => (out, Exits 0)
  | (Raise e, (out, _)) =>
      (out,
       match exc_kind e with
       | KSystemExit status => Exits status
       | _ => Crashes
       end)
  | (Hang, (out, _)) => (out, NeverEnds)
  end.

End Runner.

Arguments mkCall {Heap} finish duration_ns intercepted clock_advance heap_after.
Arguments finish {Heap} c.
Arguments intercepted {Heap} c.
Arguments come_back {Heap} fin.
Arguments duration_ns {Heap} c.
Arguments clock_advance {Heap} c.
Arguments heap_after {Heap} c.
Arguments NotCallable {Heap}.
Arguments Callable {Heap} f.
Arguments callable {Heap} o.
Arguments ExecOk {Heap} bindings.
Arguments ExecRaises {Heap} e.
Arguments ExecNever {Heap}.
Arguments mkWorld {Heap} pending_alarm clock heap.
Arguments pending_alarm {Heap} w.
Arguments clock {Heap} w.
Arguments heap {Heap} w.
Arguments mkEnv {Heap}.
Arguments has_SIGALRM {Heap} e.
Arguments path_exists {Heap} e.
Arguments read_text {Heap} e.
Arguments yaml_safe_load {Heap} e.
Arguments py_exec {Heap} e.
Arguments builtin_names {Heap} e.
Arguments format_exc {Heap} e.
Arguments signal_alarm {Heap} seconds.
Arguments time_time {Heap}.
Arguments alarm_fires {Heap} w c.
Arguments call_function {Heap} func kwargs.
Arguments load_problem {Heap} env problem_dir.
Arguments builtins_module {Heap}.
Arguments import_user_solution {Heap} env solution_path.
Arguments run_single_test_try {Heap} env func test_input expected timeout_seconds.
Arguments run_single_test_except {Heap} env timeout_seconds e.
Arguments run_single_test_finally {Heap} env.
Arguments run_single_test {Heap} env func test_case timeout_seconds.
Arguments callable_in {Heap} namespace name.
Arguments scan_starter_code {Heap} namespace lines.
Arguments scan_common_names {Heap} namespace names.
Arguments is_builtin_name {Heap} env name.
Arguments scan_namespace {Heap} env items.
Arguments detect_function_name {Heap} env problem namespace.
Arguments namespace_getitem {Heap} namespace name.
Arguments run_test_case {Heap} env func test_case.
Arguments run_tests_try {Heap} env problem_dir solution_path.
Arguments run_tests_except {Heap} env e.
Arguments run_tests {Heap} env problem_dir solution_path.
Arguments print_json {Heap} results.
Arguments main {Heap} env argv.
Arguments run_script {Heap} env argv w.

(** * Concrete problems, candidates and environments *)

(** A test case of the addition problem. *)
Definition add_case (id : string) (a b expected : Z) : list (string * Value) :=
  [("id", VStr id);
   ("input", VDict [("a", VInt a); ("b", VInt b)]);
   ("expected", VInt expected)].

Definition add_cases : list Value :=
  [VDict (add_case "t1" 1 2 3); VDict (add_case "t2" 2 2 4);
   VDict (add_case "t3" 10 (-3) 7)].

(** A problem with three test cases whose starter code declares [add]. *)
Definition add_problem : list (string * Value) :=
  [("starter_code_python", VStr "def add(a, b):");
   ("test_cases", VList add_cases)].

(** The same problem without test cases. *)
Definition empty_problem : list (string * Value) :=
  [("starter_code_python", VStr "def add(a, b):");
   ("test_cases", VList [])].

(** How the keyword arguments bind to the parameters of [def add(a, b)],
    for integers: both are given, in any order, and nothing else is. *)
Definition add_args (kwargs : list (string * Value)) : option (Z * Z) :=
  match dict_lookup "a" kwargs, dict_lookup "b" kwargs, length kwargs with
  | Some (VInt a), Some (VInt b), 2%nat => Some (a, b)
  | _, _, _ => None
  end.

(** The TypeError of an argument mismatch. *)
Definition mismatch : Exc := TypeError "add() got an unexpected keyword argument".

(** [def add(a, b): return a + b], taking half a second; with other keyword
    arguments the call raises at once. *)
Definition add : Func unit :=
  fun h kwargs =>
    match add_args kwargs with
    | Some (a, b) => mkCall (Returns (VInt (a + b))) 500000000 None 0.5 h
    | None => mkCall (Raises mismatch) 0 None 0 h
    end.

(** The same function, taking five seconds. *)
Definition slow_add : Func unit :=
  fun h kwargs =>
    match add_args kwargs with
    | Some (a, b) => mkCall (Returns (VInt (a + b))) 5000000000 None 5 h
    | None => mkCall (Raises mismatch) 0 None 0 h
    end.

(** A function that never returns: [while True: pass].  Control leaves the
    call when the alarm interrupts it, after 2 seconds. *)
Definition spin : Func unit := fun h _ => mkCall Never 0 None 2 h.

(** A function that spins inside [try] and, on any Exception, returns the
    sum: [try: while True: pass] then [except Exception: return a + b]. *)
Definition stubborn_add : Func unit :=
  fun h kwargs =>
    match add_args kwargs with
    | Some (a, b) => mkCall Never 0 (Some (Returns (VInt (a + b)))) 2 h
    | None => mkCall (Raises mismatch) 0 None 0 h
    end.

(** [add] for small numbers only: it raises ValueError when [a] is 10. *)
Definition picky_add : Func unit :=
  fun h kwargs =>
    match add_args kwargs with
    | Some (a, b) =>
        if a =? 10 then mkCall (Raises (ValueError "a is too large")) 1000 None 0 h
        else mkCall (Returns (VInt (a + b))) 500000000 None 0.5 h
    | None => mkCall (Raises mismatch) 0 None 0 h
    end.

(** A function that raises ValueError after a quarter of a second. *)
Definition failing : Func unit :=
  fun h _ => mkCall (Raises (ValueError "bad input")) 250000000 None 0.25 h.

(** A function that calls [sys.exit(0)]. *)
Definition quitting : Func unit :=
  fun h _ => mkCall (Raises (SystemExit 0)) 1000 None 0 h.

(** An environment in which every path exists, the problem file parses to
    [problem] and executing the candidate source does [exec_outcome]. *)
Definition env_of (sigalrm : bool) (problem : list (string * Value))
    (exec_outcome : ExecOutcome unit) : Env unit :=
  mkEnv sigalrm (fun _ => true) (fun path => Return path)
    (fun _ => Return (VDict problem)) (fun _ _ h => (exec_outcome, h))
    ["print"; "len"; "sum"] (fun _ => "Traceback (most recent call last): ...").

Definition unix_env (f : Func unit) : Env unit :=
  env_of true add_problem (ExecOk [("helper", NotCallable); ("add", Callable f)]).

Definition no_alarm_env (f : Func unit) : Env unit :=
  env_of false add_problem (ExecOk [("helper", NotCallable); ("add", Callable f)]).

(** What [from typing import List] binds: a callable that cannot be
    instantiated. *)
Definition typing_List : Func unit :=
  fun h _ =>
    mkCall (Raises (TypeError "Type List cannot be instantiated; use list() instead"))
      0 None 0 h.

(** A problem whose starter code declares [undef] with a space before the
    parenthesis. *)
Definition undef_problem : list (string * Value) :=
  [("starter_code_python", VStr "def undef (x):");
   ("test_cases", VList [VDict [("input", VDict [("x", VInt 1)]);
                                ("expected", VInt 1)]])].

(** The namespace of a candidate that imports [List] and defines [undef]. *)
Definition undef_namespace : Namespace unit :=
  [("__builtins__", builtins_module); ("List", Callable typing_List);
   ("undef", Callable (fun h _ => mkCall (Returns (VInt 1)) 0 None 0 h))].

(** The addition problem with a second test case that is a string. *)
Definition malformed_problem : list (string * Value) :=
  [("starter_code_python", VStr "def add(a, b):");
   ("test_cases",
    VList [VDict (add_case "t1" 1 2 3); VStr "oops"; VDict (add_case "t3" 10 (-3) 7)])].

(** The world at the start of a run: no alarm pending, the clock at 1. *)
Definition w0 : World unit := mkWorld None 1 tt.

(** The report of the addition problem run against [add]. *)
Definition add_report : RunReport :=
  Eval vm_compute in
    match fst (run_tests (unix_env add) "/code/problem" "/code/solution.py" w0) with
    | Return r => r
    | _ => mkRunReport true 0 0 0 [] None None
    end.

(** The report of the addition problem run against [picky_add]. *)
Definition picky_report : RunReport :=
  Eval vm_compute in
    match fst (run_tests (unix_env picky_add) "/code/problem" "/code/solution.py"
                 w0) with
    | Return r => r
    | _ => mkRunReport true 0 0 0 [] None None
    end.

(** The result of the first test case of the addition problem for [add]. *)
Definition add_result : TestResult :=
  Eval vm_compute in
    match fst (run_single_test (unix_env add) (Callable add)
                 (VDict (add_case "t1" 1 2 3)) 2 w0) with
    | Return r => r
    | _ => mkTestResult VNone VNone VNone VNone false VNone None VNone None
    end.

(** A test case whose input is a list. *)
Definition list_input_case : list (string * Value) :=
  [("id", VStr "t1"); ("input", VList [VInt 1; VInt 2]); ("expected", VInt 3)].

(** An environment in which the paths of [present] exist and no other. *)
Definition files_env (present : list string) : Env unit :=
  mkEnv true (fun path => existsb (String.eqb path) present)
    (fun path => Return path) (fun _ => Return (VDict add_problem))
    (fun _ _ h => (ExecOk [("add", Callable add)], h))
    ["print"; "len"; "sum"] (fun _ => "Traceback (most recent call last): ...").

(** An environment whose problem file parses to [v]. *)
Definition yaml_env (v : Value) : Env unit :=
  mkEnv true (fun _ => true) (fun path => Return path) (fun _ => Return v)
    (fun _ _ h => (ExecOk [("add", Callable add)], h))
    ["print"; "len"; "sum"] (fun _ => "Traceback (most recent call last): ...").

(** What [1 / 0] at the top of a candidate file raises. *)
Definition ZeroDivisionError : Exc :=
  mkExc KException "ZeroDivisionError" "division by zero".

(** The addition problem with a null for starter code. *)
Definition null_hint_problem : list (string * Value) :=
  [("starter_code_python", VNone); ("test_cases", VList add_cases)].

(** A candidate that counts its calls in a module global and returns the
    count: [def solve(): global n; n += 1; return n]. *)
Definition count_calls : Func Z :=
  fun n _ => mkCall (Returns (VInt (n + 1))) 1000 None 0 (n + 1).

(** A test case that expects 1 from a call without arguments. *)
Definition expect_one : list (string * Value) :=
  [("id", VStr "once"); ("input", VDict []); ("expected", VInt 1)].

(** A problem that has this test case twice. *)
Definition count_problem : list (string * Value) :=
  [("starter_code_python", VStr "def solve():");
   ("test_cases", VList [VDict expect_one; VDict expect_one])].

Definition counting_env : Env Z :=
  mkEnv true (fun _ => true) (fun path => Return path)
    (fun _ => Return (VDict count_problem))
    (fun _ _ n => (ExecOk [("solve", Callable count_calls)], n))
    ["print"; "len"; "sum"] (fun _ => "Traceback (most recent call last): ...").

(** * Reference solutions of the problem set

    Two of the candidates the runner is given are data structures with
    state: the cache of [12-lru-cache/solution.py] and the ring buffer of
    [06-circular-buffer-replay/solution.py].  Their methods are embedded as
    computations on the object. *)

(** What an index out of range raises. *)
Definition IndexError (msg : string) : Exc := mkExc KException "IndexError" msg.

(** ** [class LRUCache], [12-lru-cache/solution.py] lines 3-36 *)

Module LRUCache.

(** A [collections.OrderedDict] with int keys: its entries from the oldest
    to the newest. *)
Definition OrderedDict : Type := list (Z * Value).

(** [key in d]. *)
Definition contains (key : Z) (d : OrderedDict) : bool :=
  existsb (fun kv => fst kv =? key) d.

(** [d[key]]. *)
Fixpoint getitem (key : Z) (d : OrderedDict) : Res Value :=
  match d with
  | [] => Raise (KeyError (str_of_int key))
  | (k, v) :: r => if k =? key then Return v else getitem key r
  end.

(** [d] without the entry of [key]. *)
Fixpoint remove (key : Z) (d : OrderedDict) : OrderedDict :=
  match d with
  | [] => []
  | (k, v) :: r => if k =? key then r else (k, v) :: remove key r
  end.

(** [d.move_to_end(key)]: the entry becomes the newest. *)
Definition move_to_end (key : Z) (d : OrderedDict) : Res OrderedDict :=
  match getitem key d with
  | Return v => Return (remove key d ++ [(key, v)])%list
  | Raise e => Raise e
  | Hang => Hang
  end.

(** [d[key] = value]: in place for a key of [d], as the newest entry for a
    new key. *)
Fixpoint setitem (key : Z) (value : Value) (d : OrderedDict) : OrderedDict :=
  match d with
  | [] => [(key, value)]
  | (k, v) :: r =>
      if k =? key then (k, value) :: r else (k, v) :: setitem key value r
  end.

(** [d.popitem(last=False)]: the oldest entry leaves. *)
Definition popitem_first (d : OrderedDict) : Res ((Z * Value) * OrderedDict) :=
  match d with
  | [] => Raise (KeyError "dictionary is empty")
  | kv :: r => Return (kv, r)
  end.

(** The object: [self.capacity] and [self.cache]. *)
Record t : Type := mk { capacity : Z; cache : OrderedDict }.

Definition set_cache (d : OrderedDict) (self : t) : t := mk (capacity self) d.

(** [__init__], lines 14-16. *)
Definition __init__ (capacity : Z) : t := mk capacity [].

(** [get], lines 18-24. *)
Definition get (key : Z) : M t Value :=
  c <- gets cache ;;
  if negb (contains key c) then ret VNone
  else
    d <- lift (move_to_end key c) ;;
    modify (set_cache d) ;;
    lift (getitem key d).

(** [put], lines 26-36. *)
Definition put (key : Z) (value : Value) : M t unit :=
  c <- gets cache ;;
  if contains key c then
    d <- lift (move_to_end key c) ;;
    modify (set_cache (setitem key value d))
  else
    cap <- gets capacity ;;
    when (cap <=? Z.of_nat (length c))
      (popped <- lift (popitem_first c) ;; modify (set_cache (snd popped))) ;;
    c' <- gets cache ;;
    modify (set_cache (setitem key value c')).

(** A call of one of the two methods. *)
Inductive Op : Type :=
| Get (key : Z)
| Put (key : Z) (value : Value).

Definition key_of (op : Op) : Z :=
  match op with Get k => k | Put k _ => k end.

(** What the call returns: [put] returns [None]. *)
Definition call (op : Op) : M t Value :=
  match op with
  | Get k => get k
  | Put k v => put k v ;; ret VNone
  end.

(** A sequence of calls, the values they return dropped. *)
Definition calls (ops : list Op) : M t unit :=
  for_each ops (fun op => call op ;; ret tt).

(** The keys of a dict, from the oldest entry to the newest. *)
Definition keys (d : OrderedDict) : list Z := map fst d.

(** The object is in order: it holds no more entries than its capacity and
    its keys are pairwise distinct. *)
Definition ok (self : t) : Prop :=
  Z.of_nat (length (cache self)) <= capacity self /\ NoDup (keys (cache self)).

(** The keys of the entries that are newer than the entry of [key]. *)
Fixpoint newer (key : Z) (d : OrderedDict) : list Z :=
  match d with
  | [] => []
  | (k, _) :: r => if k =? key then map fst r else newer key r
  end.

(** The entry of [key] holds [value] and only keys of [others] are newer
    than it. *)
Definition kept (key : Z) (value : Value) (others : list Z) (self : t) : Prop :=
  getitem key (cache self) = Return value
  /\ incl (newer key (cache self)) others.

End LRUCache.

(** ** [class ReplayBuffer], [06-circular-buffer-replay/solution.py]
    lines 6-42, without [sample], which draws at random *)

Module ReplayBuffer.

(** [l[i] = x]: a negative index counts from the end. *)
Definition list_setitem (l : list Value) (i : Z) (x : Value)
  : Res (list Value) :=
  let n := Z.of_nat (length l) in
  let j := if i <? 0 then i + n else i in
  if (0 <=? j) && (j <? n)
  then Return (firstn (Z.to_nat j) l ++ x :: skipn (S (Z.to_nat j)) l)%list
  else Raise (IndexError "list assignment index out of range").

(** [a % b] on ints: the sign of the result is the sign of [b]. *)
Definition py_mod (a b : Z) : Res Z :=
  if b =? 0
  then Raise (mkExc KException "ZeroDivisionError" "integer modulo by zero")
  else Return (a mod b).

(** The object: [self.capacity], [self.buffer] and [self.position]. *)
Record t : Type := mk {
  capacity : Z;
  buffer : list Value;
  position : Z
}.

Definition set_buffer (b : list Value) (self : t) : t :=
  mk (capacity self) b (position self).

Definition set_position (p : Z) (self : t) : t :=
  mk (capacity self) (buffer self) p.

(** [__init__], lines 18-21. *)
Definition __init__ (capacity : Z) : t := mk capacity [] 0.

(** What [push] is called with. *)
Record Experience : Type := mkExperience {
  state : Value;
  action : Value;
  reward : Value;
  next_state : Value;
  done : Value
}.

(** The tuple of line 25. *)
Definition experience_of (x : Experience) : Value :=
  VTuple [state x; action x; reward x; next_state x; done x].

(** [push], lines 23-35. *)
Definition push (x : Experience) : M t unit :=
  let experience := experience_of x in
  b <- gets buffer ;;
  cap <- gets capacity ;;
  (if Z.of_nat (length b) <? cap then
     modify (set_buffer (b ++ [experience])%list)
   else
     p <- gets position ;;
     b' <- lift (list_setitem b p experience) ;;
     modify (set_buffer b')) ;;
  p <- gets position ;;
  p' <- lift (py_mod (p + 1) cap) ;;
  modify (set_position p').

(** [__len__], lines 41-42. *)
Definition __len__ : M t Z :=
  b <- gets buffer ;; ret (Z.of_nat (length b)).

(** A sequence of calls of [push]. *)
Definition pushes (xs : list Experience) : M t unit := for_each xs push.

(** The list [l] turned so that it starts at its element of index [k]. *)
Definition rotate (k : nat) (l : list Value) : list Value :=
  (skipn k l ++ firstn k l)%list.

(** The last [n] elements of [l], all of them when [l] is shorter. *)
Definition lastn (n : nat) (l : list Value) : list Value :=
  skipn (length l - n) l.

End ReplayBuffer.

(** ** [ppo_clip_objective], [08-clipping-functions/solution.py] lines 3-37,
    on floats *)

(** [min(a, b)]: [b] when [b < a], otherwise [a]. *)
Definition py_min (a b : float) : float := if PrimFloat.ltb b a then b else a.

(** [max(a, b)]: [b] when [b > a], otherwise [a]. *)
Definition py_max (a b : float) : float := if PrimFloat.ltb a b then b else a.

(** The body of the loop, lines 25-35: the objective of one pair. *)
Definition clipped_objective (ratio advantage epsilon : float) : float :=
  let unclipped := (ratio * advantage)%float in
  let clipped_ratio :=
    py_max (1 - epsilon)%float (py_min (1 + epsilon)%float ratio) in
  let clipped := (clipped_ratio * advantage)%float in
  py_min unclipped clipped.

(** The loop over [zip(ratios, advantages)], which stops with the shorter
    list. *)
Fixpoint ppo_clip_objective (ratios advantages : list float) (epsilon : float)
  : list float :=
  match ratios, advantages with
  | ratio :: ratios', advantage :: advantages' =>
      clipped_objective ratio advantage epsilon
      :: ppo_clip_objective ratios' advantages' epsilon
  | _, _ => []
  end.

(** The value [v] inside [n] lists, one in the other. *)
Fixpoint nested (n : nat) (v : Value) : Value :=
  match n with
  | O => v
  | S k => VList [nested k v]
  end.

(** [def total(xs): return (sum(xs), len(xs))] on a list of two floats. *)
Definition total : Func unit :=
  fun h kwargs =>
    match dict_lookup "xs" kwargs with
    | Some (VList [VFloat a; VFloat b]) =>
        mkCall (Returns (VTuple [VFloat (a + b); VInt 2])) 1000 None 0 h
    | _ => mkCall (Raises (TypeError "unsupported operand type(s)")) 0 None 0 h
    end.

(** A test case of that function: the sum of 0.1 and 0.2 is expected to be
    [expected_sum]. *)
Definition total_case (expected_sum : float) : list (string * Value) :=
  [("id", VStr "sum");
   ("input", VDict [("xs", VList [VFloat 0.1; VFloat 0.2])]);
   ("expected", VList [VFloat expected_sum; VInt 2])].

(** A test case that expects null from [add]. *)
Definition null_case : list (string * Value) :=
  [("id", VStr "null"); ("input", VDict [("a", VInt 1); ("b", VInt 2)]);
   ("expected", VNone)].


(** * Properties *)

Section Properties.

Context {Heap : Type} (env : Env Heap).

(** ** Vocabulary of the statements *)

(** Every float of a value, in the order of a left-to-right traversal of
    its sequences and of the values of its dicts. *)
Fixpoint floats_in (v : Value) : list float :=
  match v with
  | VFloat f => [f]
  | VList l | VTuple l => flat_map floats_in l
  | VDict d => flat_map (fun kv => floats_in (snd kv)) d
  | _ => []
  end.

(** The exact value of the finite double [m * 2^e] times [10^ndigits], as a
    fraction: numerator and denominator. *)
Definition scaled_fraction (m : positive) (e ndigits : Z) : Z * Z :=
  (Z.pos m * 2 ^ Z.max 0 e * 10 ^ ndigits, 2 ^ Z.max 0 (- e)).

(** The world once lines 111-113 have run. *)
Definition armed (timeout_seconds : Z) (w : World Heap) : World Heap :=
  if has_SIGALRM env
  then mkWorld (if 0 <? timeout_seconds then Some timeout_seconds else None)
         (clock w) (heap w)
  else w.

(** The world once [signal.alarm(0)] has run where SIGALRM exists. *)
Definition disarmed (w : World Heap) : World Heap :=
  if has_SIGALRM env then mkWorld None (clock w) (heap w) else w.

(** What lines 93-96 read from the test case [d]. *)
Definition input_of (d : list (string * Value)) : Value :=
  match dict_lookup "input" d with Some x => x | None => VDict [] end.

Definition expected_of (d : list (string * Value)) : Value :=
  match dict_lookup "expected" d with Some x => x | None => VNone end.

Definition id_of (d : list (string * Value)) : Value :=
  match dict_lookup "id" d with Some x => x | None => VStr "unknown" end.

Definition explanation_of (d : list (string * Value)) : Value :=
  match dict_lookup "explanation" d with Some x => x | None => VStr "" end.

(** The result dict of lines 98-107 for the test case [d]. *)
Definition initial_result (d : list (string * Value)) : TestResult :=
  mkTestResult (id_of d) (input_of d) (expected_of d) (explanation_of d)
    false VNone None (VInt 0) None.

(** The result once a call returned [v] between the clock readings. *)
Definition completed_result (r0 : TestResult) (v : Value)
    (start_time end_time : float) : TestResult :=
  set_passed (compare_outputs v (tr_expected r0))
    (set_output v
       (set_execution_time_ms (VFloat (elapsed_ms start_time end_time)) r0)).

(** The result once an [except] clause handled [e]. *)
Definition faulted_result (r0 : TestResult) (timeout_seconds : Z) (e : Exc)
  : TestResult :=
  if isinstance_TimeoutError e then
    set_error ("Timeout: execution exceeded "
               ++ str_of_int timeout_seconds ++ " seconds") r0
  else
    set_traceback (format_exc env e)
      (set_error (exc_name e ++ ": " ++ exc_str e) r0).

(** No call of [func] catches the exception of the alarm handler and then
    never ends. *)
Definition comes_back_when_interrupted (func : Obj Heap) : Prop :=
  match func with
  | NotCallable => True
  | Callable f =>
      forall (h : Heap) (kwargs : list (string * Value)),
        intercepted (f h kwargs) <> Some Never
  end.

(** The candidate call is still running when the deadline passes. *)
Definition overruns (timeout_seconds : Z) (c : Call Heap) : Prop :=
  match finish c with
  | Never => True
  | _ => timeout_seconds * 10 ^ 9 <= duration_ns c
  end.

(** How the loop of [run_tests] books a result, lines 204-209. *)
Definition record_result (r : TestResult) (rep : RunReport) : RunReport :=
  if tr_passed r then incr_rp_passed (append_rp_results r rep)
  else incr_rp_failed (append_rp_results r rep).

(** An end of a call that raises nothing outside Exception and that is
    endless only where [endless_allowed]. *)
Definition benign (endless_allowed : bool) (fin : Finish) : Prop :=
  match fin with
  | Returns _ => True
  | Raises e => isinstance_Exception e = true
  | Never => endless_allowed = true
  end.

(** A candidate function whose faults are all instances of Exception and
    which always ends: left alone where no alarm can interrupt it, and after
    catching the exception of the alarm handler. *)
Definition tame (f : Func Heap) : Prop :=
  forall (h : Heap) (kwargs : list (string * Value)),
    benign (has_SIGALRM env) (finish (f h kwargs))
    /\ match intercepted (f h kwargs) with
       | None => True
       | Some fin => benign false fin
       end.

(** The names the starter code declares, in the order of its lines: what
    line 153 reads off every line that, stripped, starts with "def ". *)
Definition hinted_names (starter_code : string) : list string :=
  map hinted_name
    (filter (fun line => startswith "def " (strip line))
       (split "010" starter_code)).

(** What a function name on a line of starter code is made of: any
    character but white space and the opening parenthesis (letters, digits
    and the underscore among them). *)
Definition is_name_char (c : ascii) : bool :=
  negb (is_space c) && negb (Ascii.eqb c "(").

Fixpoint all_chars (p : ascii -> bool) (s : string) : bool :=
  match s with
  | EmptyString => true
  | String c r => p c && all_chars p r
  end.

(** A namespace entry the last resort accepts, line 165. *)
Definition eligible (item : string * Obj Heap) : bool :=
  callable (snd item) && negb (startswith "_" (fst item))
  && negb (is_builtin_name env (fst item)).

(** The resolution order as an ordered selection: the first hinted name that
    is a callable of the namespace, else the first conventional name that is
    one, else the first eligible entry of the namespace, else an error. *)
Definition ordered_selection (starter_code : string) (namespace : Namespace Heap)
  : Res string :=
  match find (callable_in namespace) (hinted_names starter_code) with
  | Some name => Return name
  | None =>
      match find (callable_in namespace) common_names with
      | Some name => Return name
      | None =>
          match find eligible namespace with
          | Some item => Return (fst item)
          | None => Raise (ValueError "Could not detect function to test")
          end
      end
  end.

(** The hint of a problem: the starter code when it is a string, the empty
    string when the problem has none. *)
Definition starter_code_of (problem : list (string * Value)) : option string :=
  match dict_lookup "starter_code_python" problem with
  | None => Some ""
  | Some (VStr s) => Some s
  | Some _ => None
  end.

(** The report [run_tests] starts from, lines 173-180. *)
Definition initial_report : RunReport := mkRunReport true 0 0 0 [] None None.

(** The message an [except] clause of [run_tests] stores for [e]. *)
Definition failure_message (e : Exc) : string :=
  match exc_kind e with
  | KFileNotFoundError | KValueError => exc_str e
  | KSyntaxError => "Syntax Error: " ++ exc_str e
  | _ => "Unexpected error: " ++ exc_name e ++ ": " ++ exc_str e
  end.

(** The report once an [except] clause of [run_tests] handled [e]. *)
Definition failed_report (e : Exc) (rep : RunReport) : RunReport :=
  mkRunReport false (rp_total rep) (rp_passed rep) (rp_failed rep)
    (rp_results rep) (Some (failure_message e))
    (match exc_kind e with
     | KFileNotFoundError | KValueError | KSyntaxError => rp_traceback rep
     | _ => Some (format_exc env e)
     end).

(** What [run_tests] makes of the way its [try] body ended. *)
Definition finish_run (x : Res unit * (RunReport * World Heap))
  : Res RunReport * World Heap :=
  match x with
  | (Return _, (rep, w)) => (Return rep, w)
  | (Raise e, (rep, w)) =>
      if isinstance_Exception e then (Return (failed_report e rep), w)
      else (Raise e, w)
  | (Hang, (_, w)) => (Hang, w)
  end.

(** The test cases of a problem, line 185. *)
Definition test_cases_of (problem : list (string * Value)) : Value :=
  match dict_lookup "test_cases" problem with
  | Some x => x
  | None => VList []
  end.

(** The [try] body once the candidate is to be loaded, lines 194-209. *)
Definition load_and_run (problem test_cases : Value) (solution_path : string)
    (rep : RunReport) (w1 : World Heap) : Res unit * (RunReport * World Heap) :=
  match import_user_solution env solution_path w1 with
  | (Return namespace, w2) =>
      match detect_function_name env problem namespace with
      | Return func_name =>
          match namespace_getitem namespace func_name with
          | Return func =>
              match py_iter test_cases with
              | Return items => for_each items (run_test_case env func) (rep, w2)
              | Raise e => (Raise e, (rep, w2))
              | Hang => (Hang, (rep, w2))
              end
          | Raise e => (Raise e, (rep, w2))
          | Hang => (Hang, (rep, w2))
          end
      | Raise e => (Raise e, (rep, w2))
      | Hang => (Hang, (rep, w2))
      end
  | (Raise e, w2) => (Raise e, (rep, w2))
  | (Hang, w2) => (Hang, (rep, w2))
  end.

(** The result [r] is the one of the test case [test_case]: it echoes its
    id, input, expected value and explanation. *)
Definition result_of (test_case : Value) (r : TestResult) : Prop :=
  exists d : list (string * Value),
    test_case = VDict d
    /\ tr_id r = id_of d /\ tr_input r = input_of d
    /\ tr_expected r = expected_of d /\ tr_explanation r = explanation_of d.

(** The candidate function [f] answers the test case [d] correctly and in
    time, whatever its state: the input is a mapping, the call returns before
    the default deadline of 2 seconds and its value compares equal to the
    expected one. *)
Definition answers_correctly (f : Func Heap) (d : list (string * Value))
  : Prop :=
  forall h : Heap,
    exists (kwargs : list (string * Value)) (v : Value),
      input_of d = VDict kwargs
      /\ finish (f h kwargs) = Returns v
      /\ duration_ns (f h kwargs) < 2 * 10 ^ 9
      /\ compare_outputs v (expected_of d) = true.

(** [p] holds of the elements of two sequences pairwise, and the sequences
    have one length: how [==] compares sequences. *)
Fixpoint all2 {A B : Type} (p : A -> B -> bool) (l : list A) (m : list B)
  : bool :=
  match l, m with
  | [], [] => true
  | x :: l', y :: m' => p x y && all2 p l' m'
  | _, _ => false
  end.

(** Every entry of [d] has its key in [e], with an equal value: one half of
    how [==] compares dicts. *)
Definition dict_all_in (e d : list (string * Value)) : bool :=
  forallb (fun kv => match dict_lookup (fst kv) e with
                     | Some w => py_eq (snd kv) w
                     | None => false
                     end) d.

(** The strings of [keys] are pairwise distinct. *)
Fixpoint distinct (keys : list string) : bool :=
  match keys with
  | [] => true
  | k :: r => negb (existsb (String.eqb k) r) && distinct r
  end.

(** The invariant of the values Python builds: the keys of every dict, at
    any depth, are pairwise distinct. *)
Fixpoint well_formed (v : Value) : bool :=
  match v with
  | VList l | VTuple l => forallb well_formed l
  | VDict d =>
      distinct (map fst d) && forallb (fun kv => well_formed (snd kv)) d
  | _ => true
  end.

(** Some float of the value is a NaN. *)
Definition contains_nan (v : Value) : bool :=
  existsb PrimFloat.is_nan (floats_in v).

(** The value with every tuple, at any depth, replaced by the list of its
    elements. *)
Fixpoint listify (v : Value) : Value :=
  match v with
  | VList l | VTuple l => VList (map listify l)
  | VDict d => VDict (map (fun kv => (fst kv, listify (snd kv))) d)
  | _ => v
  end.

(** Every call of [f] is still running when the default deadline of 2
    seconds passes, and lets the exception of the alarm handler through. *)
Definition always_overruns (f : Func Heap) : Prop :=
  forall (h : Heap) (kwargs : list (string * Value)),
    overruns 2 (f h kwargs) /\ intercepted (f h kwargs) = None.

(** The result [r] is a timeout after 2 seconds. *)
Definition timed_out (r : TestResult) : Prop :=
  tr_passed r = false /\ tr_output r = VNone
  /\ tr_error r = Some "Timeout: execution exceeded 2 seconds".

(** How many nested calls [normalize_output] makes on a value: one for the
    value itself and, for a list, a tuple or a dict, as many more as the
    most deeply nested of its elements needs. *)
Fixpoint nesting (v : Value) : nat :=
  match v with
  | VList l | VTuple l =>
      S (fold_right (fun x n => Nat.max (nesting x) n) O l)
  | VDict d =>
      S (fold_right (fun kv n => Nat.max (nesting (snd kv)) n) O d)
  | _ => 1%nat
  end.

(** The value with [g] applied to every float, at any depth. *)
Fixpoint map_floats (g : float -> float) (v : Value) : Value :=
  match v with
  | VFloat f => VFloat (g f)
  | VList l => VList (map (map_floats g) l)
  | VTuple l => VTuple (map (map_floats g) l)
  | VDict d => VDict (map (fun kv => (fst kv, map_floats g (snd kv))) d)
  | _ => v
  end.

(** *** The comparison in the words of the specification

    Section 4.5 of the specification, on normalization: "Ordered sequences
    (including any tuple-like type) normalize to a plain ordered sequence of
    normalized elements.  Floating-point numbers round to 6 decimal digits
    before comparison.  Mappings normalize key-by-key, preserving keys,
    normalizing each value.  All other types pass through unchanged." *)
Fixpoint spec_normalize (v : Value) : Value :=
  match v with
  | VNone => VNone
  | VBool b => VBool b
  | VInt n => VInt n
  | VStr s => VStr s
  | VFloat f => VFloat (py_round f 6)
  | VList l => VList (map spec_normalize l)
  | VTuple l => VList (map spec_normalize l)
  | VDict d => VDict (map (fun kv => (fst kv, spec_normalize (snd kv))) d)
  end.

(** And on comparison: "If expected is null, actual must be null.  If both
    (after normalization) are ordered sequences, lengths must match first;
    then element-wise equality.  Otherwise, structural equality of the
    normalized values."  Equality is [==]. *)
Definition spec_comparator (actual expected : Value) : bool :=
  match expected, actual with
  | VNone, VNone => true
  | VNone, _ => false
  | VList e, VList a => Nat.eqb (length a) (length e) && all2 py_eq a e
  | _, _ => py_eq actual expected
  end.

(** Section 8: "[passed] if and only if comparator(normalize(output),
    normalize(expected)) holds". *)
Definition spec_passed (output expected : Value) : bool :=
  spec_comparator (spec_normalize output) (spec_normalize expected).

(** The record [mrs] holds the quotient of [M] by [T], truncated, and says
    where the remainder stands with respect to half of [T]. *)
Definition truncates (M T : Z) (mrs : shr_record) : Prop :=
  0 < T /\ 0 <= shr_m mrs
  /\ 0 <= M - shr_m mrs * T < T
  /\ (shr_r mrs = true <-> T <= 2 * (M - shr_m mrs * T))
  /\ (shr_s mrs = true
      <-> M - shr_m mrs * T <> 0 /\ 2 * (M - shr_m mrs * T) <> T).

(** How far the double [m * 2^e] is from the decimal [k / 10^6], in units of
    [2^-1074 / 10^6]. *)
Definition decimal_distance (m : positive) (e k : Z) : Z :=
  Z.abs (Z.pos m * 2 ^ (e + 1074) * 10 ^ 6 - k * 2 ^ 1074).

(** The largest finite double, times [10^6]. *)
Definition largest_decimal : Z := (2 ^ 53 - 1) * 2 ^ 971 * 10 ^ 6.

Ltac run_monad :=
  unfold run_single_test_try, run_single_test_except, run_single_test_finally,
    with_local, try_finally, try_except, bind, ret, raise, lift, outer, local,
    modify, gets, when, signal_alarm, time_time in *.

(** ** The double that [round] reads back

    [SFdiv] shifts the dividend until the quotient has 53 bits or more,
    truncates it and rounds it to nearest, ties to even.  The lemmas below
    follow the quotient through [shr], [round_nearest_even] and
    [binary_round_aux], for the divisor [10^6]. *)

Lemma digits2_pos_bounds (p : positive) :
  2 ^ (Z.pos (digits2_pos p) - 1) <= Z.pos p < 2 ^ Z.pos (digits2_pos p).
Proof.
  induction p as [ p IH | p IH | ]; simpl digits2_pos.
  - rewrite Pos2Z.inj_succ. change (Z.pos p~1) with (2 * Z.pos p + 1).
    replace (Z.succ (Z.pos (digits2_pos p)) - 1)
      with (Z.succ (Z.pos (digits2_pos p) - 1)) by lia.
    rewrite !Z.pow_succ_r by lia.
    set (A := 2 ^ (Z.pos (digits2_pos p) - 1)) in *.
    set (B := 2 ^ (Z.pos (digits2_pos p))) in *. lia.
  - rewrite Pos2Z.inj_succ. change (Z.pos p~0) with (2 * Z.pos p).
    replace (Z.succ (Z.pos (digits2_pos p)) - 1)
      with (Z.succ (Z.pos (digits2_pos p) - 1)) by lia.
    rewrite !Z.pow_succ_r by lia.
    set (A := 2 ^ (Z.pos (digits2_pos p) - 1)) in *.
    set (B := 2 ^ (Z.pos (digits2_pos p))) in *. lia.
  - simpl. lia.
Qed.

Lemma shr_step_truncates (M T m m' : Z) (r s b : bool) :
  m = 2 * m' + (if b then 1 else 0) -> 0 <= m' ->
  truncates M T (Build_shr_record m r s) ->
  truncates M (2 * T) (Build_shr_record m' b (r || s)).
Proof.
  unfold truncates. cbn [shr_m shr_r shr_s].
  intros Hm Hm' [HT [_ [Hd [Hr Hs]]]].
  assert (E : M - m' * (2 * T) = M - m * T + (if b then T else 0)).
  { subst m. destruct b; cbv iota; ring. }
  rewrite E. clear E Hm. set (R := M - m * T) in *. clearbody R.
  assert (Hrs : (r || s = true) <-> R <> 0).
  { rewrite orb_true_iff. split.
    - intros [H | H]; [apply Hr in H | apply Hs in H]; lia.
    - intros H. destruct (Z_le_gt_dec T (2 * R)) as [Hle | Hgt].
      + left. apply Hr. exact Hle.
      + right. apply Hs. lia. }
  split; [lia |]. split; [exact Hm' |].
  split; [destruct b; lia |].
  split.
  - destruct b; split; intros; try discriminate; try reflexivity; try lia.
  - rewrite Hrs. destruct b; split; intros; lia.
Qed.

Lemma shr_1_truncates (M T : Z) (mrs : shr_record) :
  truncates M T mrs -> truncates M (2 * T) (shr_1 mrs).
Proof.
  destruct mrs as [m r s]. intros H.
  assert (Hm : 0 <= m) by (destruct H as [_ [Hm _]]; exact Hm).
  destruct m as [ | [ p | p | ] | p ]; simpl shr_1.
  - apply (shr_step_truncates M T 0 0 r s false); [reflexivity | lia | exact H].
  - apply (shr_step_truncates M T (Z.pos p~1) (Z.pos p) r s true);
      [reflexivity | lia | exact H].
  - apply (shr_step_truncates M T (Z.pos p~0) (Z.pos p) r s false);
      [reflexivity | lia | exact H].
  - apply (shr_step_truncates M T 1 0 r s true); [reflexivity | lia | exact H].
  - lia.
Qed.

Lemma iter_pos_truncates (M : Z) (n : positive) :
  forall (T : Z) (mrs : shr_record),
    truncates M T mrs -> truncates M (T * 2 ^ Z.pos n) (iter_pos shr_1 n mrs).
Proof.
  induction n as [ n IH | n IH | ]; intros T mrs H; simpl iter_pos.
  - apply shr_1_truncates in H. apply IH in H. apply IH in H.
    replace (T * 2 ^ Z.pos n~1) with (2 * T * 2 ^ Z.pos n * 2 ^ Z.pos n);
      [exact H |].
    change (Z.pos n~1) with (2 * Z.pos n + 1).
    replace (2 * Z.pos n + 1) with (1 + Z.pos n + Z.pos n) by lia.
    rewrite !Z.pow_add_r by lia. change (2 ^ 1) with 2. ring.
  - apply IH in H. apply IH in H.
    replace (T * 2 ^ Z.pos n~0) with (T * 2 ^ Z.pos n * 2 ^ Z.pos n);
      [exact H |].
    change (Z.pos n~0) with (2 * Z.pos n).
    replace (2 * Z.pos n) with (Z.pos n + Z.pos n) by lia.
    rewrite !Z.pow_add_r by lia. ring.
  - apply shr_1_truncates in H. change (2 ^ 1) with 2.
    replace (T * 2) with (2 * T) by ring. exact H.
Qed.

Lemma shr_truncates (M T : Z) (mrs : shr_record) (e n : Z) :
  truncates M T mrs -> 0 <= n ->
  truncates M (T * 2 ^ n) (fst (shr mrs e n)) /\ snd (shr mrs e n) = e + n.
Proof.
  intros H Hn. unfold shr. destruct n as [ | n | n ]; simpl fst; simpl snd.
  - rewrite Z.mul_1_r. split; [exact H | lia].
  - split; [apply iter_pos_truncates; exact H | reflexivity].
  - lia.
Qed.

(** Where the remainder [r] of a division by an even [D] stands. *)
Lemma new_location_truncates (q r D : Z) :
  0 <= q -> 0 <= r < D -> Z.even D = true ->
  truncates (q * D + r) D (shr_record_of_loc q (new_location D r)).
Proof.
  intros Hq Hr He. unfold new_location. rewrite He. unfold new_location_even.
  unfold truncates.
  assert (E : forall m : Z, q * D + r - q * D = r) by (intros; ring).
  destruct (Z.eqb_spec r 0) as [H0 | H0].
  - cbn [shr_record_of_loc shr_m shr_r shr_s]. rewrite (E 0).
    repeat split; try lia; try discriminate.
  - destruct (Z.compare_spec (2 * r) D) as [Hc | Hc | Hc];
      cbn [shr_record_of_loc shr_m shr_r shr_s]; rewrite (E 0);
      repeat split; try lia; try discriminate; intros; lia.
Qed.

(** Rounding to the nearest integer, ties to even. *)
Lemma round_nearest_even_truncates (M T : Z) (mrs : shr_record) :
  truncates M T mrs ->
  let m := round_nearest_even (shr_m mrs) (loc_of_shr_record mrs) in
  (m = shr_m mrs \/ m = shr_m mrs + 1)
  /\ 2 * Z.abs (m * T - M) <= T
  /\ (2 * Z.abs (m * T - M) = T -> Z.even m = true).
Proof.
  destruct mrs as [m r s]. unfold truncates.
  cbn [shr_m shr_r shr_s loc_of_shr_record].
  intros [HT [Hm [Hd [Hr Hs]]]].
  assert (E : (m + 1) * T - M = T - (M - m * T)) by ring.
  assert (E0 : m * T - M = - (M - m * T)) by ring.
  set (R := M - m * T) in *. clearbody R.
  destruct r, s; cbn [round_nearest_even]; cbv zeta.
  - assert (T <= 2 * R) by (apply Hr; reflexivity).
    assert (2 * R <> T) by (apply Hs; reflexivity).
    rewrite E. repeat split; try lia.
  - assert (T <= 2 * R) by (apply Hr; reflexivity).
    assert (2 * R = T).
    { destruct (Z.eq_dec (2 * R) T) as [E1 | E1]; [exact E1 |].
      assert (false = true) by (apply Hs; lia). discriminate. }
    destruct (Z.even m) eqn:Ev.
    + rewrite E0. repeat split; try lia. intros _. exact Ev.
    + rewrite E. repeat split; try lia. intros _.
      rewrite Z.even_add, Ev. reflexivity.
  - assert (~ T <= 2 * R) by (intros H; apply Hr in H; discriminate).
    rewrite E0. repeat split; try lia.
  - assert (~ T <= 2 * R) by (intros H; apply Hr in H; discriminate).
    rewrite E0. repeat split; try lia.
Qed.

Lemma digits2_pos_unique (p : positive) (d : Z) :
  2 ^ (d - 1) <= Z.pos p < 2 ^ d -> Z.pos (digits2_pos p) = d.
Proof.
  intros [Hlo Hhi]. pose proof (digits2_pos_bounds p) as [Blo Bhi].
  assert (Hd : 0 < d).
  { destruct (Z_lt_le_dec 0 d) as [H | H]; [exact H |].
    destruct (Z.eq_dec d 0) as [-> | Hne].
    - change (2 ^ 0) with 1 in Hhi. lia.
    - rewrite (Z.pow_neg_r 2 d) in Hhi by lia. lia. }
  destruct (Z_lt_le_dec (Z.pos (digits2_pos p)) d) as [H1 | H1].
  - assert (2 ^ Z.pos (digits2_pos p) <= 2 ^ (d - 1))
      by (apply Z.pow_le_mono_r; lia).
    lia.
  - destruct (Z_lt_le_dec d (Z.pos (digits2_pos p))) as [H2 | H2]; [| lia].
    assert (2 ^ d <= 2 ^ (Z.pos (digits2_pos p) - 1))
      by (apply Z.pow_le_mono_r; lia).
    lia.
Qed.

Lemma shr_record_of_loc_m (m : Z) (l : location) :
  shr_m (shr_record_of_loc m l) = m.
Proof. destruct l as [ | [ | | ] ]; reflexivity. Qed.

Lemma loc_of_shr_record_of_loc (m : Z) (l : location) :
  loc_of_shr_record (shr_record_of_loc m l) = l.
Proof. destruct l as [ | [ | | ] ]; reflexivity. Qed.

Lemma fexp_normal (e : Z) :
  -1074 <= e - 53 -> fexp prec emax e = e - 53.
Proof.
  intros H. unfold fexp, emin, prec, emax. lia.
Qed.

(** What [binary_round_aux] returns on a truncated quotient of at least 53
    bits whose exponent is not below the least one. *)
Lemma binary_round_aux_nearest (s : bool) (M T q ex : Z) (l : location) :
  truncates M T (shr_record_of_loc q l) ->
  2 ^ 52 <= q -> -1074 <= ex ->
  exists m1 n : Z,
    0 <= n
    /\ 2 ^ 52 <= m1 <= 2 ^ 53
    /\ 2 ^ 52 * (T * 2 ^ n) <= M
    /\ 2 * Z.abs (m1 * (T * 2 ^ n) - M) <= T * 2 ^ n
    /\ (2 * Z.abs (m1 * (T * 2 ^ n) - M) = T * 2 ^ n -> Z.even m1 = true)
    /\ binary_round_aux prec emax s q ex l
       = if m1 <? 2 ^ 53
         then if ex + n <=? 971 then S754_finite s (Z.to_pos m1) (ex + n)
              else S754_infinity s
         else if ex + n + 1 <=? 971
              then S754_finite s (Z.to_pos (2 ^ 52)) (ex + n + 1)
              else S754_infinity s.
Proof.
  intros Htr Hq Hex.
  assert (Hq0 : 0 < q) by (assert (0 < 2 ^ 52) by reflexivity; lia).
  destruct q as [ | qp | qp ]; try lia.
  pose proof (digits2_pos_bounds qp) as [Dlo Dhi].
  set (dq := Z.pos (digits2_pos qp)) in *.
  assert (Hdq : 53 <= dq).
  { destruct (Z_lt_le_dec dq 53) as [H | H]; [| exact H].
    assert (2 ^ dq <= 2 ^ 52) by (apply Z.pow_le_mono_r; lia). lia. }
  set (n := dq - 53).
  assert (Hn : 0 <= n) by (unfold n; lia).
  unfold binary_round_aux, shr_fexp.
  cbn [Zdigits2]. fold dq.
  rewrite (fexp_normal (dq + ex)) by lia.
  replace (dq + ex - 53 - ex) with n by (unfold n; ring).
  destruct (shr_truncates M T (shr_record_of_loc (Z.pos qp) l) ex n Htr Hn)
    as [Htr1 He1].
  destruct (shr (shr_record_of_loc (Z.pos qp) l) ex n) as [mrs1 e1].
  cbn [fst snd] in Htr1, He1. subst e1.
  pose proof (round_nearest_even_truncates M (T * 2 ^ n) mrs1 Htr1) as Hr.
  cbv zeta in Hr.
  set (m1 := round_nearest_even (shr_m mrs1) (loc_of_shr_record mrs1)) in *.
  destruct Hr as [Hm1 [Hnear Htie]].
  (* the truncated mantissa has 53 bits *)
  assert (Hmf : 2 ^ 52 <= shr_m mrs1 < 2 ^ 53).
  { destruct Htr as [HT [_ [Hd _]]]. rewrite shr_record_of_loc_m in Hd.
    destruct Htr1 as [HT1 [Hm0 [Hd1 _]]].
    assert (E52 : 2 ^ (dq - 1) = 2 ^ 52 * 2 ^ n).
    { rewrite <- Z.pow_add_r by lia. f_equal. unfold n. ring. }
    assert (E53 : 2 ^ dq = 2 ^ 53 * 2 ^ n).
    { rewrite <- Z.pow_add_r by lia. f_equal. unfold n. ring. }
    rewrite E52 in Dlo. rewrite E53 in Dhi.
    assert (HP : 0 < 2 ^ n) by (apply Z.pow_pos_nonneg; lia).
    set (P := 2 ^ n) in *. clearbody P.
    set (mf := shr_m mrs1) in *. clearbody mf.
    set (A := 2 ^ 52) in *. set (B := 2 ^ 53) in *.
    clearbody A B. clear - HT Hd Hd1 Dlo Dhi HP. split.
    - assert (A * (T * P) < (mf + 1) * (T * P)) by nia.
      assert (0 < T * P) by nia.
      assert (A < mf + 1) by (apply (Z.mul_lt_mono_pos_r (T * P)); assumption).
      lia.
    - assert (mf * (T * P) < B * (T * P)) by nia.
      assert (0 < T * P) by nia.
      apply (Z.mul_lt_mono_pos_r (T * P)); assumption. }
  exists m1, n.
  split; [exact Hn |].
  assert (Hm1b : 2 ^ 52 <= m1 <= 2 ^ 53) by lia.
  split; [exact Hm1b |].
  split.
  { destruct Htr1 as [HT1 [_ [Hd1 _]]].
    assert (2 ^ 52 * (T * 2 ^ n) <= shr_m mrs1 * (T * 2 ^ n))
      by (apply Z.mul_le_mono_nonneg_r; lia).
    lia. }
  split; [exact Hnear |]. split; [exact Htie |].
  destruct (Z.ltb_spec m1 (2 ^ 53)) as [Hlt | Hge].
  - assert (Hd1 : Zdigits2 m1 = 53).
    { destruct m1 as [ | p1 | p1 ]; try (assert (0 < 2 ^ 52) by reflexivity; lia).
      cbn [Zdigits2]. apply digits2_pos_unique. change (53 - 1) with 52. lia. }
    rewrite Hd1. rewrite (fexp_normal (53 + (ex + n))) by lia.
    replace (53 + (ex + n) - 53 - (ex + n)) with 0 by ring.
    cbn [shr shr_record_of_loc shr_m].
    destruct m1 as [ | p1 | p1 ]; try (assert (0 < 2 ^ 52) by reflexivity; lia).
    unfold prec, emax. change (1024 - 53) with 971. reflexivity.
  - assert (Em : m1 = 2 ^ 53) by lia. rewrite Em.
    change (Zdigits2 (2 ^ 53)) with 54.
    rewrite (fexp_normal (54 + (ex + n))) by lia.
    replace (54 + (ex + n) - 53 - (ex + n)) with 1 by ring.
    cbn [shr]. unfold prec, emax. change (1024 - 53) with 971.
    change (shr_m (iter_pos shr_1 1 (shr_record_of_loc (2 ^ 53) loc_Exact)))
      with (2 ^ 52).
    change (2 ^ 52) with (Z.pos (Z.to_pos (2 ^ 52))) at 1.
    cbv iota beta. reflexivity.
Qed.

Lemma div_eucl_div_mod (a b : Z) : Z.div_eucl a b = (a / b, a mod b).
Proof.
  unfold Z.div, Z.modulo. destruct (Z.div_eucl a b) as [q r]. reflexivity.
Qed.

(** The division of the integer [p] by [10^6] as [SFdiv] carries it out:
    [p] is shifted so that the quotient has at least 53 bits. *)
Lemma SFdiv_decimal (s : bool) (p : positive) :
  let sft := - Z.min (Z.pos (digits2_pos p) - 73) 0 in
  let M := Z.pos p * 2 ^ sft in
  SFdiv prec emax (S754_finite s p 0) (S754_finite false 1000000 0)
  = binary_round_aux prec emax s (M / 1000000) (- sft)
      (new_location 1000000 (M mod 1000000)).
Proof.
  cbv zeta. unfold SFdiv, SFdiv_core_binary. cbn [Zdigits2].
  change (Z.pos (digits2_pos 1000000)) with 20.
  set (d1 := Z.pos (digits2_pos p)).
  assert (Hd1 : 0 < d1) by (unfold d1; lia).
  replace (d1 + 0 - (20 + 0)) with (d1 - 20) by ring.
  rewrite (fexp_normal (d1 - 20)) by lia.
  replace (d1 - 20 - 53) with (d1 - 73) by ring.
  change (0 - 0) with 0.
  replace (0 - Z.min (d1 - 73) 0) with (- Z.min (d1 - 73) 0) by ring.
  rewrite Z.opp_involutive.
  set (sft := - Z.min (d1 - 73) 0).
  assert (Hs : 0 <= sft) by (unfold sft; lia).
  assert (Em : match sft with
               | 0 => Z.pos p
               | Z.pos _ => Z.shiftl (Z.pos p) sft
               | Z.neg _ => 0
               end = Z.pos p * 2 ^ sft).
  { destruct sft as [ | q | q ].
    - change (2 ^ 0) with 1. ring.
    - apply Z.shiftl_mul_pow2. lia.
    - lia. }
  rewrite Em, div_eucl_div_mod. destruct s; reflexivity.
Qed.

Lemma nearest_multiple (m1 mm T M : Z) :
  0 < T -> 2 * Z.abs (m1 * T - M) <= T ->
  Z.abs (m1 * T - M) <= Z.abs (mm * T - M).
Proof.
  intros HT H.
  destruct (Z.eq_dec mm m1) as [-> | Hne]; [lia |].
  assert (E : mm * T - M = (mm - m1) * T + (m1 * T - M)) by ring.
  rewrite E. set (R := m1 * T - M) in *. clearbody R.
  destruct (Z_lt_le_dec mm m1) as [Hlt | Hge].
  - assert ((mm - m1) * T <= (- 1) * T)
      by (apply Z.mul_le_mono_nonneg_r; lia).
    set (X := (mm - m1) * T) in *. clearbody X. lia.
  - assert (1 * T <= (mm - m1) * T)
      by (apply Z.mul_le_mono_nonneg_r; lia).
    set (X := (mm - m1) * T) in *. clearbody X. lia.
Qed.

(** What a valid mantissa and exponent satisfy. *)
Lemma bounded_facts (m : positive) (e : Z) :
  bounded prec emax m e = true ->
  -1074 <= e <= 971 /\ Z.pos m < 2 ^ 53
  /\ (-1074 < e -> 2 ^ 52 <= Z.pos m).
Proof.
  unfold bounded, canonical_mantissa, fexp, emin, prec, emax.
  rewrite andb_true_iff, Z.eqb_eq, Z.leb_le.
  change (3 - 1024 - 53) with (-1074). change (1024 - 53) with 971.
  intros [Hc He].
  pose proof (digits2_pos_bounds m) as [Blo Bhi].
  set (d := Z.pos (digits2_pos m)) in *.
  assert (Hd : d <= 53) by lia.
  split; [lia |]. split.
  - assert (2 ^ d <= 2 ^ 53) by (apply Z.pow_le_mono_r; lia). lia.
  - intros Hn. assert (E : d = 53) by lia. rewrite E in Blo.
    exact Blo.
Qed.

Lemma bounded_53_bits (m : positive) (e : Z) :
  2 ^ 52 <= Z.pos m < 2 ^ 53 -> -1074 <= e <= 971 ->
  bounded prec emax m e = true.
Proof.
  intros Hm He. unfold bounded, canonical_mantissa.
  rewrite (digits2_pos_unique m 53) by exact Hm.
  rewrite fexp_normal by lia.
  unfold prec, emax. rewrite andb_true_iff, Z.eqb_eq, Z.leb_le. lia.
Qed.

Lemma abs_mul_pos (a s : Z) : 0 < s -> Z.abs a * s = Z.abs (a * s).
Proof. intros H. rewrite Z.abs_mul, (Z.abs_eq s) by lia. reflexivity. Qed.

Lemma nearest_multiple_tie (m1 mm T M : Z) :
  0 < T -> 2 * Z.abs (m1 * T - M) <= T ->
  Z.abs (m1 * T - M) = Z.abs (mm * T - M) ->
  mm = m1 \/ 2 * Z.abs (m1 * T - M) = T.
Proof.
  intros HT H Heq.
  destruct (Z.eq_dec mm m1) as [-> | Hne]; [left; reflexivity | right].
  assert (E : mm * T - M = (mm - m1) * T + (m1 * T - M)) by ring.
  rewrite E in Heq. set (R := m1 * T - M) in *. clearbody R.
  destruct (Z_lt_le_dec mm m1) as [Hlt | Hge].
  - assert ((mm - m1) * T <= (- 1) * T)
      by (apply Z.mul_le_mono_nonneg_r; lia).
    set (X := (mm - m1) * T) in *. clearbody X. lia.
  - assert (1 * T <= (mm - m1) * T)
      by (apply Z.mul_le_mono_nonneg_r; lia).
    set (X := (mm - m1) * T) in *. clearbody X. lia.
Qed.

Lemma nearest_among_doubles (k sft n m1 : Z) (m2 : positive) (e2 : Z) :
  0 <= sft -> 0 <= n -> -1074 <= n - sft ->
  2 ^ 52 * (1000000 * 2 ^ n) <= k * 2 ^ sft ->
  2 * Z.abs (m1 * (1000000 * 2 ^ n) - k * 2 ^ sft) <= 1000000 * 2 ^ n ->
  (2 * Z.abs (m1 * (1000000 * 2 ^ n) - k * 2 ^ sft) = 1000000 * 2 ^ n ->
   Z.even m1 = true) ->
  2 ^ 52 <= m1 ->
  bounded prec emax m2 e2 = true ->
  Z.abs (m1 * 2 ^ (n - sft + 1074) * 10 ^ 6 - k * 2 ^ 1074)
  <= decimal_distance m2 e2 k
  /\ (Z.abs (m1 * 2 ^ (n - sft + 1074) * 10 ^ 6 - k * 2 ^ 1074)
      = decimal_distance m2 e2 k ->
      Z.pos m2 * 2 ^ (e2 + 1074) = m1 * 2 ^ (n - sft + 1074)
      \/ Z.even m1 = true).
Proof.
  intros Hs Hn He1 Hlow Hnear Htie Hm1 Hb. unfold decimal_distance.
  destruct (bounded_facts m2 e2 Hb) as [He2 [Hm2 _]].
  change (10 ^ 6) with 1000000.
  assert (HS : 0 < 2 ^ sft) by (apply Z.pow_pos_nonneg; lia).
  assert (HW : 0 < 2 ^ 1074) by (apply Z.pow_pos_nonneg; lia).
  assert (HN : 0 < 2 ^ n) by (apply Z.pow_pos_nonneg; lia).
  set (a := m1 * 2 ^ (n - sft + 1074) * 1000000 - k * 2 ^ 1074).
  set (b := Z.pos m2 * 2 ^ (e2 + 1074) * 1000000 - k * 2 ^ 1074).
  set (G := 1000000 * 2 ^ n * 2 ^ 1074).
  set (X := k * 2 ^ sft * 2 ^ 1074).
  assert (E1 : 2 ^ (n - sft + 1074) * 2 ^ sft = 2 ^ n * 2 ^ 1074).
  { rewrite <- !Z.pow_add_r by lia. f_equal. ring. }
  assert (Ea : a * 2 ^ sft = m1 * G - X).
  { transitivity (m1 * (2 ^ (n - sft + 1074) * 2 ^ sft) * 1000000
                  - k * 2 ^ sft * 2 ^ 1074); [unfold a; ring |].
    rewrite E1. unfold G, X. ring. }
  assert (Hscale : Z.abs (a * 2 ^ sft) <= Z.abs (b * 2 ^ sft)
                   /\ (Z.abs (a * 2 ^ sft) = Z.abs (b * 2 ^ sft) ->
                       Z.pos m2 * 2 ^ (e2 + 1074)
                       = m1 * 2 ^ (n - sft + 1074)
                       \/ Z.even m1 = true)).
  { rewrite Ea.
    assert (HG : 0 < G) by (unfold G; nia).
    assert (EGX : Z.abs (m1 * G - X)
                  = Z.abs (m1 * (1000000 * 2 ^ n) - k * 2 ^ sft) * 2 ^ 1074).
    { rewrite abs_mul_pos by exact HW. f_equal. unfold G, X. ring. }
    assert (HGX : 2 * Z.abs (m1 * G - X) <= G).
    { rewrite EGX. unfold G. rewrite Z.mul_assoc.
      apply Z.mul_le_mono_nonneg_r; [lia | exact Hnear]. }
    assert (HtieG : 2 * Z.abs (m1 * G - X) = G -> Z.even m1 = true).
    { intros H. apply Htie. rewrite EGX in H. unfold G in H.
      rewrite Z.mul_assoc in H.
      apply Z.mul_cancel_r in H; [exact H | lia]. }
    assert (HlowG : 2 ^ 52 * G <= X).
    { replace (2 ^ 52 * G) with (2 ^ 52 * (1000000 * 2 ^ n) * 2 ^ 1074)
        by (unfold G; ring).
      unfold X. apply Z.mul_le_mono_nonneg_r; [lia | exact Hlow]. }
    destruct (Z_le_gt_dec (n - sft) e2) as [Hle | Hgt].
    - (* the other double lies on the grid of the result *)
      assert (E2 : 2 ^ (e2 + 1074)
                   = 2 ^ (e2 - (n - sft)) * 2 ^ (n - sft + 1074)).
      { rewrite <- !Z.pow_add_r by lia. f_equal. ring. }
      assert (Eb : b * 2 ^ sft = Z.pos m2 * 2 ^ (e2 - (n - sft)) * G - X).
      { unfold b. rewrite E2.
        transitivity (Z.pos m2 * 2 ^ (e2 - (n - sft))
                      * (2 ^ (n - sft + 1074) * 2 ^ sft) * 1000000
                      - k * 2 ^ sft * 2 ^ 1074); [ring |].
        rewrite E1. unfold G, X. ring. }
      rewrite Eb. split.
      + apply nearest_multiple; assumption.
      + intros Heq.
        destruct (nearest_multiple_tie m1 _ G X HG HGX Heq) as [Hmm | Ht].
        * left. rewrite E2, Z.mul_assoc, Hmm. reflexivity.
        * right. apply HtieG. exact Ht.
    - (* the other double is below the binade of the result *)
      set (Y := Z.pos m2 * 2 ^ (e2 + 1074) * 1000000 * 2 ^ sft).
      replace (b * 2 ^ sft) with (Y - X) by (unfold b, Y, X; ring).
      assert (HY : Y < 2 ^ 52 * G).
      { assert (E3 : 2 ^ 53 * (2 ^ (e2 + 1074) * 2 ^ sft)
                     <= 2 ^ 52 * (2 ^ n * 2 ^ 1074)).
        { rewrite <- !Z.pow_add_r by lia. apply Z.pow_le_mono_r; lia. }
        assert (0 < 2 ^ (e2 + 1074)) by (apply Z.pow_pos_nonneg; lia).
        assert (HP : 0 < 2 ^ (e2 + 1074) * 2 ^ sft) by nia.
        assert (E4 : Z.pos m2 * (2 ^ (e2 + 1074) * 2 ^ sft)
                     < 2 ^ 53 * (2 ^ (e2 + 1074) * 2 ^ sft))
          by (apply Z.mul_lt_mono_pos_r; assumption).
        replace Y with (Z.pos m2 * (2 ^ (e2 + 1074) * 2 ^ sft) * 1000000)
          by (unfold Y; ring).
        replace (2 ^ 52 * G) with (2 ^ 52 * (2 ^ n * 2 ^ 1074) * 1000000)
          by (unfold G; ring).
        apply Z.mul_lt_mono_pos_r; lia. }
      assert (Hm1G : 2 ^ 52 * G <= m1 * G)
        by (apply Z.mul_le_mono_nonneg_r; lia).
      assert (Hm1G' : 2 ^ 52 < m1 -> (2 ^ 52 + 1) * G <= m1 * G)
        by (intros; apply Z.mul_le_mono_nonneg_r; lia).
      change (2 ^ 52) with 4503599627370496 in *.
      assert (Hm1eq : m1 = 4503599627370496
                      -> m1 * G = 4503599627370496 * G)
        by (intros ->; reflexivity).
      set (Z1 := m1 * G) in *.
      clearbody Z1 Y X G. clear - HG HGX HlowG HY Hm1G Hm1G' Hm1 Hm1eq.
      destruct (Z_le_gt_dec m1 4503599627370496) as [Hm | Hm].
      + assert (Z1 = 4503599627370496 * G) by (apply Hm1eq; lia).
        split; [lia | intros; exfalso; lia].
      + assert ((4503599627370496 + 1) * G <= Z1) by (apply Hm1G'; lia).
        split; [lia | intros; exfalso; lia]. }
  destruct Hscale as [Hle Heq].
  rewrite <- !abs_mul_pos in Hle, Heq by exact HS. split.
  - apply (Z.mul_le_mono_pos_r _ _ (2 ^ sft) HS). exact Hle.
  - intros H. apply Heq. rewrite H. reflexivity.
Qed.

(** Reading back the decimal [k / 10^6] gives the double nearest to it. *)
Lemma float_of_decimal_nearest (s : bool) (k : Z) :
  0 < k <= largest_decimal ->
  exists (m' : positive) (e' : Z),
    Prim2SF (float_of_decimal s k 6) = S754_finite s m' e'
    /\ bounded prec emax m' e' = true
    /\ forall (m2 : positive) (e2 : Z),
         bounded prec emax m2 e2 = true ->
         decimal_distance m' e' k <= decimal_distance m2 e2 k
         /\ (decimal_distance m' e' k = decimal_distance m2 e2 k ->
             Z.pos m2 * 2 ^ (e2 + 1074) = Z.pos m' * 2 ^ (e' + 1074)
             \/ Z.even (Z.pos m') = true).
Proof.
  intros [Hk0 Hk]. destruct k as [ | p | p ]; try lia.
  unfold float_of_decimal. change (Z.to_pos (10 ^ 6)) with 1000000%positive.
  rewrite SFdiv_decimal. cbv zeta.
  pose proof (digits2_pos_bounds p) as [Blo Bhi].
  set (d1 := Z.pos (digits2_pos p)) in *.
  assert (Hd1 : 0 < d1) by (unfold d1; lia).
  set (sft := - Z.min (d1 - 73) 0).
  assert (Hs : 0 <= sft <= 72) by (unfold sft; lia).
  set (M := Z.pos p * 2 ^ sft).
  assert (HS : 0 < 2 ^ sft) by (apply Z.pow_pos_nonneg; lia).
  assert (HM : 2 ^ 72 <= M).
  { unfold M. destruct (Z_le_gt_dec d1 73) as [Hle | Hgt].
    - replace 72 with (d1 - 1 + sft) by (unfold sft; lia).
      rewrite Z.pow_add_r by lia.
      apply Z.mul_le_mono_nonneg_r; lia.
    - replace sft with 0 by (unfold sft; lia). change (2 ^ 0) with 1.
      assert (2 ^ 72 <= 2 ^ (d1 - 1)) by (apply Z.pow_le_mono_r; lia).
      lia. }
  assert (Hq : 2 ^ 52 <= M / 1000000).
  { transitivity (2 ^ 72 / 1000000).
    - vm_compute. discriminate.
    - apply Z.div_le_mono; [lia | exact HM]. }
  assert (Htr : truncates M 1000000
                  (shr_record_of_loc (M / 1000000)
                     (new_location 1000000 (M mod 1000000)))).
  { pose proof (new_location_truncates (M / 1000000) (M mod 1000000) 1000000)
      as H.
    replace (M / 1000000 * 1000000 + M mod 1000000) with M in H.
    - apply H.
      + assert (0 < 2 ^ 52) by reflexivity. lia.
      + apply Z.mod_pos_bound. lia.
      + reflexivity.
    - rewrite (Z.div_mod M 1000000) at 1 by lia. ring. }
  destruct (binary_round_aux_nearest s M 1000000 (M / 1000000) (- sft) _
              Htr Hq ltac:(lia))
    as [m1 [n [Hn [Hm1 [Hlow [Hnear [Htie Hres]]]]]]].
  rewrite Hres. clear Hres.
  assert (HN : 0 < 2 ^ n) by (apply Z.pow_pos_nonneg; lia).
  (* the quotient is within the range of the doubles *)
  assert (Hov1 : - sft + n <= 971).
  { destruct (Z_le_gt_dec (- sft + n) 971) as [H | H]; [exact H | exfalso].
    assert (Hp : 2 ^ (972 + sft) <= 2 ^ n) by (apply Z.pow_le_mono_r; lia).
    rewrite Z.pow_add_r in Hp by lia.
    assert (Hc : 2 ^ 52 * 1000000 * 2 ^ 972 * 2 ^ sft <= Z.pos p * 2 ^ sft).
    { transitivity (2 ^ 52 * (1000000 * 2 ^ n)); [| exact Hlow].
      replace (2 ^ 52 * 1000000 * 2 ^ 972 * 2 ^ sft)
        with (2 ^ 52 * (1000000 * (2 ^ 972 * 2 ^ sft))) by ring.
      apply Z.mul_le_mono_nonneg_l; [vm_compute; discriminate |].
      apply Z.mul_le_mono_nonneg_l; [lia | exact Hp]. }
    apply Z.mul_le_mono_pos_r in Hc; [| exact HS].
    assert (Hlt : largest_decimal < 2 ^ 52 * 1000000 * 2 ^ 972)
      by (vm_compute; reflexivity).
    set (C := 2 ^ 52 * 1000000 * 2 ^ 972) in *. clearbody C.
    set (L := largest_decimal) in *. clearbody L. lia. }
  assert (Hov2 : m1 = 2 ^ 53 -> - sft + n + 1 <= 971).
  { intros Em.
    destruct (Z_le_gt_dec (- sft + n + 1) 971) as [H | H]; [exact H | exfalso].
    assert (En : n = 971 + sft) by lia.
    rewrite Em, En, Z.pow_add_r in Hnear by lia.
    fold M in Hnear.
    assert (Hc : (2 ^ 54 - 1) * 1000000 * 2 ^ 971 * 2 ^ sft
                 <= 2 * Z.pos p * 2 ^ sft).
    { replace (2 * Z.pos p * 2 ^ sft) with (2 * M) by (unfold M; ring).
      replace ((2 ^ 54 - 1) * 1000000 * 2 ^ 971 * 2 ^ sft)
        with (2 * (2 ^ 53 * (1000000 * (2 ^ 971 * 2 ^ sft)))
              - 1000000 * (2 ^ 971 * 2 ^ sft))
        by (change (2 ^ 54) with (2 * 2 ^ 53); ring).
      set (A := 2 ^ 53 * (1000000 * (2 ^ 971 * 2 ^ sft))) in *.
      set (B := 1000000 * (2 ^ 971 * 2 ^ sft)) in *.
      clearbody A B. clearbody M. lia. }
    apply Z.mul_le_mono_pos_r in Hc; [| exact HS].
    assert (Hlt : 2 * largest_decimal < (2 ^ 54 - 1) * 1000000 * 2 ^ 971)
      by (vm_compute; reflexivity).
    set (C := (2 ^ 54 - 1) * 1000000 * 2 ^ 971) in *. clearbody C.
    set (L := largest_decimal) in *. clearbody L. lia. }
  assert (Hnearest : forall (m2 : positive) (e2 : Z),
             bounded prec emax m2 e2 = true ->
             Z.abs (m1 * 2 ^ (n - sft + 1074) * 10 ^ 6 - Z.pos p * 2 ^ 1074)
             <= decimal_distance m2 e2 (Z.pos p)
             /\ (Z.abs (m1 * 2 ^ (n - sft + 1074) * 10 ^ 6
                        - Z.pos p * 2 ^ 1074)
                 = decimal_distance m2 e2 (Z.pos p) ->
                 Z.pos m2 * 2 ^ (e2 + 1074) = m1 * 2 ^ (n - sft + 1074)
                 \/ Z.even m1 = true)).
  { intros m2 e2 Hb.
    apply (nearest_among_doubles (Z.pos p) sft n m1 m2 e2); try lia;
      assumption. }
  assert (H52 : 0 < 2 ^ 52) by reflexivity.
  destruct (Z.ltb_spec m1 (2 ^ 53)) as [Hlt | Hge].
  - destruct (Z.leb_spec (- sft + n) 971) as [_ | H]; [| lia].
    assert (Hb : bounded prec emax (Z.to_pos m1) (- sft + n) = true).
    { apply bounded_53_bits; [rewrite Z2Pos.id by lia; lia | lia]. }
    exists (Z.to_pos m1), (- sft + n).
    split; [apply Prim2SF_SF2Prim; exact Hb |].
    split; [exact Hb |].
    intros m2 e2 Hb2. unfold decimal_distance at 1 3.
    rewrite Z2Pos.id by lia.
    replace (- sft + n + 1074) with (n - sft + 1074) by ring.
    apply Hnearest. exact Hb2.
  - assert (Em : m1 = 2 ^ 53) by lia.
    destruct (Z.leb_spec (- sft + n + 1) 971) as [_ | H];
      [| specialize (Hov2 Em); lia].
    specialize (Hov2 Em).
    assert (Hb : bounded prec emax (Z.to_pos (2 ^ 52)) (- sft + n + 1) = true).
    { apply bounded_53_bits; [vm_compute; split; [discriminate | reflexivity]
                             | lia]. }
    exists (Z.to_pos (2 ^ 52)), (- sft + n + 1).
    split; [apply Prim2SF_SF2Prim; exact Hb |].
    split; [exact Hb |].
    intros m2 e2 Hb2. unfold decimal_distance at 1 3.
    replace (Z.pos (Z.to_pos (2 ^ 52)) * 2 ^ (- sft + n + 1 + 1074))
      with (m1 * 2 ^ (n - sft + 1074)).
    + destruct (Hnearest m2 e2 Hb2) as [Hle Heq].
      split; [exact Hle |]. intros H. right. reflexivity.
    + rewrite Em.
      replace (- sft + n + 1 + 1074) with (1 + (n - sft + 1074)) by ring.
      rewrite (Z.pow_add_r 2 1 (n - sft + 1074)) by lia.
      change (Z.pos (Z.to_pos (2 ^ 52))) with (2 ^ 52).
      change (2 ^ 53) with (2 ^ 52 * 2 ^ 1). ring.
Qed.

Lemma round_half_even_facts (n d : Z) :
  0 <= n -> 0 < d ->
  0 <= round_half_even n d <= n / d + 1
  /\ 2 * Z.abs (round_half_even n d * d - n) <= d
  /\ (2 * Z.abs (round_half_even n d * d - n) = d ->
      Z.even (round_half_even n d) = true).
Proof.
  intros Hn Hd. unfold round_half_even.
  pose proof (Z.div_mod n d ltac:(lia)) as Hdm.
  pose proof (Z.mod_pos_bound n d Hd) as Hr.
  assert (Hq : 0 <= n / d) by (apply Z.div_pos; lia).
  set (q := n / d) in *. set (r := n mod d) in *. clearbody q r.
  assert (E0 : q * d - n = - r) by lia.
  assert (E1 : (q + 1) * d - n = d - r) by lia.
  destruct (Z.compare_spec (2 * r) d) as [Heq | Hlt | Hgt].
  - destruct (Z.even q) eqn:Ev.
    + rewrite E0. repeat split; try lia. intros _. exact Ev.
    + rewrite E1. repeat split; try lia. intros _.
      rewrite Z.even_add, Ev. reflexivity.
  - rewrite E0. repeat split; try lia.
  - rewrite E1. repeat split; try lia.
Qed.

(** The digits [round] keeps of a double are those of a finite double. *)
Lemma scaled_digits_bounds (m : positive) (e : Z) :
  bounded prec emax m e = true ->
  0 <= scaled_digits m e 6 <= largest_decimal.
Proof.
  intros Hb. destruct (bounded_facts m e Hb) as [He [Hm _]].
  unfold scaled_digits, largest_decimal.
  destruct (Z.leb_spec 0 e) as [H0 | H0].
  - assert (Hp : 0 < 2 ^ e) by (apply Z.pow_pos_nonneg; lia).
    assert (Hp' : 2 ^ e <= 2 ^ 971) by (apply Z.pow_le_mono_r; lia).
    split; [change (10 ^ 6) with 1000000; nia |].
    apply Z.mul_le_mono_nonneg_r; [vm_compute; discriminate |].
    transitivity ((2 ^ 53 - 1) * 2 ^ e).
    + apply Z.mul_le_mono_nonneg_r; lia.
    + apply Z.mul_le_mono_nonneg_l; [vm_compute; discriminate | exact Hp'].
  - assert (Hd : 0 < 2 ^ (- e)) by (apply Z.pow_pos_nonneg; lia).
    change (10 ^ 6) with 1000000.
    destruct (round_half_even_facts (Z.pos m * 1000000) (2 ^ (- e))
                ltac:(lia) Hd) as [[Hlo Hhi] _].
    split; [exact Hlo |].
    assert (Hdiv : Z.pos m * 1000000 / 2 ^ (- e) <= Z.pos m * 1000000).
    { apply Z.div_le_upper_bound; [exact Hd |].
      set (P := 2 ^ (- e)) in *. clearbody P. nia. }
    assert (Hc : 2 ^ 53 * 1000000 <= (2 ^ 53 - 1) * 2 ^ 971 * 1000000)
      by (vm_compute; discriminate).
    set (C := (2 ^ 53 - 1) * 2 ^ 971 * 1000000) in *. clearbody C.
    set (K := round_half_even (Z.pos m * 1000000) (2 ^ (- e))) in *.
    set (Q := Z.pos m * 1000000 / 2 ^ (- e)) in *. clearbody K Q.
    change (2 ^ 53) with 9007199254740992 in *. lia.
Qed.

Lemma scaled_digits_ties_to_even (m : positive) (e : Z) :
  let (n, d) := scaled_fraction m e 6 in
  0 < d /\ 2 * Z.abs (scaled_digits m e 6 * d - n) <= d
  /\ (2 * Z.abs (scaled_digits m e 6 * d - n) = d ->
      Z.even (scaled_digits m e 6) = true).
Proof.
  unfold scaled_fraction, scaled_digits.
  destruct (Z.leb_spec 0 e) as [He | He].
  - rewrite (Z.max_r 0 e) by lia. rewrite (Z.max_l 0 (- e)) by lia.
    change (2 ^ 0) with 1. split; [lia |]. rewrite Z.mul_1_r, Z.sub_diag.
    change (Z.abs 0) with 0. split; [lia | intros H; lia].
  - rewrite (Z.max_l 0 e) by lia. rewrite (Z.max_r 0 (- e)) by lia.
    change (2 ^ 0) with 1. rewrite Z.mul_1_r.
    assert (Hd : 0 < 2 ^ (- e)) by (apply Z.pow_pos_nonneg; lia).
    split; [exact Hd |].
    apply round_half_even_facts; [| exact Hd].
    change (10 ^ 6) with 1000000. lia.
Qed.

(** [round(f, 6)] of a finite double: the digits kept are the integer
    nearest to [|f| * 10^6], and the result is the double nearest to these
    digits over [10^6], with the sign of [f]; ties go to the even one. *)
Lemma py_round_nearest_double (f : float) :
  match Prim2SF f with
  | S754_finite s m e =>
      let k := scaled_digits m e 6 in
      0 <= k
      /\ match k with
         | 0 => Prim2SF (py_round f 6) = S754_zero s
         | _ =>
             exists (m' : positive) (e' : Z),
               Prim2SF (py_round f 6) = S754_finite s m' e'
               /\ bounded prec emax m' e' = true
               /\ forall (m2 : positive) (e2 : Z),
                    bounded prec emax m2 e2 = true ->
                    decimal_distance m' e' k <= decimal_distance m2 e2 k
                    /\ (decimal_distance m' e' k = decimal_distance m2 e2 k ->
                        Z.pos m2 * 2 ^ (e2 + 1074)
                        = Z.pos m' * 2 ^ (e' + 1074)
                        \/ Z.even (Z.pos m') = true)
         end
  | _ => py_round f 6 = f
  end.
Proof.
  pose proof (Prim2SF_valid f) as Hv. unfold py_round.
  destruct (Prim2SF f) as [ | | | s m e ]; try reflexivity.
  cbn [valid_binary] in Hv. cbv zeta.
  destruct (scaled_digits_bounds m e Hv) as [Hlo Hhi].
  split; [exact Hlo |].
  destruct (scaled_digits m e 6) as [ | p | p ] eqn:Ek.
  - apply Prim2SF_SF2Prim. reflexivity.
  - apply float_of_decimal_nearest. lia.
  - lia.
Qed.

Lemma floats_in_normalize (v : Value) :
  floats_in (normalize_output v) = map (fun f => py_round f 6) (floats_in v).
Proof.
  induction v as [ | b | n | f | s | l IH | l IH | d IH ] using Value_nested_ind;
    try reflexivity.
  - simpl. induction IH as [ | x r Hx _ IHr ]; simpl; [reflexivity |].
    rewrite map_app, Hx, IHr. reflexivity.
  - simpl. induction IH as [ | x r Hx _ IHr ]; simpl; [reflexivity |].
    rewrite map_app, Hx, IHr. reflexivity.
  - simpl. induction IH as [ | kv r Hx _ IHr ]; simpl; [reflexivity |].
    rewrite map_app, Hx, IHr. reflexivity.
Qed.

Lemma is_None_normalize (v : Value) : is_None (normalize_output v) = is_None v.
Proof. destruct v; reflexivity. Qed.

Lemma is_None_true (v : Value) : is_None v = true <-> v = VNone.
Proof. destruct v; simpl; split; intros H; congruence. Qed.

Lemma run_single_test_dict (func : Obj Heap) (d : list (string * Value))
    (timeout_seconds : Z) (w : World Heap) :
  run_single_test env func (VDict d) timeout_seconds w =
  let r0 := initial_result d in
  match call_function func (input_of d) (armed timeout_seconds w) with
  | (Return v, w1) =>
      (Return (completed_result r0 v (clock w) (clock w1)), disarmed w1)
  | (Raise e, w1) =>
      if isinstance_Exception e
      then (Return (faulted_result r0 timeout_seconds e), disarmed w1)
      else (Raise e, disarmed w1)
  | (Hang, w1) => (Hang, w1)
  end.
Proof.
  unfold run_single_test, armed, disarmed, faulted_result, completed_result,
    initial_result, id_of, input_of, expected_of, explanation_of.
  run_monad. simpl.
  destruct (has_SIGALRM env); simpl;
    match goal with
    | |- context [call_function ?f ?i ?x] =>
        destruct (call_function f i x) as [[v | e | ] w1]
    end; simpl; try reflexivity;
    unfold isinstance_TimeoutError, isinstance_Exception;
    destruct (exc_kind e); reflexivity.
Qed.

Lemma run_single_test_not_dict (func : Obj Heap) (test_case : Value)
    (timeout_seconds : Z) (w : World Heap) :
  (forall d, test_case <> VDict d) ->
  exists e, run_single_test env func test_case timeout_seconds w = (Raise e, w)
            /\ isinstance_Exception e = true.
Proof.
  intros Hnd. unfold run_single_test. run_monad.
  destruct test_case; simpl; try (eexists; split; reflexivity).
  exfalso. eapply Hnd. reflexivity.
Qed.

(** The faults [call_function] lets out are the candidate's own, the one of
    [timeout_handler], or the TypeError of a call that cannot be made. *)
Lemma timeout_handler_is_Exception :
  forall (A : Type) (e : Exc),
    @timeout_handler A = Raise e ->
    isinstance_TimeoutError e = true /\ isinstance_Exception e = true.
Proof. intros A e H. inversion H. split; reflexivity. Qed.

(** With an alarm armed the call always comes back. *)
Lemma call_function_armed_returns (func : Obj Heap) (kwargs : Value)
    (w : World Heap) (t : Z) :
  pending_alarm w = Some t ->
  comes_back_when_interrupted func ->
  fst (call_function func kwargs w) <> Hang.
Proof.
  intros Hp Hcb. unfold call_function, alarm_fires, timeout_handler. rewrite Hp.
  destruct kwargs; try (simpl; discriminate).
  destruct func as [ | f ]; [simpl; discriminate |].
  simpl in Hcb. specialize (Hcb (heap w) d).
  assert (Hint : fst (match intercepted (f (heap w) d) with
                      | Some fin =>
                          come_back fin
                            (mkWorld None (clock w + clock_advance (f (heap w) d))
                               (heap_after (f (heap w) d)))
                      | None =>
                          (Raise (TimeoutError "Test execution timed out"),
                           mkWorld None (clock w + clock_advance (f (heap w) d))
                             (heap_after (f (heap w) d)))
                      end) <> @Hang Value).
  { destruct (intercepted (f (heap w) d)) as [[v | e | ] | ];
      simpl; try discriminate. exfalso. apply Hcb. reflexivity. }
  destruct (finish (f (heap w) d)) eqn:Hf.
  - destruct (t * 10 ^ 9 <=? duration_ns (f (heap w) d));
      [exact Hint | simpl; discriminate].
  - destruct (t * 10 ^ 9 <=? duration_ns (f (heap w) d));
      [exact Hint | simpl; discriminate].
  - exact Hint.
Qed.

(** A call never leaves an alarm pending that was not pending before. *)
Lemma call_function_alarm (func : Obj Heap) (kwargs : Value) (w : World Heap) :
  pending_alarm w = None ->
  pending_alarm (snd (call_function func kwargs w)) = None.
Proof.
  intros Hp. unfold call_function, alarm_fires. rewrite Hp.
  destruct kwargs; try exact Hp.
  destruct func as [ | f ]; [exact Hp |].
  destruct (finish (f (heap w) d)); reflexivity.
Qed.


Lemma pending_alarm_disarmed (w : World Heap) :
  pending_alarm w = None \/ has_SIGALRM env = true ->
  pending_alarm (disarmed w) = None.
Proof.
  unfold disarmed. intros [H | H].
  - destruct (has_SIGALRM env); [reflexivity | exact H].
  - rewrite H. reflexivity.
Qed.

(** C2, as amended. The elapsed wall-clock time of the call, in milliseconds
    rounded to 2 digits, is recorded when the call returns normally; when the
    call raises or times out the field keeps the integer 0 it was created
    with. *)
Theorem elapsed_time_recorded_on_normal_return (func : Obj Heap)
    (d : list (string * Value)) (timeout_seconds : Z) (w : World Heap) :
  match call_function func (input_of d) (armed timeout_seconds w) with
  | (Return v, w1) =>
      exists r : TestResult,
        run_single_test env func (VDict d) timeout_seconds w
        = (Return r, disarmed w1)
        /\ tr_execution_time_ms r
           = VFloat (py_round ((clock w1 - clock w) * 1000) 2)
  | (Raise e, w1) =>
      if isinstance_Exception e then
        exists r : TestResult,
          run_single_test env func (VDict d) timeout_seconds w
          = (Return r, disarmed w1)
          /\ tr_execution_time_ms r = VInt 0
      else
        run_single_test env func (VDict d) timeout_seconds w
        = (Raise e, disarmed w1)
  | (Hang, w1) =>
      run_single_test env func (VDict d) timeout_seconds w = (Hang, w1)
  end.
Proof.
  rewrite run_single_test_dict. cbv zeta.
  destruct (call_function func (input_of d) (armed timeout_seconds w))
    as [[v | e | ] w1].
  - eexists. split; reflexivity.
  - destruct (isinstance_Exception e) eqn:He; [| reflexivity].
    eexists. split; [reflexivity |].
    unfold faulted_result. destruct (isinstance_TimeoutError e); reflexivity.
  - reflexivity.
Qed.

Lemma overruns_fires (t : Z) (c : Call Heap) (w : World Heap) :
  overruns t c -> pending_alarm w = Some t -> alarm_fires w c = true.
Proof.
  unfold overruns, alarm_fires. intros Ho Hp. rewrite Hp.
  destruct (finish c); try reflexivity; apply Z.leb_le; exact Ho.
Qed.

Lemma run_single_test_exit_disarmed (func : Obj Heap) (test_case : Value)
    (t : Z) (w : World Heap) :
  fst (run_single_test env func test_case t w) <> Hang ->
  pending_alarm w = None
  \/ (has_SIGALRM env = true /\ exists d, test_case = VDict d) ->
  pending_alarm (snd (run_single_test env func test_case t w)) = None.
Proof.
  intros Hex Hor.
  assert (Hd : (exists d, test_case = VDict d) \/ (forall d, test_case <> VDict d)).
  { destruct test_case; try (right; intros d' H'; discriminate).
    left. eexists. reflexivity. }
  destruct Hd as [[d ->] | Hnd].
  - revert Hex. rewrite run_single_test_dict. cbv zeta.
    destruct (call_function func (input_of d) (armed t w))
      as [[v | e | ] w1] eqn:Hcall; simpl.
    + intros _. apply pending_alarm_disarmed.
      destruct Hor as [Hp | [Hs _]]; [| right; exact Hs].
      destruct (has_SIGALRM env) eqn:Hs; [right; reflexivity | left].
      replace w1 with (snd (call_function func (input_of d) (armed t w)))
        by (rewrite Hcall; reflexivity).
      apply call_function_alarm. unfold armed. rewrite Hs. exact Hp.
    + intros _.
      assert (Hg : pending_alarm (disarmed w1) = None).
      { apply pending_alarm_disarmed.
        destruct Hor as [Hp | [Hs _]]; [| right; exact Hs].
        destruct (has_SIGALRM env) eqn:Hs; [right; reflexivity | left].
        replace w1 with (snd (call_function func (input_of d) (armed t w)))
          by (rewrite Hcall; reflexivity).
        apply call_function_alarm. unfold armed. rewrite Hs. exact Hp. }
      destruct (isinstance_Exception e); exact Hg.
    + intros H. exfalso. apply H. reflexivity.
  - destruct (run_single_test_not_dict func test_case t w Hnd) as [e [He _]].
    rewrite He. simpl. destruct Hor as [Hp | [_ [d Hd]]]; [exact Hp |].
    exfalso. exact (Hnd d Hd).
Qed.


Lemma run_test_case_returns (func : Obj Heap) (test_case : Value)
    (rep : RunReport) (w w1 : World Heap) (r : TestResult) :
  run_single_test env func test_case 2 w = (Return r, w1) ->
  run_test_case env func test_case (rep, w) = (Return tt, (record_result r rep, w1)).
Proof.
  intros H. unfold run_test_case, record_result. run_monad. simpl. rewrite H.
  destruct (tr_passed r); reflexivity.
Qed.

Lemma run_test_case_raises (func : Obj Heap) (test_case : Value)
    (rep : RunReport) (w w1 : World Heap) (e : Exc) :
  run_single_test env func test_case 2 w = (Raise e, w1) ->
  run_test_case env func test_case (rep, w) = (Raise e, (rep, w1)).
Proof.
  intros H. unfold run_test_case. run_monad. simpl. rewrite H. reflexivity.
Qed.

Lemma run_test_case_hangs (func : Obj Heap) (test_case : Value)
    (rep : RunReport) (w w1 : World Heap) :
  run_single_test env func test_case 2 w = (Hang, w1) ->
  run_test_case env func test_case (rep, w) = (Hang, (rep, w1)).
Proof.
  intros H. unfold run_test_case. run_monad. simpl. rewrite H. reflexivity.
Qed.

Lemma call_function_tame (f : Func Heap) (kwargs : Value) (w : World Heap) :
  tame f ->
  match call_function (Callable f) kwargs (armed 2 w) with
  | (Return _, _) => True
  | (Raise e, _) => isinstance_Exception e = true
  | (Hang, _) => False
  end.
Proof.
  intros Ht. unfold call_function.
  destruct kwargs; try reflexivity.
  destruct (Ht (heap (armed 2 w)) d) as [Hfin Hint].
  destruct (alarm_fires (armed 2 w) (f (heap (armed 2 w)) d)) eqn:Hf.
  - destruct (intercepted (f (heap (armed 2 w)) d)) as [[v | e | ] | ];
      simpl in *; try exact I; try exact Hint; try reflexivity.
    discriminate.
  - destruct (finish (f (heap (armed 2 w)) d)) eqn:Hfi; simpl in *;
      try exact Hfin; try exact I.
    unfold alarm_fires in Hf. rewrite Hfi in Hf.
    unfold armed in Hf. rewrite Hfin in Hf. simpl in Hf. discriminate.
Qed.

Lemma run_single_test_tame (f : Func Heap) (d : list (string * Value))
    (w : World Heap) :
  tame f ->
  exists (r : TestResult) (w1 : World Heap),
    run_single_test env (Callable f) (VDict d) 2 w = (Return r, w1).
Proof.
  intros Ht. rewrite run_single_test_dict. cbv zeta.
  pose proof (call_function_tame f (input_of d) w Ht) as Hc.
  destruct (call_function (Callable f) (input_of d) (armed 2 w))
    as [[v | e | ] w1].
  - eexists. eexists. reflexivity.
  - rewrite Hc. eexists. eexists. reflexivity.
  - contradiction.
Qed.

Lemma for_each_tame (f : Func Heap) (items : list (list (string * Value))) :
  tame f ->
  forall (rep : RunReport) (w : World Heap),
  exists (rep' : RunReport) (w' : World Heap),
    for_each (map VDict items) (run_test_case env (Callable f)) (rep, w)
    = (Return tt, (rep', w'))
    /\ length (rp_results rep')
       = (length (rp_results rep) + length items)%nat.
Proof.
  intros Ht. induction items as [ | d rest IH ]; intros rep w.
  - exists rep, w. split; [reflexivity | simpl; lia].
  - destruct (run_single_test_tame f d w Ht) as [r [w1 Hr]].
    destruct (IH (record_result r rep) w1) as [rep' [w' [Hloop Hlen]]].
    exists rep', w'. split.
    + simpl. unfold bind at 1.
      rewrite (run_test_case_returns _ _ rep _ _ _ Hr). exact Hloop.
    + rewrite Hlen. unfold record_result.
      destruct (tr_passed r); simpl; rewrite length_app; simpl; lia.
Qed.

Lemma name_char_facts (c : ascii) :
  is_name_char c = true -> is_space c = false /\ Ascii.eqb c "(" = false.
Proof.
  unfold is_name_char. intros H. apply andb_true_iff in H.
  destruct H as [Hs Hp]. apply negb_true_iff in Hs. apply negb_true_iff in Hp.
  split; assumption.
Qed.

Lemma lstrip_spaces (indent s : string) :
  all_chars is_space indent = true -> lstrip (indent ++ s) = lstrip s.
Proof.
  induction indent as [ | c r IH ]; simpl; [reflexivity |].
  intros H. apply andb_true_iff in H. destruct H as [Hc Hr].
  rewrite Hc. apply IH. exact Hr.
Qed.

Lemma rstrip_cons (c : ascii) (r : string) :
  is_space c = false \/ rstrip r <> "" -> rstrip (String c r) = String c (rstrip r).
Proof.
  simpl. intros [H | H].
  - destruct (rstrip r); [rewrite H |]; reflexivity.
  - destruct (rstrip r); [contradiction | reflexivity].
Qed.

Lemma rstrip_app_nonspace (a : string) (c : ascii) (r : string) :
  is_space c = false -> rstrip (a ++ String c r) = a ++ String c (rstrip r).
Proof.
  intros Hc. induction a as [ | x a IH ].
  - simpl append. apply rstrip_cons. left. exact Hc.
  - simpl append. rewrite rstrip_cons; [rewrite IH; reflexivity |].
    right. rewrite IH. destruct a; discriminate.
Qed.

Lemma rstrip_no_space (s : string) :
  all_chars (fun c => negb (is_space c)) s = true -> rstrip s = s.
Proof.
  induction s as [ | c r IH ]; [reflexivity |].
  simpl all_chars. intros H. apply andb_true_iff in H. destruct H as [Hc Hr].
  rewrite rstrip_cons; [rewrite IH by exact Hr; reflexivity |].
  left. destruct (is_space c); [discriminate | reflexivity].
Qed.

Lemma lstrip_no_space (s : string) :
  all_chars (fun c => negb (is_space c)) s = true -> lstrip s = s.
Proof.
  destruct s as [ | c r ]; [reflexivity |].
  simpl. intros H. apply andb_true_iff in H. destruct H as [Hc _].
  destruct (is_space c); [discriminate | reflexivity].
Qed.

Lemma hd_split_cons (sep c : ascii) (r : string) :
  Ascii.eqb c sep = false ->
  hd "" (split sep (String c r)) = String c (hd "" (split sep r)).
Proof.
  intros H. simpl. rewrite H. destruct (split sep r); reflexivity.
Qed.

Lemma hd_split_app (sep : ascii) (a r : string) :
  all_chars (fun c => negb (Ascii.eqb c sep)) a = true ->
  hd "" (split sep (a ++ String sep r)) = a.
Proof.
  induction a as [ | c a IH ]; simpl all_chars; intros H.
  - simpl. rewrite Ascii.eqb_refl. reflexivity.
  - apply andb_true_iff in H. destruct H as [Hc Ha].
    simpl append. rewrite hd_split_cons.
    + rewrite IH by exact Ha. reflexivity.
    + destruct (Ascii.eqb c sep); [discriminate | reflexivity].
Qed.

Lemma all_chars_impl (p q : ascii -> bool) (s : string) :
  (forall c, p c = true -> q c = true) ->
  all_chars p s = true -> all_chars q s = true.
Proof.
  intros Hpq. induction s as [ | c r IH ]; [reflexivity |].
  simpl. intros H. apply andb_true_iff in H. destruct H as [Hc Hr].
  rewrite (Hpq c Hc), (IH Hr). reflexivity.
Qed.

Lemma prefix_app (p s : string) : String.prefix p (p ++ s) = true.
Proof.
  induction p as [ | c p IH ]; simpl; [destruct s; reflexivity |].
  destruct (ascii_dec c c) as [_ | Hne]; [exact IH | contradiction].
Qed.

Lemma remove_from_skip (old p s : string) :
  remove_from old (String.length p) (p ++ s) = remove_from old 0 s.
Proof. induction p as [ | c p IH ]; [reflexivity | exact IH]. Qed.

Lemma remove_from_prefix (c : ascii) (p s : string) :
  remove_from (String c p) 0 (String c p ++ s) = remove_from (String c p) 0 s.
Proof.
  change (String c p ++ s) with (String c (p ++ s)) at 1.
  cbn [remove_from].
  change (String c (p ++ s)) with (String c p ++ s).
  rewrite prefix_app.
  replace (String.length (String c p) - 1)%nat with (String.length p)
    by (simpl; lia).
  apply remove_from_skip.
Qed.

Lemma prefix_def_no_space (s : string) :
  all_chars (fun c => negb (is_space c)) s = true ->
  String.prefix "def " s = false.
Proof.
  intros H.
  destruct (String.prefix "def " s) eqn:Hp; [| reflexivity].
  exfalso. apply prefix_correct in Hp. simpl in Hp.
  destruct s as [ | c0 [ | c1 [ | c2 [ | c3 r ]]]]; simpl in Hp; try discriminate.
  inversion Hp. subst.
  simpl in H. discriminate.
Qed.

Lemma remove_all_no_space (s : string) :
  all_chars (fun c => negb (is_space c)) s = true ->
  remove_from "def " 0 s = s.
Proof.
  induction s as [ | c r IH ]; [reflexivity |].
  intros H. pose proof (prefix_def_no_space _ H) as Hp.
  simpl in H. apply andb_true_iff in H. destruct H as [_ Hr].
  cbn [remove_from]. rewrite Hp. rewrite (IH Hr). reflexivity.
Qed.

(** A line of starter code of the form [def name(...], indented or not, is
    recognized and yields [name]. *)
Lemma hinted_name_of_def_line (indent name rest : string) :
  all_chars is_space indent = true ->
  all_chars is_name_char name = true ->
  let line := indent ++ "def " ++ name ++ "(" ++ rest in
  startswith "def " (strip line) = true /\ hinted_name line = name.
Proof.
  intros Hi Hn line.
  assert (Hns : all_chars (fun c => negb (is_space c)) name = true).
  { apply (all_chars_impl is_name_char); [| exact Hn].
    intros c Hc. destruct (name_char_facts c Hc) as [Hs _].
    rewrite Hs. reflexivity. }
  assert (Hnp : all_chars (fun c => negb (Ascii.eqb c "(")) name = true).
  { apply (all_chars_impl is_name_char); [| exact Hn].
    intros c Hc. destruct (name_char_facts c Hc) as [_ Hs].
    rewrite Hs. reflexivity. }
  assert (Hstrip : strip line = "def " ++ name ++ String "(" (rstrip rest)).
  { unfold strip, line. rewrite lstrip_spaces by exact Hi.
    change (lstrip ("def " ++ name ++ "(" ++ rest))
      with ("def " ++ name ++ "(" ++ rest).
    change ("def " ++ name ++ "(" ++ rest)
      with (String "d" (String "e" (String "f" (String " " (name ++ String "(" rest))))).
    assert (Hr : rstrip (name ++ String "(" rest) = name ++ String "(" (rstrip rest))
      by (apply rstrip_app_nonspace; reflexivity).
    assert (Hne : rstrip (name ++ String "(" rest) <> "")
      by (rewrite Hr; destruct name; discriminate).
    rewrite rstrip_cons by (left; reflexivity).
    rewrite rstrip_cons by (left; reflexivity).
    rewrite rstrip_cons by (left; reflexivity).
    rewrite rstrip_cons by (right; exact Hne).
    rewrite Hr. reflexivity. }
  split.
  - rewrite Hstrip. unfold startswith. apply prefix_app.
  - unfold hinted_name. rewrite Hstrip.
    change ("def " ++ name ++ String "(" (rstrip rest))
      with (String "d" (String "e" (String "f" (String " " (name ++ String "(" (rstrip rest)))))).
    rewrite hd_split_cons by reflexivity.
    rewrite hd_split_cons by reflexivity.
    rewrite hd_split_cons by reflexivity.
    rewrite hd_split_cons by reflexivity.
    rewrite hd_split_app by exact Hnp.
    unfold remove_all.
    change (String "d" (String "e" (String "f" (String " " name))))
      with ("def " ++ name).
    rewrite remove_from_prefix.
    rewrite remove_all_no_space by exact Hns.
    unfold strip. rewrite lstrip_no_space by exact Hns.
    apply rstrip_no_space. exact Hns.
Qed.

Lemma scan_starter_code_find (namespace : Namespace Heap) (lines : list string) :
  scan_starter_code namespace lines
  = find (callable_in namespace)
      (map hinted_name
         (filter (fun line => startswith "def " (strip line)) lines)).
Proof.
  induction lines as [ | line rest IH ]; [reflexivity |].
  simpl. destruct (startswith "def " (strip line)); [| exact IH].
  simpl. destruct (callable_in namespace (hinted_name line)); [reflexivity | exact IH].
Qed.

Lemma scan_common_names_find (namespace : Namespace Heap) (names : list string) :
  scan_common_names namespace names = find (callable_in namespace) names.
Proof.
  induction names as [ | name rest IH ]; [reflexivity |].
  simpl. destruct (callable_in namespace name); [reflexivity | exact IH].
Qed.

Lemma scan_namespace_find (items : Namespace Heap) :
  scan_namespace env items = option_map fst (find eligible items).
Proof.
  induction items as [ | [name obj] rest IH ]; [reflexivity |].
  simpl. unfold eligible at 1. simpl.
  destruct (callable obj && negb (startswith "_" name)
            && negb (is_builtin_name env name)); [reflexivity | exact IH].
Qed.

Lemma detect_function_name_selection (problem : list (string * Value))
    (namespace : Namespace Heap) (s : string) :
  starter_code_of problem = Some s ->
  detect_function_name env (VDict problem) namespace
  = ordered_selection s namespace.
Proof.
  unfold starter_code_of, detect_function_name, ordered_selection, hinted_names.
  unfold py_get. intros Hs.
  assert (Hget : match dict_lookup "starter_code_python" problem with
                 | Some x => x
                 | None => VStr ""
                 end = VStr s).
  { destruct (dict_lookup "starter_code_python" problem) as [v | ];
      [destruct v; try discriminate |]; congruence. }
  rewrite Hget. unfold py_split.
  rewrite scan_starter_code_find, scan_common_names_find, scan_namespace_find.
  destruct (find (callable_in namespace) _); [reflexivity |].
  destruct (find (callable_in namespace) common_names); [reflexivity |].
  destruct (find eligible namespace); reflexivity.
Qed.

Lemma detect_function_name_raises (problem : Value) (namespace : Namespace Heap)
    (e : Exc) :
  detect_function_name env problem namespace = Raise e ->
  isinstance_Exception e = true.
Proof.
  unfold detect_function_name.
  destruct (py_get problem "starter_code_python" (VStr "")) as [sc | e' | ] eqn:Hg.
  - destruct (py_split sc "010") as [lines | e' | ] eqn:Hs.
    + destruct (scan_starter_code namespace lines); [discriminate |].
      destruct (scan_common_names namespace common_names); [discriminate |].
      destruct (scan_namespace env namespace); [discriminate |].
      intros H. inversion H. reflexivity.
    + intros H. inversion H. subst e'.
      destruct sc; simpl in Hs; inversion Hs; reflexivity.
    + discriminate.
  - intros H. inversion H. subst e'.
    destruct problem; simpl in Hg; inversion Hg; reflexivity.
  - discriminate.
Qed.

Lemma detect_function_name_never_hangs (problem : Value)
    (namespace : Namespace Heap) :
  detect_function_name env problem namespace <> Hang.
Proof.
  unfold detect_function_name.
  destruct (py_get problem "starter_code_python" (VStr "")) as [sc | e' | ] eqn:Hg.
  - destruct (py_split sc "010") as [lines | e' | ] eqn:Hs.
    + destruct (scan_starter_code namespace lines); [discriminate |].
      destruct (scan_common_names namespace common_names); [discriminate |].
      destruct (scan_namespace env namespace); discriminate.
    + discriminate.
    + destruct sc; simpl in Hs; discriminate.
  - discriminate.
  - destruct problem; simpl in Hg; discriminate.
Qed.

(** X1. On starter code made of characters below U+0100 the resolver is
    an ordered selection, a function of the hint and the namespace: the
    first name read off a [def] line of the starter code that is a callable
    of the namespace; else the first callable among the conventional names
    in their fixed order; else the first entry of the namespace, in its
    iteration order, that is callable, does not start with an underscore and
    is not the name of a built-in; else the error of a missing entry point.
    A starter code that is no string makes the resolver raise
    AttributeError.  The name read off a line of the form [def name(...],
    indented by any white space or not at all, is [name], whatever
    characters other than white space and "(" it is made of. *)
Theorem entry_point_is_ordered_selection :
  (forall (problem : list (string * Value)) (namespace : Namespace Heap),
      match starter_code_of problem with
      | Some s =>
          detect_function_name env (VDict problem) namespace
          = ordered_selection s namespace
      | None =>
          exists msg : string,
            detect_function_name env (VDict problem) namespace
            = Raise (AttributeError msg)
      end)
  /\ (forall indent name rest : string,
         all_chars is_space indent = true ->
         all_chars is_name_char name = true ->
         startswith "def " (strip (indent ++ "def " ++ name ++ "(" ++ rest))
         = true
         /\ hinted_name (indent ++ "def " ++ name ++ "(" ++ rest) = name).
Proof.
  split.
  - intros problem namespace.
    destruct (starter_code_of problem) as [s | ] eqn:Hs.
    + apply detect_function_name_selection. exact Hs.
    + unfold starter_code_of in Hs. unfold detect_function_name, py_get.
      destruct (dict_lookup "starter_code_python" problem) as [v | ];
        [| discriminate].
      destruct v; try discriminate; eexists; reflexivity.
  - intros indent name rest Hi Hn.
    exact (hinted_name_of_def_line indent name rest Hi Hn).
Qed.

Lemma run_tests_finish (problem_dir solution_path : string) (w : World Heap) :
  run_tests env problem_dir solution_path w
  = finish_run (run_tests_try env problem_dir solution_path (initial_report, w)).
Proof.
  unfold run_tests, finish_run, initial_report. unfold with_local, try_except.
  destruct (run_tests_try env problem_dir solution_path
              (mkRunReport true 0 0 0 [] None None, w))
    as [[u | e | ] [rep w1]]; try reflexivity.
  unfold run_tests_except, failed_report, failure_message,
    isinstance_FileNotFoundError, isinstance_SyntaxError, isinstance_ValueError,
    isinstance_Exception.
  destruct (exc_kind e); reflexivity.
Qed.

Lemma run_tests_try_cases (problem_dir solution_path : string)
    (rep : RunReport) (w : World Heap) :
  run_tests_try env problem_dir solution_path (rep, w) =
  match load_problem env problem_dir w with
  | (Return problem, w1) =>
      match py_get problem "test_cases" (VList []) with
      | Return test_cases =>
          if negb (truthy test_cases) then
            (Return tt,
             (set_rp_success false
                (set_rp_error "No test cases found in problem definition" rep),
              w1))
          else
            match py_len test_cases with
            | Return total =>
                load_and_run problem test_cases solution_path
                  (set_rp_total total rep) w1
            | Raise e => (Raise e, (rep, w1))
            | Hang => (Hang, (rep, w1))
            end
      | Raise e => (Raise e, (rep, w1))
      | Hang => (Hang, (rep, w1))
      end
  | (Raise e, w1) => (Raise e, (rep, w1))
  | (Hang, w1) => (Hang, (rep, w1))
  end.
Proof.
  unfold run_tests_try, load_and_run. run_monad. simpl.
  destruct (load_problem env problem_dir w) as [[problem | e | ] w1];
    try reflexivity.
  destruct (py_get problem "test_cases" (VList [])) as [tcs | e | ];
    try reflexivity.
  destruct (negb (truthy tcs)); [reflexivity |].
  destruct (py_len tcs) as [total | e | ]; try reflexivity.
  simpl.
  destruct (import_user_solution env solution_path w1) as [[ns | e | ] w2];
    reflexivity.
Qed.

Lemma run_single_test_result_of (func : Obj Heap) (test_case : Value) (t : Z)
    (w w1 : World Heap) (r : TestResult) :
  run_single_test env func test_case t w = (Return r, w1) ->
  result_of test_case r.
Proof.
  intros H.
  assert (Hd : (exists d, test_case = VDict d) \/ (forall d, test_case <> VDict d)).
  { destruct test_case; try (right; intros d' H'; discriminate).
    left. eexists. reflexivity. }
  destruct Hd as [[d ->] | Hnd].
  - exists d. split; [reflexivity |].
    rewrite run_single_test_dict in H. cbv zeta in H.
    destruct (call_function func (input_of d) (armed t w))
      as [[v | e | ] w2].
    + inversion H. repeat split.
    + destruct (isinstance_Exception e); [| discriminate].
      inversion H. unfold faulted_result.
      destruct (isinstance_TimeoutError e); repeat split.
    + discriminate.
  - destruct (run_single_test_not_dict func test_case t w Hnd) as [e [He _]].
    rewrite He in H. discriminate.
Qed.

(** What the loop over the test cases keeps and what it adds, however it
    ends. *)
Lemma for_each_run_test_case (func : Obj Heap) (items : list Value) :
  forall (rep rep' : RunReport) (w w' : World Heap) (res : Res unit),
    for_each items (run_test_case env func) (rep, w) = (res, (rep', w')) ->
    rp_success rep' = rp_success rep
    /\ rp_total rep' = rp_total rep
    /\ rp_error rep' = rp_error rep
    /\ rp_traceback rep' = rp_traceback rep
    /\ exists new : list TestResult,
         rp_results rep' = (rp_results rep ++ new)%list
         /\ rp_passed rep' + rp_failed rep'
            = rp_passed rep + rp_failed rep + Z.of_nat (length new)
         /\ (res = Return tt -> Forall2 result_of items new).
Proof.
  induction items as [ | tc rest IH ]; intros rep rep' w w' res H.
  - simpl in H. unfold ret in H. inversion H. subst.
    repeat split. exists []. rewrite app_nil_r. repeat split; [simpl; lia |].
    intros _. constructor.
  - simpl in H. unfold bind in H.
    destruct (run_single_test env func tc 2 w) as [[r | e | ] w1] eqn:Hr.
    + rewrite (run_test_case_returns _ _ rep _ _ _ Hr) in H.
      destruct (IH _ _ _ _ _ H) as [Hs [Ht [He [Htb [new [Hres [Hcnt Hall]]]]]]].
      assert (Hrec : rp_success (record_result r rep) = rp_success rep
                     /\ rp_total (record_result r rep) = rp_total rep
                     /\ rp_error (record_result r rep) = rp_error rep
                     /\ rp_traceback (record_result r rep) = rp_traceback rep
                     /\ rp_results (record_result r rep)
                        = (rp_results rep ++ [r])%list
                     /\ rp_passed (record_result r rep)
                        + rp_failed (record_result r rep)
                        = rp_passed rep + rp_failed rep + 1).
      { unfold record_result. destruct (tr_passed r); simpl; repeat split; lia. }
      destruct Hrec as [Hs' [Ht' [He' [Htb' [Hres' Hcnt']]]]].
      repeat split; try congruence.
      exists (r :: new). repeat split.
      * rewrite Hres, Hres'. rewrite <- app_assoc. reflexivity.
      * rewrite Hcnt, Hcnt'. simpl length. lia.
      * intros Hret. constructor; [| exact (Hall Hret)].
        exact (run_single_test_result_of _ _ _ _ _ _ Hr).
    + rewrite (run_test_case_raises _ _ rep _ _ _ Hr) in H.
      inversion H. subst. repeat split.
      exists []. rewrite app_nil_r. repeat split; [simpl; lia | discriminate].
    + rewrite (run_test_case_hangs _ _ rep _ _ Hr) in H.
      inversion H. subst. repeat split.
      exists []. rewrite app_nil_r. repeat split; [simpl; lia | discriminate].
Qed.

Lemma length_chars (s : string) : length (chars s) = String.length s.
Proof. induction s as [ | c r IH ]; simpl; [reflexivity | rewrite IH; reflexivity]. Qed.

Lemma py_len_py_iter (v : Value) (n : Z) (items : list Value) :
  py_len v = Return n -> py_iter v = Return items -> n = Z.of_nat (length items).
Proof.
  destruct v; simpl; intros Hl Hi; try discriminate;
    inversion Hl; inversion Hi; subst; try reflexivity.
  - rewrite length_chars. reflexivity.
  - rewrite length_map. reflexivity.
Qed.

Lemma load_and_run_cases (problem test_cases : Value) (solution_path : string)
    (rep rep' : RunReport) (w1 w' : World Heap) (res : Res unit) :
  load_and_run problem test_cases solution_path rep w1 = (res, (rep', w')) ->
  (res = Return tt ->
   exists (func : Obj Heap) (items : list Value) (w2 : World Heap),
     py_iter test_cases = Return items
     /\ for_each items (run_test_case env func) (rep, w2) = (res, (rep', w')))
  /\ (forall e : Exc,
         (exists w2, import_user_solution env solution_path w1 = (Raise e, w2))
         \/ (exists ns w2,
                import_user_solution env solution_path w1 = (Return ns, w2)
                /\ detect_function_name env problem ns = Raise e) ->
         res = Raise e /\ rep' = rep).
Proof.
  unfold load_and_run. intros H.
  destruct (import_user_solution env solution_path w1) as [[ns | e0 | ] w2] eqn:Hi.
  - destruct (detect_function_name env problem ns) as [name | e0 | ] eqn:Hdet.
    + split.
      * intros Hret.
        destruct (namespace_getitem ns name) as [func | e0 | ];
          [| inversion H; congruence | inversion H; congruence].
        destruct (py_iter test_cases) as [items | e0 | ];
          [| inversion H; congruence | inversion H; congruence].
        exists func, items, w2. split; [reflexivity | exact H].
      * intros e [[w3 Hc] | [ns' [w3 [Hc Hd]]]]; [discriminate |].
        inversion Hc. subst. congruence.
    + split; [intros Hret; inversion H; congruence |].
      intros e [[w3 Hc] | [ns' [w3 [Hc Hd]]]]; [discriminate |].
      inversion Hc. subst. rewrite Hdet in Hd. inversion Hd. subst.
      inversion H. split; reflexivity.
    + split; [intros Hret; inversion H; congruence |].
      intros e [[w3 Hc] | [ns' [w3 [Hc Hd]]]]; [discriminate |].
      inversion Hc. subst. congruence.
  - split; [intros Hret; inversion H; congruence |].
    intros e [[w3 Hc] | [ns' [w3 [Hc Hd]]]]; [| discriminate].
    inversion Hc. subst. inversion H. split; reflexivity.
  - split; [intros Hret; inversion H; congruence |].
    intros e [[w3 Hc] | [ns' [w3 [Hc Hd]]]]; discriminate.
Qed.

(** C4. A report with [success] true counts its results in [total], splits
    [total] into [passed] and [failed], and lists one result per declared
    test case, in the order of the declaration. *)
Theorem successful_report_counts_and_order (problem_dir solution_path : string)
    (w w' : World Heap) (r : RunReport) :
  run_tests env problem_dir solution_path w = (Return r, w') ->
  rp_success r = true ->
  rp_total r = Z.of_nat (length (rp_results r))
  /\ rp_passed r + rp_failed r = rp_total r
  /\ exists (problem test_cases : Value) (items : list Value) (w1 : World Heap),
       load_problem env problem_dir w = (Return problem, w1)
       /\ py_get problem "test_cases" (VList []) = Return test_cases
       /\ py_iter test_cases = Return items
       /\ Forall2 result_of items (rp_results r).
Proof.
  rewrite run_tests_finish, run_tests_try_cases. unfold finish_run.
  intros Hrun Hsucc.
  assert (Hfail : forall e rep w2,
             (if isinstance_Exception e
              then (Return (failed_report e rep), w2)
              else (Raise e, w2)) = (Return r, w') -> False).
  { intros e rep w2 H. destruct (isinstance_Exception e); [| discriminate].
    inversion H. subst r. simpl in Hsucc. discriminate. }
  destruct (load_problem env problem_dir w) as [[problem | e | ] w1] eqn:Hload;
    [| exfalso; exact (Hfail _ _ _ Hrun) | discriminate].
  destruct (py_get problem "test_cases" (VList [])) as [tcs | e | ] eqn:Hget;
    [| exfalso; exact (Hfail _ _ _ Hrun) | discriminate].
  destruct (negb (truthy tcs)).
  { inversion Hrun. subst r. simpl in Hsucc. discriminate. }
  destruct (py_len tcs) as [total | e | ] eqn:Hlen;
    [| exfalso; exact (Hfail _ _ _ Hrun) | discriminate].
  destruct (load_and_run problem tcs solution_path
              (set_rp_total total initial_report) w1)
    as [[[] | e | ] [rep' w2]] eqn:Hlr;
    [| exfalso; exact (Hfail _ _ _ Hrun) | discriminate].
  inversion Hrun. subst rep' w2. clear Hrun.
  destruct (load_and_run_cases _ _ _ _ _ _ _ _ Hlr) as [Hok _].
  destruct (Hok eq_refl) as [func [items [w2 [Hiter Hloop]]]].
  destruct (for_each_run_test_case _ _ _ _ _ _ _ Hloop)
    as [_ [Ht [_ [_ [new [Hres [Hcnt Hall]]]]]]].
  simpl in Ht, Hres, Hcnt.
  pose proof (py_len_py_iter _ _ _ Hlen Hiter) as Hn.
  pose proof (Forall2_length (Hall eq_refl)) as Hlen2.
  rewrite Hres, Ht. repeat split.
  - rewrite Hn, Hlen2. reflexivity.
  - rewrite Hcnt, Hn, Hlen2. reflexivity.
  - exists problem, tcs, items, w1.
    split; [reflexivity |]. split; [exact Hget |].
    split; [exact Hiter | exact (Hall eq_refl)].
Qed.

(** C7, as amended. A problem definition that loads as a mapping with no
    test case (the entry [test_cases] is absent, null or empty: any value
    Python takes for false) ends the run at once: the report has [success]
    false, the error "No test cases found in problem definition" and no
    result.  A problem file that loads as anything but a mapping (an empty
    file loads as null) ends the run as well, with [success] false and no
    result, but with the error "Unexpected error: AttributeError: '<type>'
    object has no attribute 'get'". *)
Theorem no_test_cases_is_a_failure :
  (forall (problem_dir solution_path : string) (w w1 : World Heap)
          (problem : list (string * Value)),
      load_problem env problem_dir w = (Return (VDict problem), w1) ->
      truthy (test_cases_of problem) = false ->
      exists r : RunReport,
        run_tests env problem_dir solution_path w = (Return r, w1)
        /\ rp_success r = false
        /\ rp_error r = Some "No test cases found in problem definition"
        /\ rp_results r = []
        /\ rp_total r = 0 /\ rp_passed r = 0 /\ rp_failed r = 0)
  /\ (forall (problem_dir solution_path : string) (w w1 : World Heap)
             (problem : Value),
         load_problem env problem_dir w = (Return problem, w1) ->
         (forall d, problem <> VDict d) ->
         exists r : RunReport,
           run_tests env problem_dir solution_path w = (Return r, w1)
           /\ rp_success r = false
           /\ rp_error r
              = Some ("Unexpected error: AttributeError: '"
                      ++ type_name problem
                      ++ "' object has no attribute 'get'")
           /\ rp_results r = []
           /\ rp_total r = 0 /\ rp_passed r = 0 /\ rp_failed r = 0).
Proof.
  split.
  - intros pd sp w w1 problem Hload Hfalse.
    rewrite run_tests_finish, run_tests_try_cases, Hload.
    unfold py_get. fold (test_cases_of problem). rewrite Hfalse. simpl.
    eexists. repeat split.
  - intros pd sp w w1 problem Hload Hnd.
    rewrite run_tests_finish, run_tests_try_cases, Hload.
    destruct problem; try (eexists; repeat split; reflexivity).
    exfalso. eapply Hnd. reflexivity.
Qed.

(** What [main] makes of the way [run_tests] ended.  A report that was
    returned is handed to [print] and decides the status: 0 exactly when it
    has [success] true and [failed] equal to 0, and 1 otherwise.  When an
    exception leaves [run_tests] nothing is printed: the process exits with
    the status of that exception if it is a SystemExit and crashes
    otherwise. *)
Lemma exit_status_of_main (argv : list string) (w : World Heap) :
  match run_tests env (problem_dir_of argv) (solution_path_of argv) w with
  | (Return r, w') =>
      exists status : Z,
        main env argv ([], w) = (Raise (SystemExit status), ([r], w'))
        /\ run_script env argv w = ([r], Exits status)
        /\ (status = 0 <-> rp_success r = true /\ rp_failed r = 0)
        /\ (status = 0 \/ status = 1)
  | (Raise e, w') =>
      main env argv ([], w) = (Raise e, ([], w'))
      /\ run_script env argv w
         = ([],
            match exc_kind e with
            | KSystemExit status => Exits status
            | _ => Crashes
            end)
  | (Hang, w') =>
      main env argv ([], w) = (Hang, ([], w'))
      /\ run_script env argv w = ([], NeverEnds)
  end.
Proof.
  unfold run_script, main, print_json, sys_exit. cbv zeta.
  unfold bind, outer, local, modify, raise. simpl.
  destruct (run_tests env (problem_dir_of argv) (solution_path_of argv) w)
    as [[r | e | ] w']; try (split; reflexivity).
  eexists. split; [reflexivity |]. split; [reflexivity |].
  destruct (rp_success r); simpl.
  - destruct (Z.eqb_spec (rp_failed r) 0) as [H0 | H0]; split;
      try (left; reflexivity); try (right; reflexivity).
    + split; intros; [split; [reflexivity | exact H0] | reflexivity].
    + split; [discriminate | intros [_ H]; contradiction].
  - split; [| right; reflexivity].
    split; [discriminate | intros [H _]; discriminate].
Qed.

(** When the problem loads with [n >= 1] test cases and the candidate
    loader or the entry-point resolver then raises, the report of the run
    has [success] false, an error, no result, and [total] equal to [n], so
    that [total] differs from the number of results.  There is such a report
    unless what was raised is outside Exception, in which case it leaves
    [run_tests] and there is no report at all. *)
Lemma failed_load_keeps_total (problem_dir solution_path : string)
    (w w1 : World Heap) (problem : list (string * Value))
    (tcs : list Value) (e : Exc) :
  load_problem env problem_dir w = (Return (VDict problem), w1) ->
  dict_lookup "test_cases" problem = Some (VList tcs) ->
  (1 <= length tcs)%nat ->
  (exists w2, import_user_solution env solution_path w1 = (Raise e, w2))
  \/ (exists ns w2,
         import_user_solution env solution_path w1 = (Return ns, w2)
         /\ detect_function_name env (VDict problem) ns = Raise e) ->
  (exists (r : RunReport) (w' : World Heap),
      run_tests env problem_dir solution_path w = (Return r, w')
      /\ rp_success r = false
      /\ (exists msg, rp_error r = Some msg)
      /\ rp_results r = []
      /\ rp_total r = Z.of_nat (length tcs)
      /\ rp_total r <> Z.of_nat (length (rp_results r)))
  \/ (isinstance_Exception e = false
      /\ exists w' : World Heap,
           run_tests env problem_dir solution_path w = (Raise e, w')).
Proof.
  intros Hload Htc Hn Hfail.
  rewrite run_tests_finish, run_tests_try_cases, Hload.
  unfold py_get. rewrite Htc.
  assert (Htruthy : truthy (VList tcs) = true)
    by (destruct tcs; [simpl in Hn; lia | reflexivity]).
  rewrite Htruthy. simpl negb. cbv iota. simpl py_len. cbv iota.
  destruct (load_and_run (VDict problem) (VList tcs) solution_path
              (set_rp_total (Z.of_nat (length tcs)) initial_report) w1)
    as [res [rep' w2]] eqn:Hlr.
  destruct (load_and_run_cases _ _ _ _ _ _ _ _ Hlr) as [_ Hraise].
  destruct (Hraise e Hfail) as [-> ->].
  unfold finish_run.
  destruct (isinstance_Exception e).
  - left. eexists. eexists. split; [reflexivity |]. simpl. repeat split.
    + eexists. reflexivity.
    + lia.
  - right. split; [reflexivity |]. eexists. reflexivity.
Qed.

Lemma for_each_app {A : Type} (xs ys : list A)
    (body : A -> M (RunReport * World Heap) unit) (s : RunReport * World Heap) :
  for_each (xs ++ ys) body s
  = match for_each xs body s with
    | (Return _, s') => for_each ys body s'
    | other => other
    end.
Proof.
  revert s. induction xs as [ | x xs IH ]; intros s.
  - simpl. unfold ret. reflexivity.
  - simpl. unfold bind.
    destruct (body x s) as [[[] | e | ] s1]; [apply IH | reflexivity | reflexivity].
Qed.

Lemma run_single_test_correct (f : Func Heap) (d : list (string * Value))
    (w : World Heap) :
  answers_correctly f d ->
  pending_alarm w = None ->
  exists (r : TestResult) (w1 : World Heap),
    run_single_test env (Callable f) (VDict d) 2 w = (Return r, w1)
    /\ tr_passed r = true /\ tr_error r = None /\ pending_alarm w1 = None.
Proof.
  intros Hc Hp0.
  destruct (Hc (heap w)) as [kwargs [v [Hin [Hfin [Hdur Hcmp]]]]].
  rewrite run_single_test_dict. cbv zeta. rewrite Hin.
  unfold call_function.
  assert (Hh : heap (armed 2 w) = heap w)
    by (unfold armed; destruct (has_SIGALRM env); reflexivity).
  assert (Hck : clock (armed 2 w) = clock w)
    by (unfold armed; destruct (has_SIGALRM env); reflexivity).
  assert (Hf : alarm_fires (armed 2 w) (f (heap w) kwargs) = false).
  { unfold alarm_fires. rewrite Hfin. unfold armed.
    destruct (has_SIGALRM env); cbn [pending_alarm].
    - change (0 <? 2) with true. cbv iota. apply Z.leb_gt. exact Hdur.
    - rewrite Hp0. reflexivity. }
  rewrite Hh, Hf, Hfin. simpl.
  eexists. eexists. split; [reflexivity |].
  unfold completed_result. simpl. split; [exact Hcmp |]. split; [reflexivity |].
  apply pending_alarm_disarmed. unfold armed.
  destruct (has_SIGALRM env); [right; reflexivity | left; exact Hp0].
Qed.

Lemma for_each_correct (f : Func Heap) (items : list (list (string * Value))) :
  Forall (answers_correctly f) items ->
  forall (rep : RunReport) (w : World Heap),
    pending_alarm w = None ->
    exists (rep' : RunReport) (w' : World Heap),
      for_each (map VDict items) (run_test_case env (Callable f)) (rep, w)
      = (Return tt, (rep', w'))
      /\ rp_passed rep' = rp_passed rep + Z.of_nat (length items)
      /\ rp_failed rep' = rp_failed rep.
Proof.
  intros Hall. induction Hall as [ | d rest Hd _ IH ]; intros rep w Hp.
  - exists rep, w. split; [reflexivity |]. simpl. split; [lia | reflexivity].
  - destruct (run_single_test_correct f d w Hd Hp)
      as [r [w1 [Hr [Hpass [_ Hp1]]]]].
    destruct (IH (record_result r rep) w1 Hp1) as [rep' [w' [Hloop [Hps Hfl]]]].
    exists rep', w'. split.
    + simpl. unfold bind at 1.
      rewrite (run_test_case_returns _ _ rep _ _ _ Hr). exact Hloop.
    + rewrite Hps, Hfl. unfold record_result. rewrite Hpass. simpl length.
      simpl. split; lia.
Qed.

(** X2. Run against a candidate that answers every test case correctly and
    in time, a problem with at least one test case yields a report with
    [success] true, no error, [failed] equal to 0 and [passed] equal to
    [total], the number of test cases. *)
Theorem correct_candidate_passes_every_test (problem_dir solution_path : string)
    (w w1 w2 : World Heap) (problem : list (string * Value))
    (items : list (list (string * Value))) (namespace : Namespace Heap)
    (func_name : string) (f : Func Heap) :
  load_problem env problem_dir w = (Return (VDict problem), w1) ->
  dict_lookup "test_cases" problem = Some (VList (map VDict items)) ->
  (1 <= length items)%nat ->
  import_user_solution env solution_path w1 = (Return namespace, w2) ->
  detect_function_name env (VDict problem) namespace = Return func_name ->
  dict_lookup func_name namespace = Some (Callable f) ->
  pending_alarm w2 = None ->
  Forall (answers_correctly f) items ->
  exists (r : RunReport) (w' : World Heap),
    run_tests env problem_dir solution_path w = (Return r, w')
    /\ rp_success r = true
    /\ rp_error r = None
    /\ rp_failed r = 0
    /\ rp_passed r = rp_total r
    /\ rp_total r = Z.of_nat (length items)
    /\ length (rp_results r) = length items.
Proof.
  intros Hload Htc Hn Himp Hdet Hget Hp Hall.
  rewrite run_tests_finish, run_tests_try_cases, Hload.
  unfold py_get. rewrite Htc.
  assert (Htruthy : truthy (VList (map VDict items)) = true)
    by (destruct items; [simpl in Hn; lia | reflexivity]).
  rewrite Htruthy. simpl negb. cbv iota. simpl py_len. cbv iota.
  unfold load_and_run. rewrite Himp, Hdet.
  unfold namespace_getitem. rewrite Hget. simpl py_iter. cbv iota.
  destruct (for_each_correct f items Hall
              (set_rp_total (Z.of_nat (length (map VDict items))) initial_report)
              w2 Hp)
    as [rep' [w' [Hloop [Hps Hfl]]]].
  rewrite Hloop. unfold finish_run.
  destruct (for_each_run_test_case _ _ _ _ _ _ _ Hloop)
    as [Hs [Ht [He [_ [new [Hres [_ Hall2]]]]]]].
  pose proof (Forall2_length (Hall2 eq_refl)) as Hlen.
  rewrite length_map in Hlen.
  simpl in Hs, Ht, He, Hres, Hps, Hfl. rewrite length_map in Ht.
  exists rep', w'. split; [reflexivity |].
  repeat split; try assumption.
  - rewrite Hps, Ht. lia.
  - rewrite Hres. symmetry. exact Hlen.
Qed.

(** X3. When the first test case that is not a mapping follows [k]
    well-formed ones, the run against a tame candidate stops there: the
    report has [success] false and an error, and yet it keeps the [k] results
    produced so far; [total] still counts every declared test case. *)
Theorem malformed_test_case_keeps_partial_results
    (problem_dir solution_path : string) (w w1 w2 : World Heap)
    (problem : list (string * Value)) (items : list (list (string * Value)))
    (bad : Value) (rest : list Value) (namespace : Namespace Heap)
    (func_name : string) (f : Func Heap) :
  load_problem env problem_dir w = (Return (VDict problem), w1) ->
  dict_lookup "test_cases" problem
  = Some (VList (map VDict items ++ bad :: rest)) ->
  (forall d, bad <> VDict d) ->
  import_user_solution env solution_path w1 = (Return namespace, w2) ->
  detect_function_name env (VDict problem) namespace = Return func_name ->
  dict_lookup func_name namespace = Some (Callable f) ->
  tame f ->
  exists (r : RunReport) (w' : World Heap) (msg : string),
    run_tests env problem_dir solution_path w = (Return r, w')
    /\ rp_success r = false
    /\ rp_error r = Some msg
    /\ length (rp_results r) = length items
    /\ rp_passed r + rp_failed r = Z.of_nat (length items)
    /\ rp_total r = Z.of_nat (length items + 1 + length rest).
Proof.
  intros Hload Htc Hbad Himp Hdet Hget Htame.
  rewrite run_tests_finish, run_tests_try_cases, Hload.
  unfold py_get. rewrite Htc.
  assert (Htruthy : truthy (VList (map VDict items ++ bad :: rest)) = true)
    by (destruct items; reflexivity).
  rewrite Htruthy. simpl negb. cbv iota. simpl py_len. cbv iota.
  unfold load_and_run. rewrite Himp, Hdet.
  unfold namespace_getitem. rewrite Hget. simpl py_iter. cbv iota.
  rewrite for_each_app.
  destruct (for_each_tame f items Htame
              (set_rp_total
                 (Z.of_nat (length (map VDict items ++ bad :: rest)))
                 initial_report) w2)
    as [rep' [w' [Hloop Hlen]]].
  rewrite Hloop.
  destruct (for_each_run_test_case _ _ _ _ _ _ _ Hloop)
    as [_ [Ht [_ [_ [new [Hres [Hcnt Hall2]]]]]]].
  pose proof (Forall2_length (Hall2 eq_refl)) as Hlen2.
  rewrite length_map in Hlen2.
  simpl in Ht, Hres, Hcnt, Hlen.
  destruct (run_single_test_not_dict (Callable f) bad 2 w' Hbad) as [e [He Hexc]].
  simpl for_each. unfold bind at 1.
  rewrite (run_test_case_raises _ _ rep' _ _ _ He).
  unfold finish_run. rewrite Hexc.
  eexists. eexists. eexists. split; [reflexivity |].
  simpl. split; [reflexivity |]. split; [reflexivity |].
  split; [exact Hlen |].
  split.
  - rewrite Hcnt, <- Hlen2. lia.
  - rewrite Ht. rewrite length_app, length_map. simpl length. f_equal. lia.
Qed.

Lemma run_tests_tame (problem_dir solution_path : string)
    (w w1 w2 : World Heap) (problem : list (string * Value))
    (items : list (list (string * Value))) (namespace : Namespace Heap)
    (func_name : string) (f : Func Heap) :
  load_problem env problem_dir w = (Return (VDict problem), w1) ->
  dict_lookup "test_cases" problem = Some (VList (map VDict items)) ->
  (1 <= length items)%nat ->
  import_user_solution env solution_path w1 = (Return namespace, w2) ->
  detect_function_name env (VDict problem) namespace = Return func_name ->
  dict_lookup func_name namespace = Some (Callable f) ->
  tame f ->
  exists (r : RunReport) (w' : World Heap),
    run_tests env problem_dir solution_path w = (Return r, w')
    /\ rp_success r = true
    /\ rp_error r = None
    /\ length (rp_results r) = length items.
Proof.
  intros Hload Htc Hn Himp Hdet Hget Htame.
  rewrite run_tests_finish, run_tests_try_cases, Hload.
  unfold py_get. rewrite Htc.
  assert (Htruthy : truthy (VList (map VDict items)) = true)
    by (destruct items; [simpl in Hn; lia | reflexivity]).
  rewrite Htruthy. simpl negb. cbv iota. simpl py_len. cbv iota.
  unfold load_and_run. rewrite Himp, Hdet.
  unfold namespace_getitem. rewrite Hget. simpl py_iter. cbv iota.
  destruct (for_each_tame f items Htame
              (set_rp_total (Z.of_nat (length (map VDict items))) initial_report)
              w2)
    as [rep' [w' [Hloop Hlen]]].
  rewrite Hloop. unfold finish_run.
  destruct (for_each_run_test_case _ _ _ _ _ _ _ Hloop)
    as [Hs [_ [He _]]].
  exists rep', w'. split; [reflexivity |].
  split; [rewrite Hs; reflexivity |].
  split; [rewrite He; reflexivity |].
  rewrite Hlen. reflexivity.
Qed.

(** What the executor does catch.  A fault raised during the candidate
    call that is an instance of Exception (the timeout raised by the alarm
    handler, the TypeError of an argument mismatch, a runtime fault of the
    candidate) is caught inside [run_single_test] and recorded in the error
    field of the one result, which has not passed; once a test case has its
    result the loop goes on with the remaining test cases; with a tame
    candidate every test case gets its result, and the run of a loaded
    problem against it ends with a report that has [success] true and one
    result per test case. *)
Lemma exception_faults_are_recorded_and_do_not_abort :
  (forall (func : Obj Heap) (d : list (string * Value)) (t : Z)
          (w w1 : World Heap) (e : Exc),
      call_function func (input_of d) (armed t w) = (Raise e, w1) ->
      isinstance_Exception e = true ->
      exists (r : TestResult) (msg : string),
        run_single_test env func (VDict d) t w = (Return r, disarmed w1)
        /\ tr_error r = Some msg
        /\ tr_passed r = false
        /\ tr_output r = VNone)
  /\ (forall (A : Type) (e : Exc),
         @timeout_handler A = Raise e -> isinstance_Exception e = true)
  /\ (forall (func : Obj Heap) (test_case : Value) (rest : list Value)
             (rep : RunReport) (w w1 : World Heap) (r : TestResult),
         run_single_test env func test_case 2 w = (Return r, w1) ->
         for_each (test_case :: rest) (run_test_case env func) (rep, w)
         = for_each rest (run_test_case env func) (record_result r rep, w1))
  /\ (forall (f : Func Heap) (items : list (list (string * Value)))
             (rep : RunReport) (w : World Heap),
         tame f ->
         exists (rep' : RunReport) (w' : World Heap),
           for_each (map VDict items) (run_test_case env (Callable f)) (rep, w)
           = (Return tt, (rep', w'))
           /\ length (rp_results rep')
              = (length (rp_results rep) + length items)%nat)
  /\ (forall (problem_dir solution_path : string) (w w1 w2 : World Heap)
             (problem : list (string * Value))
             (items : list (list (string * Value)))
             (namespace : Namespace Heap) (func_name : string)
             (f : Func Heap),
         load_problem env problem_dir w = (Return (VDict problem), w1) ->
         dict_lookup "test_cases" problem = Some (VList (map VDict items)) ->
         (1 <= length items)%nat ->
         import_user_solution env solution_path w1 = (Return namespace, w2) ->
         detect_function_name env (VDict problem) namespace = Return func_name ->
         dict_lookup func_name namespace = Some (Callable f) ->
         tame f ->
         exists (r : RunReport) (w' : World Heap),
           run_tests env problem_dir solution_path w = (Return r, w')
           /\ rp_success r = true
           /\ rp_error r = None
           /\ length (rp_results r) = length items).
Proof.
  repeat split.
  - intros func d t w w1 e Hcall He.
    rewrite run_single_test_dict. cbv zeta. rewrite Hcall, He.
    unfold faulted_result.
    destruct (isinstance_TimeoutError e);
      eexists; eexists; repeat split; reflexivity.
  - intros A e H. apply (timeout_handler_is_Exception A e H).
  - intros func tc rest rep w w1 r Hr. simpl. unfold bind at 1.
    rewrite (run_test_case_returns _ _ rep _ _ _ Hr). reflexivity.
  - intros f items rep w Ht. apply for_each_tame. exact Ht.
  - intros pd sp w w1 w2 problem items ns name f.
    apply run_tests_tame.
Qed.

(** ** The comparator on plain data *)

Lemma all2_length {A B : Type} (p : A -> B -> bool) (l : list A) (m : list B) :
  all2 p l m = true -> length l = length m.
Proof.
  revert m. induction l as [ | x l IH ]; intros [ | y m ] H; simpl in *;
    try discriminate; [reflexivity |].
  apply andb_true_iff in H. destruct H as [_ H]. f_equal. apply IH. exact H.
Qed.

Lemma py_eq_list (l m : list Value) :
  py_eq (VList l) (VList m) = all2 py_eq l m.
Proof.
  revert m. induction l as [ | x l IH ]; intros [ | y m ]; try reflexivity.
  simpl. f_equal. apply IH.
Qed.

Lemma py_eq_tuple (l m : list Value) :
  py_eq (VTuple l) (VTuple m) = all2 py_eq l m.
Proof.
  revert m. induction l as [ | x l IH ]; intros [ | y m ]; try reflexivity.
  simpl. f_equal. apply IH.
Qed.

Lemma py_eq_dict (d e : list (string * Value)) :
  py_eq (VDict d) (VDict e)
  = (Z.of_nat (length d) =? Z.of_nat (length e)) && dict_all_in e d.
Proof.
  simpl. f_equal.
  induction d as [ | [k v] d IH ]; [reflexivity |].
  simpl. destruct (dict_lookup k e); [| reflexivity].
  f_equal. exact IH.
Qed.

Lemma py_eq_None_r (x : Value) : py_eq x VNone = is_None x.
Proof. destruct x; reflexivity. Qed.

Lemma comparator_py_eq (x y : Value) : comparator x y = py_eq x y.
Proof.
  unfold comparator. destruct (is_None y) eqn:Hy.
  - apply is_None_true in Hy. subst y. symmetry. apply py_eq_None_r.
  - destruct y; destruct x; try reflexivity.
    unfold isinstance_list, list_len, andb.
    destruct (Z.of_nat (length l) =? Z.of_nat (length l0)) eqn:E;
      [reflexivity |].
    simpl negb. cbv iota. symmetry. apply not_true_is_false. intros H.
    rewrite py_eq_list in H. apply all2_length in H.
    rewrite H, Z.eqb_refl in E. discriminate.
Qed.

Lemma compare_outputs_py_eq (actual expected : Value) :
  compare_outputs actual expected
  = py_eq (normalize_output actual) (normalize_output expected).
Proof. unfold compare_outputs. apply comparator_py_eq. Qed.

(** X4. On plain data the special cases of [compare_outputs] never change
    the verdict: the comparison is the equality [==] of the two normalized
    values, also when the expected value is [None] and when both are lists
    of different lengths. *)
Theorem compare_outputs_is_equality_of_normalized_values :
  forall actual expected : Value,
    compare_outputs actual expected
    = py_eq (normalize_output actual) (normalize_output expected).
Proof.
  intros actual expected. unfold compare_outputs. apply comparator_py_eq.
Qed.

(** *** Floats: NaN and the symmetry of [==] *)

Lemma SFeqb_refl (x : spec_float) : SFeqb x x = false -> x = S754_nan.
Proof.
  destruct x as [ s | s | | s m e ]; unfold SFeqb, SFcompare;
    try (destruct s; discriminate); [reflexivity |].
  rewrite Z.compare_refl, Pos.compare_cont_refl. destruct s; discriminate.
Qed.

Lemma SFeqb_sym (x y : spec_float) : SFeqb x y = SFeqb y x.
Proof.
  destruct x as [ s | s | | s m e ]; destruct y as [ t | t | | t n f ];
    unfold SFeqb, SFcompare; try reflexivity;
    try (destruct s; reflexivity); try (destruct t; reflexivity);
    try (destruct s; destruct t; reflexivity).
  pose proof (Z.compare_antisym e f) as He.
  pose proof (Pos.compare_cont_antisym m n Eq) as Hm. simpl in Hm.
  destruct (e ?= f); destruct (f ?= e); try discriminate He;
    destruct (Pos.compare_cont Eq m n); destruct (Pos.compare_cont Eq n m);
    try discriminate Hm; destruct s; destruct t; reflexivity.
Qed.

Lemma is_nan_Prim2SF (f : float) :
  PrimFloat.is_nan f = true <-> Prim2SF f = S754_nan.
Proof.
  unfold PrimFloat.is_nan. rewrite FloatAxioms.eqb_spec. split.
  - intros H. apply SFeqb_refl. apply negb_true_iff. exact H.
  - intros H. rewrite H. reflexivity.
Qed.

Lemma float_eqb_sym (x y : float) : PrimFloat.eqb x y = PrimFloat.eqb y x.
Proof. rewrite !FloatAxioms.eqb_spec. apply SFeqb_sym. Qed.

Lemma float_eqb_nan_r (x y : float) :
  PrimFloat.is_nan y = true -> PrimFloat.eqb x y = false.
Proof.
  intros H. apply is_nan_Prim2SF in H. rewrite FloatAxioms.eqb_spec, H.
  destruct (Prim2SF x); reflexivity.
Qed.

Lemma float_eqb_refl (x : float) :
  PrimFloat.is_nan x = false -> PrimFloat.eqb x x = true.
Proof. unfold PrimFloat.is_nan. intros H. apply negb_false_iff. exact H. Qed.

Lemma float_eq_int_nan (f : float) (n : Z) :
  PrimFloat.is_nan f = true -> float_eq_int f n = false.
Proof.
  intros H. apply is_nan_Prim2SF in H. unfold float_eq_int. rewrite H.
  reflexivity.
Qed.

Lemma py_round_nan (f : float) (ndigits : Z) :
  PrimFloat.is_nan f = true -> py_round f ndigits = f.
Proof.
  intros H. apply is_nan_Prim2SF in H. unfold py_round. rewrite H. reflexivity.
Qed.

(** *** Dicts with distinct keys *)

Lemma distinct_NoDup (keys : list string) : distinct keys = true <-> NoDup keys.
Proof.
  induction keys as [ | k r IH ]; simpl.
  - split; [intros _; constructor | reflexivity].
  - rewrite andb_true_iff, negb_true_iff, IH. split.
    + intros [Hk Hr]. constructor; [| exact Hr].
      intros Hin. apply not_true_iff_false in Hk. apply Hk.
      apply existsb_exists. exists k.
      split; [exact Hin | apply String.eqb_refl].
    + intros H. inversion H as [ | ? ? Hk Hr ]; subst. split; [| exact Hr].
      apply not_true_iff_false. intros Hex. apply existsb_exists in Hex.
      destruct Hex as [x [Hin Heq]]. apply String.eqb_eq in Heq. subst x.
      contradiction.
Qed.

Lemma well_formed_dict (d : list (string * Value)) :
  well_formed (VDict d) = true
  <-> NoDup (map fst d) /\ forall k v, In (k, v) d -> well_formed v = true.
Proof.
  simpl. rewrite andb_true_iff, distinct_NoDup, forallb_forall. split.
  - intros [Hnd Hall]. split; [exact Hnd |].
    intros k v Hin. exact (Hall (k, v) Hin).
  - intros [Hnd Hall]. split; [exact Hnd |].
    intros [k v] Hin. exact (Hall k v Hin).
Qed.

Lemma dict_lookup_In {A : Type} (k : string) (d : list (string * A)) (v : A) :
  dict_lookup k d = Some v -> In (k, v) d.
Proof.
  induction d as [ | [k' v'] d IH ]; simpl; [discriminate |].
  destruct (String.eqb_spec k' k) as [-> | Hne].
  - intros H. inversion H. left. reflexivity.
  - intros H. right. apply IH. exact H.
Qed.

Lemma dict_lookup_NoDup {A : Type} (k : string) (d : list (string * A)) (v : A) :
  NoDup (map fst d) -> In (k, v) d -> dict_lookup k d = Some v.
Proof.
  induction d as [ | [k' v'] d IH ]; simpl; [intros _ [] |].
  intros Hnd [Heq | Hin].
  - inversion Heq. subst. rewrite String.eqb_refl. reflexivity.
  - inversion Hnd as [ | ? ? Hk Hr ]; subst.
    destruct (String.eqb_spec k' k) as [-> | Hne].
    + exfalso. apply Hk. apply in_map_iff. exists (k, v).
      split; [reflexivity | exact Hin].
    + apply IH; assumption.
Qed.

Lemma dict_all_in_spec (e d : list (string * Value)) :
  dict_all_in e d = true
  <-> forall k v, In (k, v) d ->
        exists w, dict_lookup k e = Some w /\ py_eq v w = true.
Proof.
  unfold dict_all_in. rewrite forallb_forall. split.
  - intros H k v Hin. specialize (H (k, v) Hin). simpl in H.
    destruct (dict_lookup k e) as [w | ]; [| discriminate].
    exists w. split; [reflexivity | exact H].
  - intros H [k v] Hin. simpl. destruct (H k v Hin) as [w [Hw Heq]].
    rewrite Hw. exact Heq.
Qed.

Lemma py_eq_dict_true (d e : list (string * Value)) :
  py_eq (VDict d) (VDict e) = true
  <-> length d = length e
      /\ forall k v, In (k, v) d ->
           exists w, dict_lookup k e = Some w /\ py_eq v w = true.
Proof.
  rewrite py_eq_dict, andb_true_iff, Z.eqb_eq, dict_all_in_spec, Nat2Z.inj_iff.
  reflexivity.
Qed.

(** Equal dicts have the same keys. *)
Lemma py_eq_dict_keys (d e : list (string * Value)) :
  NoDup (map fst d) ->
  py_eq (VDict d) (VDict e) = true ->
  forall k w, In (k, w) e -> exists v, In (k, v) d.
Proof.
  intros Hnd Heq k w Hin. apply py_eq_dict_true in Heq.
  destruct Heq as [Hlen Hall].
  assert (Hincl : incl (map fst d) (map fst e)).
  { intros x Hx. apply in_map_iff in Hx. destruct Hx as [[x' v] [Hfst Hx]].
    simpl in Hfst. subst x'. destruct (Hall x v Hx) as [w' [Hw' _]].
    apply dict_lookup_In in Hw'. apply in_map_iff. exists (x, w').
    split; [reflexivity | exact Hw']. }
  assert (Hback : incl (map fst e) (map fst d)).
  { apply NoDup_length_incl; [exact Hnd | | exact Hincl].
    rewrite !length_map, Hlen. apply le_n. }
  assert (Hk : In k (map fst d)).
  { apply Hback. apply in_map_iff. exists (k, w). split; [reflexivity | exact Hin]. }
  apply in_map_iff in Hk. destruct Hk as [[k' v] [Hfst Hk]]. simpl in Hfst.
  subst k'. exists v. exact Hk.
Qed.

Lemma py_eq_dict_swap (d e : list (string * Value)) :
  NoDup (map fst d) -> NoDup (map fst e) ->
  (forall k v w, In (k, v) d -> In (k, w) e ->
                 py_eq v w = true -> py_eq w v = true) ->
  py_eq (VDict d) (VDict e) = true -> py_eq (VDict e) (VDict d) = true.
Proof.
  intros Hd He Hsym Heq.
  pose proof (py_eq_dict_keys d e Hd Heq) as Hkeys.
  apply py_eq_dict_true in Heq. destruct Heq as [Hlen Hall].
  apply py_eq_dict_true. split; [symmetry; exact Hlen |].
  intros k w Hin. destruct (Hkeys k w Hin) as [v Hv].
  exists v. split; [apply dict_lookup_NoDup; assumption |].
  destruct (Hall k v Hv) as [w' [Hw' Hvw]].
  rewrite (dict_lookup_NoDup k e w He Hin) in Hw'. inversion Hw'. subst w'.
  exact (Hsym k v w Hv Hin Hvw).
Qed.

(** *** Symmetry *)

Lemma all2_sym (l m : list Value) :
  Forall (fun x => well_formed x = true ->
                   forall b, well_formed b = true -> py_eq x b = py_eq b x) l ->
  forallb well_formed l = true -> forallb well_formed m = true ->
  all2 py_eq l m = all2 py_eq m l.
Proof.
  intros HF. revert m. induction HF as [ | x l Hx HF IH ];
    intros [ | y m ] Hl Hm; try reflexivity.
  simpl in Hl, Hm. apply andb_true_iff in Hl. apply andb_true_iff in Hm.
  destruct Hl as [Hx1 Hl]. destruct Hm as [Hy Hm]. simpl.
  rewrite (Hx Hx1 y Hy), (IH m Hl Hm). reflexivity.
Qed.

Lemma py_eq_sym (a : Value) :
  well_formed a = true ->
  forall b, well_formed b = true -> py_eq a b = py_eq b a.
Proof.
  induction a as [ | x | x | x | x | l IH | l IH | d IH ] using Value_nested_ind;
    intros Ha b Hb.
  - destruct b; reflexivity.
  - destruct b; try reflexivity; simpl.
    + destruct x; destruct b; reflexivity.
    + apply Z.eqb_sym.
  - destruct b; try reflexivity; simpl; apply Z.eqb_sym.
  - destruct b; try reflexivity. simpl. apply float_eqb_sym.
  - destruct b; try reflexivity. simpl. apply String.eqb_sym.
  - destruct b; try reflexivity. rewrite !py_eq_list.
    apply all2_sym; assumption.
  - destruct b; try reflexivity. rewrite !py_eq_tuple.
    apply all2_sym; assumption.
  - destruct b as [ | | | | | | | e ]; try reflexivity.
    apply well_formed_dict in Ha. destruct Ha as [Hd Hwd].
    apply well_formed_dict in Hb. destruct Hb as [He Hwe].
    rewrite Forall_forall in IH.
    assert (Hsym : forall k v w, In (k, v) d -> In (k, w) e ->
                                 py_eq v w = py_eq w v).
    { intros k v w Hv Hw.
      exact (IH (k, v) Hv (Hwd k v Hv) w (Hwe k w Hw)). }
    destruct (py_eq (VDict d) (VDict e)) eqn:E1.
    + symmetry. apply py_eq_dict_swap; try assumption.
      intros k v w Hv Hw H. rewrite <- (Hsym k v w Hv Hw). exact H.
    + symmetry. apply not_true_iff_false. intros E2.
      apply not_true_iff_false in E1. apply E1.
      apply py_eq_dict_swap; try assumption.
      intros k w v Hw Hv H. rewrite (Hsym k v w Hv Hw). exact H.
Qed.

Lemma well_formed_normalize (v : Value) :
  well_formed (normalize_output v) = well_formed v.
Proof.
  induction v as [ | x | x | x | x | l IH | l IH | d IH ] using Value_nested_ind;
    try reflexivity.
  - simpl. induction IH as [ | x l Hx _ IHl ]; [reflexivity |].
    simpl. rewrite Hx, IHl. reflexivity.
  - simpl. induction IH as [ | x l Hx _ IHl ]; [reflexivity |].
    simpl. rewrite Hx, IHl. reflexivity.
  - simpl. rewrite map_map. simpl. f_equal.
    induction IH as [ | x l Hx _ IHl ]; [reflexivity |].
    simpl. rewrite Hx, IHl. reflexivity.
Qed.

(** X5. On plain data [compare_outputs] is symmetric: exchanging the actual
    output and the expected value never changes the verdict. *)
Theorem compare_outputs_is_symmetric (actual expected : Value) :
  well_formed actual = true -> well_formed expected = true ->
  compare_outputs actual expected = compare_outputs expected actual.
Proof.
  intros Ha He.
  rewrite !compare_outputs_py_eq.
  apply py_eq_sym; rewrite well_formed_normalize; assumption.
Qed.

(** *** Rounding never makes a NaN *)

Lemma iter_pos_invariant {A : Type} (I : A -> Prop) (f : A -> A) :
  (forall x, I x -> I (f x)) ->
  forall (p : positive) (x : A), I x -> I (iter_pos f p x).
Proof.
  intros Hf. induction p as [ p IH | p IH | ]; intros x Hx; simpl.
  - apply IH, IH, Hf, Hx.
  - apply IH, IH, Hx.
  - apply Hf, Hx.
Qed.

Lemma shr_1_nonneg (mrs : shr_record) : 0 <= shr_m mrs -> 0 <= shr_m (shr_1 mrs).
Proof.
  destruct mrs as [m r s]. simpl. intros Hm.
  destruct m as [ | [ p | p | ] | p ]; simpl; lia.
Qed.

Lemma shr_fexp_nonneg (m e : Z) (l : location) :
  0 <= m -> 0 <= shr_m (fst (shr_fexp prec emax m e l)).
Proof.
  intros Hm. unfold shr_fexp, shr.
  assert (H0 : 0 <= shr_m (shr_record_of_loc m l))
    by (destruct l as [ | [ | | ] ]; exact Hm).
  destruct (fexp prec emax (Zdigits2 m + e) - e) as [ | p | p ]; simpl;
    try exact H0.
  apply (iter_pos_invariant (fun mrs => 0 <= shr_m mrs)); [| exact H0].
  exact shr_1_nonneg.
Qed.

Lemma round_nearest_even_nonneg (m : Z) (l : location) :
  0 <= m -> 0 <= round_nearest_even m l.
Proof.
  intros Hm. unfold round_nearest_even.
  destruct l as [ | [ | | ] ]; try destruct (Z.even m); lia.
Qed.

Lemma binary_round_aux_not_nan (sx : bool) (mx ex : Z) (lx : location) :
  0 <= mx -> binary_round_aux prec emax sx mx ex lx <> S754_nan.
Proof.
  intros Hm. unfold binary_round_aux.
  pose proof (shr_fexp_nonneg mx ex lx Hm) as H1.
  destruct (shr_fexp prec emax mx ex lx) as [mrs' e']. simpl in H1.
  pose proof (shr_fexp_nonneg
                (round_nearest_even (shr_m mrs') (loc_of_shr_record mrs')) e'
                loc_Exact (round_nearest_even_nonneg _ _ H1)) as H2.
  destruct (shr_fexp prec emax
              (round_nearest_even (shr_m mrs') (loc_of_shr_record mrs')) e'
              loc_Exact) as [mrs'' e'']. simpl in H2.
  destruct (shr_m mrs'') as [ | p | p ]; [discriminate | | lia].
  destruct (e'' <=? emax - prec); discriminate.
Qed.

Lemma binary_round_not_nan (sx : bool) (mx : positive) (ex : Z) :
  binary_round prec emax sx mx ex <> S754_nan.
Proof.
  unfold binary_round.
  destruct (shl_align mx ex (fexp prec emax (Z.pos (digits2_pos mx) + ex)))
    as [mz ez].
  apply binary_round_aux_not_nan. lia.
Qed.

Lemma SFdiv_finite_not_nan (sx sy : bool) (mx my : positive) (ex ey : Z) :
  SFdiv prec emax (S754_finite sx mx ex) (S754_finite sy my ey) <> S754_nan.
Proof.
  unfold SFdiv, SFdiv_core_binary.
  set (e' := Z.min _ _). set (m' := match ex - ey - e' with
                                    | 0 => Z.pos mx
                                    | Z.pos _ => Z.shiftl (Z.pos mx) (ex - ey - e')
                                    | Z.neg _ => 0
                                    end).
  assert (Hm' : 0 <= m').
  { unfold m'. destruct (ex - ey - e') as [ | p | p ]; try lia.
    apply Z.shiftl_nonneg. lia. }
  pose proof (Z.div_pos m' (Z.pos my) Hm' ltac:(lia)) as Hq.
  unfold Z.div in Hq.
  destruct (Z.div_eucl m' (Z.pos my)) as [q r]. simpl in Hq.
  apply binary_round_aux_not_nan. exact Hq.
Qed.

Lemma SF2Prim_not_nan (y : spec_float) :
  y <> S754_nan -> PrimFloat.is_nan (SF2Prim y) = false.
Proof.
  intros Hy. apply not_true_iff_false. intros Hnan.
  apply is_nan_Prim2SF in Hnan.
  destruct y as [ [ | ] | [ | ] | | s m e ]; try discriminate Hnan;
    [contradiction |].
  unfold SF2Prim in Hnan.
  assert (Hf : Prim2SF (Z.ldexp (of_uint63 (Uint63.of_Z (Z.pos m))) e)
               <> S754_nan).
  { unfold Z.ldexp. rewrite ldshiftexp_spec, of_uint63_spec.
    unfold binary_normalize.
    destruct (Uint63.to_Z (Uint63.of_Z (Z.pos m))) as [ | p | p ];
      [discriminate | |].
    - pose proof (binary_round_not_nan false p 0) as Hp.
      destruct (binary_round prec emax false p 0) as [ | | | s' m' e' ];
        try discriminate; [contradiction |].
      apply binary_round_not_nan.
    - pose proof (binary_round_not_nan true p 0) as Hp.
      destruct (binary_round prec emax true p 0) as [ | | | s' m' e' ];
        try discriminate; [contradiction |].
      apply binary_round_not_nan. }
  destruct s; [| contradiction].
  rewrite opp_spec in Hnan.
  destruct (Prim2SF (Z.ldexp (of_uint63 (Uint63.of_Z (Z.pos m))) e));
    try discriminate Hnan. contradiction.
Qed.

Lemma is_nan_py_round (f : float) (ndigits : Z) :
  PrimFloat.is_nan (py_round f ndigits) = PrimFloat.is_nan f.
Proof.
  destruct (PrimFloat.is_nan f) eqn:Hf.
  - rewrite (py_round_nan f ndigits Hf). exact Hf.
  - unfold py_round. destruct (Prim2SF f) as [ | | | s m e ] eqn:E;
      try exact Hf.
    unfold float_of_decimal.
    destruct (scaled_digits m e ndigits) as [ | p | p ];
      apply SF2Prim_not_nan; try discriminate.
    apply SFdiv_finite_not_nan.
Qed.

(** *** NaN and exact matches *)

Lemma existsb_flat_map {A B : Type} (p : B -> bool) (g : A -> list B)
    (l : list A) :
  existsb p (flat_map g l) = existsb (fun x => existsb p (g x)) l.
Proof.
  induction l as [ | x l IH ]; [reflexivity |].
  simpl. rewrite existsb_app, IH. reflexivity.
Qed.

Lemma contains_nan_normalize (v : Value) :
  contains_nan (normalize_output v) = contains_nan v.
Proof.
  unfold contains_nan. rewrite floats_in_normalize.
  induction (floats_in v) as [ | f l IH ]; [reflexivity |].
  simpl. rewrite is_nan_py_round, IH. reflexivity.
Qed.

Lemma all2_false (l m : list Value) :
  (exists y, In y l /\ forall x, well_formed x = true -> py_eq x y = false) ->
  forallb well_formed m = true ->
  all2 py_eq m l = false.
Proof.
  intros [y [Hin Hy]]. revert m.
  induction l as [ | z l IH ]; [destruct Hin |].
  intros [ | x m ] Hm; [reflexivity |].
  simpl in Hm. apply andb_true_iff in Hm. destruct Hm as [Hx Hm]. simpl.
  destruct Hin as [-> | Hin].
  - rewrite (Hy x Hx). reflexivity.
  - rewrite (IH Hin m Hm). apply andb_false_r.
Qed.

Lemma py_eq_nan (e : Value) :
  well_formed e = true -> contains_nan e = true ->
  forall a, well_formed a = true -> py_eq a e = false.
Proof.
  induction e as [ | x | x | x | x | l IH | l IH | d IH ] using Value_nested_ind;
    intros He Hnan a Ha; try discriminate Hnan.
  - unfold contains_nan in Hnan. simpl in Hnan. rewrite orb_false_r in Hnan.
    destruct a; try reflexivity; simpl.
    + apply float_eq_int_nan. exact Hnan.
    + apply float_eq_int_nan. exact Hnan.
    + apply float_eqb_nan_r. exact Hnan.
  - destruct a as [ | | | | | m | m | ]; try reflexivity.
    rewrite py_eq_list. apply all2_false; [| exact Ha].
    unfold contains_nan in Hnan. simpl in Hnan.
    rewrite existsb_flat_map in Hnan. apply existsb_exists in Hnan.
    destruct Hnan as [y [Hin Hy]]. exists y. split; [exact Hin |].
    rewrite Forall_forall in IH. simpl in He. rewrite forallb_forall in He.
    intros x Hx. exact (IH y Hin (He y Hin) Hy x Hx).
  - destruct a as [ | | | | | m | m | ]; try reflexivity.
    rewrite py_eq_tuple. apply all2_false; [| exact Ha].
    unfold contains_nan in Hnan. simpl in Hnan.
    rewrite existsb_flat_map in Hnan. apply existsb_exists in Hnan.
    destruct Hnan as [y [Hin Hy]]. exists y. split; [exact Hin |].
    rewrite Forall_forall in IH. simpl in He. rewrite forallb_forall in He.
    intros x Hx. exact (IH y Hin (He y Hin) Hy x Hx).
  - destruct a as [ | | | | | | | c ]; try reflexivity.
    apply not_true_iff_false. intros Heq.
    apply well_formed_dict in He. destruct He as [Hd Hwd].
    apply well_formed_dict in Ha. destruct Ha as [Hc Hwc].
    unfold contains_nan in Hnan. simpl in Hnan.
    rewrite existsb_flat_map in Hnan. apply existsb_exists in Hnan.
    destruct Hnan as [[k y] [Hin Hy]]. simpl in Hy.
    destruct (py_eq_dict_keys c d Hc Heq k y Hin) as [v Hv].
    apply py_eq_dict_true in Heq. destruct Heq as [_ Hall].
    destruct (Hall k v Hv) as [w [Hw Hvw]].
    rewrite (dict_lookup_NoDup k d y Hd Hin) in Hw. inversion Hw. subst w.
    rewrite Forall_forall in IH.
    pose proof (IH (k, y) Hin (Hwd k y Hin) Hy v (Hwc k v Hv)) as Hne.
    simpl in Hne. rewrite Hne in Hvw. discriminate.
Qed.

Lemma all2_refl (l : list Value) :
  Forall (fun x => py_eq x x = true) l -> all2 py_eq l l = true.
Proof.
  induction 1 as [ | x l Hx _ IH ]; [reflexivity |].
  simpl. rewrite Hx, IH. reflexivity.
Qed.

Lemma py_eq_refl (v : Value) :
  well_formed v = true -> contains_nan v = false -> py_eq v v = true.
Proof.
  induction v as [ | x | x | x | x | l IH | l IH | d IH ] using Value_nested_ind;
    intros Hv Hnan.
  - reflexivity.
  - simpl. destruct x; reflexivity.
  - simpl. apply Z.eqb_refl.
  - simpl. apply float_eqb_refl. unfold contains_nan in Hnan. simpl in Hnan.
    rewrite orb_false_r in Hnan. exact Hnan.
  - simpl. apply String.eqb_refl.
  - rewrite py_eq_list. apply all2_refl.
    unfold contains_nan in Hnan. simpl in Hnan, Hv.
    rewrite existsb_flat_map in Hnan.
    rewrite forallb_forall in Hv. rewrite Forall_forall in IH.
    apply Forall_forall. intros x Hx. apply (IH x Hx (Hv x Hx)).
    apply not_true_iff_false. intros H. apply not_true_iff_false in Hnan.
    apply Hnan. apply existsb_exists. exists x. split; assumption.
  - rewrite py_eq_tuple. apply all2_refl.
    unfold contains_nan in Hnan. simpl in Hnan, Hv.
    rewrite existsb_flat_map in Hnan.
    rewrite forallb_forall in Hv. rewrite Forall_forall in IH.
    apply Forall_forall. intros x Hx. apply (IH x Hx (Hv x Hx)).
    apply not_true_iff_false. intros H. apply not_true_iff_false in Hnan.
    apply Hnan. apply existsb_exists. exists x. split; assumption.
  - apply well_formed_dict in Hv. destruct Hv as [Hd Hwd].
    apply py_eq_dict_true. split; [reflexivity |].
    intros k v Hin. exists v. split; [apply dict_lookup_NoDup; assumption |].
    rewrite Forall_forall in IH. apply (IH (k, v) Hin (Hwd k v Hin)).
    unfold contains_nan in Hnan. simpl in Hnan.
    rewrite existsb_flat_map in Hnan.
    apply not_true_iff_false. intros H. apply not_true_iff_false in Hnan.
    apply Hnan. apply existsb_exists. exists (k, v). split; assumption.
Qed.

(** X6. A test case whose expected value holds a NaN can never pass, and an
    output that holds a NaN never passes: [round] keeps a NaN and a NaN
    differs from every value, itself included. *)
Theorem nan_never_passes (actual expected : Value) :
  well_formed actual = true -> well_formed expected = true ->
  contains_nan actual = true \/ contains_nan expected = true ->
  compare_outputs actual expected = false.
Proof.
  intros Ha He [Hnan | Hnan]; rewrite compare_outputs_py_eq.
  - rewrite py_eq_sym by (rewrite well_formed_normalize; assumption).
    apply py_eq_nan; rewrite ?well_formed_normalize, ?contains_nan_normalize;
      assumption.
  - apply py_eq_nan; rewrite ?well_formed_normalize, ?contains_nan_normalize;
      assumption.
Qed.

Lemma normalize_listify (v : Value) :
  normalize_output (listify v) = normalize_output v.
Proof.
  induction v as [ | x | x | x | x | l IH | l IH | d IH ] using Value_nested_ind;
    try reflexivity; simpl; f_equal; rewrite map_map;
    rewrite Forall_forall in IH; apply map_ext_in; intros x Hx; simpl;
    rewrite (IH x Hx); reflexivity.
Qed.

(** X8. Tuples and lists are interchangeable for the comparison, at any
    depth and on both sides, although a tuple never equals a list under
    [==]: replacing every tuple of the output or of the expected value by
    the list of its elements never changes the verdict. *)
Theorem tuples_compare_as_lists :
  (forall actual expected : Value,
      compare_outputs (listify actual) expected
      = compare_outputs actual expected
      /\ compare_outputs actual (listify expected)
         = compare_outputs actual expected)
  /\ (forall l m : list Value, py_eq (VTuple l) (VList m) = false).
Proof.
  split.
  - intros actual expected. unfold compare_outputs.
    rewrite !normalize_listify. split; reflexivity.
  - intros l m. reflexivity.
Qed.

(** ** The recursion limit *)

Lemma collect_within {A B : Type} (size : A -> nat) (g : A -> Res B)
    (h : A -> B) (n : nat) (l : list A) :
  (forall x, ((size x <= n)%nat /\ g x = Return (h x))
             \/ ((n < size x)%nat /\ g x = Raise RecursionError)) ->
  ((fold_right (fun x m => Nat.max (size x) m) O l <= n)%nat
   /\ collect (map g l) = Return (map h l))
  \/ ((n < fold_right (fun x m => Nat.max (size x) m) O l)%nat
      /\ collect (map g l) = Raise RecursionError).
Proof.
  intros Hg. induction l as [ | x l IH ].
  - left. split; [simpl; lia | reflexivity].
  - simpl. destruct (Hg x) as [[Hx Ex] | [Hx Ex]]; rewrite Ex.
    + destruct IH as [[Hl El] | [Hl El]]; rewrite El.
      * left. split; [lia | reflexivity].
      * right. split; [lia | reflexivity].
    + right. split; [lia | reflexivity].
Qed.

(** A call of [normalize_output] returns what the function computes when
    the value is nested within the limit, and raises RecursionError when it
    is not. *)
Lemma normalize_output_call_cases (levels : nat) :
  forall v : Value,
    ((nesting v <= levels)%nat
     /\ normalize_output_call levels v = Return (normalize_output v))
    \/ ((levels < nesting v)%nat
        /\ normalize_output_call levels v = Raise RecursionError).
Proof.
  induction levels as [ | n IH ]; intros v.
  - right. split; [destruct v; simpl; lia | reflexivity].
  - destruct v as [ | b | i | f | s | l | l | d ];
      try (left; split; [simpl; lia | reflexivity]).
    + simpl.
      destruct (collect_within nesting (normalize_output_call n)
                  normalize_output n l IH) as [[Hl El] | [Hl El]]; rewrite El.
      * left. split; [lia | reflexivity].
      * right. split; [lia | reflexivity].
    + simpl.
      destruct (collect_within nesting (normalize_output_call n)
                  normalize_output n l IH) as [[Hl El] | [Hl El]]; rewrite El.
      * left. split; [lia | reflexivity].
      * right. split; [lia | reflexivity].
    + simpl.
      destruct (collect_within (fun kv : string * Value => nesting (snd kv))
                  (fun kv => res_map (pair (fst kv))
                               (normalize_output_call n (snd kv)))
                  (fun kv => (fst kv, normalize_output (snd kv))) n d)
        as [[Hl El] | [Hl El]].
      * intros kv. destruct (IH (snd kv)) as [[Hx Ex] | [Hx Ex]]; rewrite Ex.
        -- left. split; [exact Hx | reflexivity].
        -- right. split; [exact Hx | reflexivity].
      * rewrite El. left. split; [lia | reflexivity].
      * rewrite El. right. split; [lia | reflexivity].
Qed.

Lemma normalize_output_call_within (levels : nat) (v : Value) :
  (nesting v <= levels)%nat ->
  normalize_output_call levels v = Return (normalize_output v).
Proof.
  intros H. destruct (normalize_output_call_cases levels v) as [[_ E] | [Hn _]];
    [exact E | lia].
Qed.

Lemma normalize_output_call_beyond (levels : nat) (v : Value) :
  (levels < nesting v)%nat ->
  normalize_output_call levels v = Raise RecursionError.
Proof.
  intros H. destruct (normalize_output_call_cases levels v) as [[Hn _] | [_ E]];
    [lia | exact E].
Qed.

Lemma compare_outputs_call_within (levels : nat) (actual expected : Value) :
  (nesting actual <= levels)%nat -> (nesting expected <= levels)%nat ->
  compare_outputs_call levels actual expected
  = Return (compare_outputs actual expected).
Proof.
  intros Ha He. unfold compare_outputs_call, compare_outputs.
  rewrite (normalize_output_call_within _ _ Ha),
    (normalize_output_call_within _ _ He).
  reflexivity.
Qed.

Lemma compare_outputs_call_beyond (levels : nat) (v other : Value) :
  (levels < nesting v)%nat ->
  compare_outputs_call levels v other = Raise RecursionError
  /\ compare_outputs_call levels other v = Raise RecursionError.
Proof.
  intros Hv. unfold compare_outputs_call.
  rewrite (normalize_output_call_beyond _ _ Hv). split; [reflexivity |].
  destruct (normalize_output_call_cases levels other) as [[_ E] | [_ E]];
    rewrite E; reflexivity.
Qed.

(** ** The comparison of the code and the one of the specification *)

Lemma spec_normalize_normalize_output (v : Value) :
  normalize_output v = spec_normalize v.
Proof.
  induction v as [ | x | x | x | x | l IH | l IH | d IH ] using Value_nested_ind;
    try reflexivity; simpl; f_equal;
    rewrite Forall_forall in IH; apply map_ext_in; intros x Hx;
    rewrite (IH x Hx); reflexivity.
Qed.

Lemma spec_comparator_comparator (actual expected : Value) :
  comparator actual expected = spec_comparator actual expected.
Proof.
  unfold comparator, spec_comparator.
  destruct expected as [ | | | | | e | | ]; destruct actual as [ | | | | | a | | ];
    try reflexivity.
  unfold is_None, isinstance_list, list_len, andb.
  rewrite py_eq_list.
  destruct (Nat.eqb_spec (length a) (length e)) as [Hlen | Hlen].
  - rewrite Hlen, Z.eqb_refl. reflexivity.
  - destruct (Z.eqb_spec (Z.of_nat (length e)) (Z.of_nat (length a))) as [H | H];
      [apply Nat2Z.inj in H; congruence | reflexivity].
Qed.

Lemma compare_outputs_spec_passed (actual expected : Value) :
  compare_outputs actual expected = spec_passed actual expected.
Proof.
  unfold compare_outputs, spec_passed.
  rewrite spec_comparator_comparator, !spec_normalize_normalize_output.
  reflexivity.
Qed.

Lemma normalize_output_map_floats (v : Value) :
  normalize_output v = map_floats (fun f => py_round f 6) (listify v).
Proof.
  induction v as [ | x | x | x | x | l IH | l IH | d IH ] using Value_nested_ind;
    try reflexivity; simpl; f_equal; rewrite map_map;
    rewrite Forall_forall in IH; apply map_ext_in; intros x Hx;
    rewrite (IH x Hx); reflexivity.
Qed.


(** C9, as amended. A call of [normalize_output] on a value that is nested
    within the recursion limit returns the value with every tuple turned
    into a list and every float [f], at any depth of lists, tuples and dict
    values, replaced by [round(f, 6)]; the comparison is the equality of two
    such values.  [round(f, 6)] of a finite float [f] keeps the sign of
    [f]; its digits [k] are the integer nearest to [|f| * 10^6] (half to
    even), and it is the double nearest to [k / 10^6] (its mantissa is even
    when another double is as near), a zero when [k] is 0.  Infinities and
    NaN round to themselves.  Two floats compare equal exactly when they
    round to the same double: 0.1 + 0.2 and 0.3 do, also inside containers,
    and so do two floats that differ from the seventh digit on, while floats
    that differ in the sixth digit do not.  On a value nested deeper than
    the limit allows the call raises RecursionError and nothing is
    compared. *)
Theorem floats_round_to_6_digits_before_comparison :
  (forall (levels : nat) (v : Value),
      (nesting v <= levels)%nat ->
      normalize_output_call levels v = Return (normalize_output v))
  /\ (forall v : Value,
         normalize_output v = map_floats (fun f => py_round f 6) (listify v)
         /\ floats_in (normalize_output v)
            = map (fun f => py_round f 6) (floats_in v))
  /\ (forall (levels : nat) (actual expected : Value),
         (nesting actual <= levels)%nat -> (nesting expected <= levels)%nat ->
         compare_outputs_call levels actual expected
         = Return (py_eq (normalize_output actual) (normalize_output expected)))
  /\ (forall (levels : nat) (v other : Value),
         (levels < nesting v)%nat ->
         normalize_output_call levels v = Raise RecursionError
         /\ compare_outputs_call levels v other = Raise RecursionError
         /\ compare_outputs_call levels other v = Raise RecursionError)
  /\ (forall f : float,
         match Prim2SF f with
         | S754_finite s m e =>
             let (n, d) := scaled_fraction m e 6 in
             exists k : Z,
               py_round f 6 = float_of_decimal s k 6
               /\ 0 < d /\ 0 <= k
               /\ 2 * Z.abs (k * d - n) <= d
               /\ (2 * Z.abs (k * d - n) = d -> Z.even k = true)
               /\ match k with
                  | 0 => Prim2SF (py_round f 6) = S754_zero s
                  | _ =>
                      exists (m' : positive) (e' : Z),
                        Prim2SF (py_round f 6) = S754_finite s m' e'
                        /\ bounded prec emax m' e' = true
                        /\ forall (m2 : positive) (e2 : Z),
                             bounded prec emax m2 e2 = true ->
                             decimal_distance m' e' k
                             <= decimal_distance m2 e2 k
                             /\ (decimal_distance m' e' k
                                 = decimal_distance m2 e2 k ->
                                 Z.pos m2 * 2 ^ (e2 + 1074)
                                 = Z.pos m' * 2 ^ (e' + 1074)
                                 \/ Z.even (Z.pos m') = true)
                  end
         | _ => py_round f 6 = f
         end)
  /\ (forall x y : float,
         compare_outputs (VFloat x) (VFloat y)
         = PrimFloat.eqb (py_round x 6) (py_round y 6))
  /\ (py_round (0.1 + 0.2) 6 = 0.3%float
      /\ py_round 1.0000004 6 = 1%float
      /\ py_round 1.000004 6 = 1.000004%float
      /\ py_round 2.0000005 6 = 2.000001%float
      /\ py_round 0.0078125 6 = 0.007812%float
      /\ py_round 0.0234375 6 = 0.023438%float
      /\ py_round (-0.0234375) 6 = (-0.023438)%float
      /\ py_round 123456.7890125 6 = 123456.789012%float
      /\ py_round 0.0000004 6 = 0%float
      /\ py_round 1e300 6 = 1e300%float
      /\ py_round infinity 6 = infinity)
  /\ (compare_outputs (VFloat (0.1 + 0.2)) (VFloat 0.3) = true
      /\ compare_outputs (VFloat 1.0000004) (VFloat 1) = true
      /\ compare_outputs (VFloat 1.000004) (VFloat 1) = false
      /\ compare_outputs
           (VTuple [VFloat (0.1 + 0.2); VDict [("p", VFloat (0.1 + 0.2))]])
           (VList [VFloat 0.3; VDict [("p", VFloat 0.3)]]) = true
      /\ compare_outputs
           (VTuple [VFloat (0.1 + 0.2); VDict [("p", VFloat 0.300001)]])
           (VList [VFloat 0.3; VDict [("p", VFloat 0.3)]]) = false).
Proof.
  split; [exact normalize_output_call_within |].
  split.
  { intros v. split; [apply normalize_output_map_floats |
                      apply floats_in_normalize]. }
  split.
  { intros levels a e Ha He.
    rewrite (compare_outputs_call_within _ _ _ Ha He), compare_outputs_py_eq.
    reflexivity. }
  split.
  { intros levels v other Hv.
    split; [exact (normalize_output_call_beyond _ _ Hv) |].
    exact (compare_outputs_call_beyond _ _ other Hv). }
  split.
  { intros f. generalize (py_round_nearest_double f).
    destruct (Prim2SF f) as [ | | | s m e ] eqn:Ef; intros Hn; try exact Hn.
    cbv zeta in Hn. destruct Hn as [Hk Hn].
    pose proof (scaled_digits_ties_to_even m e) as H.
    destruct (scaled_fraction m e 6) as [n d].
    destruct H as [Hd [Hne Ht]].
    exists (scaled_digits m e 6).
    split; [unfold py_round; rewrite Ef; reflexivity |].
    split; [exact Hd |]. split; [exact Hk |]. split; [exact Hne |].
    split; [exact Ht | exact Hn]. }
  split.
  { intros x y. rewrite compare_outputs_py_eq. reflexivity. }
  split; repeat split; vm_compute; reflexivity.
Qed.

(** X7. An output that is the expected value itself, plain data nested
    within the recursion limit, passes exactly when it holds no NaN:
    rounding to 6 digits turns no float into a NaN, and [==] is reflexive
    on plain data without NaN.  Nested deeper than the limit allows it does
    not pass: the comparison raises RecursionError. *)
Theorem exact_match_passes_unless_nan :
  (forall (levels : nat) (v : Value),
      well_formed v = true ->
      (nesting v <= levels)%nat ->
      (compare_outputs_call levels v v = Return true
       <-> contains_nan v = false))
  /\ (forall (levels : nat) (v : Value),
         (levels < nesting v)%nat ->
         compare_outputs_call levels v v = Raise RecursionError).
Proof.
  split.
  - intros levels v Hv Hn.
    rewrite (compare_outputs_call_within _ _ _ Hn Hn), compare_outputs_py_eq.
    split.
    + intros Heq. apply not_true_iff_false. intros Hnan.
      assert (Hne : py_eq (normalize_output v) (normalize_output v) = false)
        by (apply py_eq_nan;
            rewrite ?well_formed_normalize, ?contains_nan_normalize;
            assumption).
      rewrite Hne in Heq. discriminate.
    + intros Hnan. f_equal. apply py_eq_refl;
        rewrite ?well_formed_normalize, ?contains_nan_normalize; assumption.
  - intros levels v Hv. exact (proj1 (compare_outputs_call_beyond _ _ v Hv)).
Qed.

(** ** More on the sandboxed executor *)



(** X10. A test case whose input is not a mapping yields a faulted result
    with a TypeError, and the candidate is not called: its state and the
    clock are as before. *)
Theorem non_mapping_input_is_a_recorded_fault (func : Obj Heap)
    (d : list (string * Value)) (t : Z) (w : World Heap) :
  (forall kwargs, input_of d <> VDict kwargs) ->
  exists (r : TestResult) (w1 : World Heap) (msg : string),
    run_single_test env func (VDict d) t w = (Return r, w1)
    /\ tr_error r = Some ("TypeError: " ++ msg)
    /\ tr_passed r = false
    /\ heap w1 = heap w /\ clock w1 = clock w.
Proof.
  intros Hin. rewrite run_single_test_dict. cbv zeta.
  assert (Hw : forall w2 : World Heap,
             heap (disarmed (armed t w2)) = heap w2
             /\ clock (disarmed (armed t w2)) = clock w2).
  { intros w2. unfold disarmed, armed.
    destruct (has_SIGALRM env); split; reflexivity. }
  unfold call_function.
  destruct (input_of d) as [ | | | | | | | kwargs ];
    try (cbn [isinstance_Exception TypeError exc_kind]; cbv iota;
         unfold faulted_result; simpl;
         eexists; eexists; eexists; split; [reflexivity |];
         split; [reflexivity |]; split; [reflexivity |]; apply Hw).
  exfalso. apply (Hin kwargs). reflexivity.
Qed.


(** X12. [run_single_test] leaves the candidate's state as the call left
    it: nothing is reset or reloaded between test cases, so what a call
    stored is there for the call of the next test case. *)
Theorem candidate_state_carries_over (f : Func Heap)
    (d kwargs : list (string * Value)) (t : Z) (w : World Heap) :
  input_of d = VDict kwargs ->
  fst (run_single_test env (Callable f) (VDict d) t w) <> Hang ->
  heap (snd (run_single_test env (Callable f) (VDict d) t w))
  = heap_after (f (heap w) kwargs).
Proof.
  intros Hin Hnh. rewrite run_single_test_dict in *. cbv zeta in *.
  rewrite Hin in *.
  assert (Hh : heap (armed t w) = heap w)
    by (unfold armed; destruct (has_SIGALRM env); reflexivity).
  assert (Hd : forall w2 : World Heap, heap (disarmed w2) = heap w2)
    by (intros w2; unfold disarmed; destruct (has_SIGALRM env); reflexivity).
  unfold call_function in *. rewrite Hh in *.
  destruct (alarm_fires (armed t w) (f (heap w) kwargs)).
  - destruct (intercepted (f (heap w) kwargs)) as [[v | e | ] | ];
      simpl in *; rewrite ?Hd; try reflexivity.
    + destruct (isinstance_Exception e); simpl; rewrite Hd; reflexivity.
  - destruct (finish (f (heap w) kwargs)) as [v | e | ];
      simpl in *; rewrite ?Hd; try reflexivity.
    destruct (isinstance_Exception e); simpl; rewrite Hd; reflexivity.
Qed.

(** ** More on the aggregator *)

Lemma record_result_counts (r : TestResult) (rep : RunReport) :
  rp_results (record_result r rep) = (rp_results rep ++ [r])%list
  /\ rp_passed (record_result r rep)
     = rp_passed rep + Z.of_nat (length (filter tr_passed [r]))
  /\ rp_failed (record_result r rep)
     = rp_failed rep
       + Z.of_nat (length (filter (fun x => negb (tr_passed x)) [r])).
Proof.
  unfold record_result. simpl. destruct (tr_passed r); simpl; repeat split; lia.
Qed.

Lemma for_each_counts (func : Obj Heap) (items : list Value) :
  forall (rep rep' : RunReport) (w w' : World Heap) (res : Res unit),
    for_each items (run_test_case env func) (rep, w) = (res, (rep', w')) ->
    exists new : list TestResult,
      rp_results rep' = (rp_results rep ++ new)%list
      /\ rp_passed rep'
         = rp_passed rep + Z.of_nat (length (filter tr_passed new))
      /\ rp_failed rep'
         = rp_failed rep
           + Z.of_nat (length (filter (fun x => negb (tr_passed x)) new))
      /\ (length new <= length items)%nat
      /\ (res = Return tt -> length new = length items).
Proof.
  induction items as [ | tc rest IH ]; intros rep rep' w w' res H.
  - simpl in H. unfold ret in H. inversion H. subst.
    exists []. rewrite app_nil_r. simpl. repeat split; lia.
  - simpl in H. unfold bind in H.
    destruct (run_single_test env func tc 2 w) as [[r | e | ] w1] eqn:Hr.
    + rewrite (run_test_case_returns _ _ rep _ _ _ Hr) in H.
      destruct (IH _ _ _ _ _ H) as [new [Hres [Hp [Hf [Hle Hlen]]]]].
      destruct (record_result_counts r rep) as [Hres' [Hp' Hf']].
      exists (r :: new). split; [| split; [| split; [| split]]].
      * rewrite Hres, Hres', <- app_assoc. reflexivity.
      * rewrite Hp, Hp'. simpl. destruct (tr_passed r); simpl length; lia.
      * rewrite Hf, Hf'. simpl. destruct (tr_passed r); simpl length; lia.
      * simpl. lia.
      * intros Hret. simpl. rewrite (Hlen Hret). reflexivity.
    + rewrite (run_test_case_raises _ _ rep _ _ _ Hr) in H.
      inversion H. subst. exists []. rewrite app_nil_r. simpl.
      repeat split; try lia. discriminate.
    + rewrite (run_test_case_hangs _ _ rep _ _ Hr) in H.
      inversion H. subst. exists []. rewrite app_nil_r. simpl.
      repeat split; try lia. discriminate.
Qed.

Lemma truthy_py_len (v : Value) (n : Z) :
  py_len v = Return n -> 0 <= n /\ (truthy v = true -> 1 <= n).
Proof.
  destruct v as [ | | | | s | l | l | d ]; simpl; intros H; inversion H; subst;
    (split; [lia |]).
  - destruct s; simpl; [discriminate | lia].
  - destruct l; simpl; [discriminate | lia].
  - destruct l; simpl; [discriminate | lia].
  - destruct d; simpl; [discriminate | lia].
Qed.

Lemma load_and_run_report (problem test_cases : Value) (solution_path : string)
    (total : Z) (w1 w' : World Heap) (res : Res unit) (rep : RunReport) :
  py_len test_cases = Return total ->
  load_and_run problem test_cases solution_path
    (set_rp_total total initial_report) w1 = (res, (rep, w')) ->
  rp_success rep = true /\ rp_error rep = None /\ rp_traceback rep = None
  /\ rp_total rep = total
  /\ rp_passed rep = Z.of_nat (length (filter tr_passed (rp_results rep)))
  /\ rp_failed rep
     = Z.of_nat (length (filter (fun x => negb (tr_passed x)) (rp_results rep)))
  /\ Z.of_nat (length (rp_results rep)) <= total
  /\ (res = Return tt -> total = Z.of_nat (length (rp_results rep))).
Proof.
  intros Hlen H. destruct (truthy_py_len _ _ Hlen) as [H0 _].
  assert (Hinit : forall (res0 : Res unit) (w2 : World Heap),
             (res0, (set_rp_total total initial_report, w2)) = (res, (rep, w')) ->
             res0 <> Return tt ->
             rp_success rep = true /\ rp_error rep = None
             /\ rp_traceback rep = None /\ rp_total rep = total
             /\ rp_passed rep
                = Z.of_nat (length (filter tr_passed (rp_results rep)))
             /\ rp_failed rep
                = Z.of_nat (length (filter (fun x => negb (tr_passed x))
                                     (rp_results rep)))
             /\ Z.of_nat (length (rp_results rep)) <= total
             /\ (res = Return tt -> total = Z.of_nat (length (rp_results rep)))).
  { intros res0 w2 E Hne. inversion E. subst. simpl. repeat split; try lia.
    intros Hret. contradiction. }
  unfold load_and_run in H.
  destruct (import_user_solution env solution_path w1) as [[ns | e | ] w2];
    [| apply (Hinit _ _ H); discriminate | apply (Hinit _ _ H); discriminate].
  destruct (detect_function_name env problem ns) as [name | e | ];
    [| apply (Hinit _ _ H); discriminate | apply (Hinit _ _ H); discriminate].
  destruct (namespace_getitem ns name) as [func | e | ];
    [| apply (Hinit _ _ H); discriminate | apply (Hinit _ _ H); discriminate].
  destruct (py_iter test_cases) as [items | e | ] eqn:Hiter;
    [| apply (Hinit _ _ H); discriminate | apply (Hinit _ _ H); discriminate].
  pose proof (py_len_py_iter _ _ _ Hlen Hiter) as Hn.
  destruct (for_each_run_test_case _ _ _ _ _ _ _ H) as [Hs [Ht [He [Htb _]]]].
  destruct (for_each_counts _ _ _ _ _ _ _ H) as [new [Hres [Hp [Hf [Hle Hall]]]]].
  simpl in Hs, Ht, He, Htb, Hres, Hp, Hf. subst new.
  repeat split; try assumption; try lia.
  intros Hret. rewrite (Hall Hret). exact Hn.
Qed.

Lemma run_tests_try_report (problem_dir solution_path : string)
    (w w' : World Heap) (res : Res unit) (rep : RunReport) :
  run_tests_try env problem_dir solution_path (initial_report, w)
  = (res, (rep, w')) ->
  rp_traceback rep = None
  /\ rp_passed rep = Z.of_nat (length (filter tr_passed (rp_results rep)))
  /\ rp_failed rep
     = Z.of_nat (length (filter (fun x => negb (tr_passed x)) (rp_results rep)))
  /\ Z.of_nat (length (rp_results rep)) <= rp_total rep
  /\ (rp_success rep = true <-> rp_error rep = None)
  /\ (res = Return tt -> rp_success rep = true ->
      rp_total rep = Z.of_nat (length (rp_results rep)) /\ 1 <= rp_total rep)
  /\ (res <> Return tt -> rp_success rep = true).
Proof.
  intros H. rewrite run_tests_try_cases in H.
  assert (Hinit : forall (res0 : Res unit) (w2 : World Heap),
             (res0, (initial_report, w2)) = (res, (rep, w')) ->
             res0 <> Return tt ->
             rp_traceback rep = None
             /\ rp_passed rep
                = Z.of_nat (length (filter tr_passed (rp_results rep)))
             /\ rp_failed rep
                = Z.of_nat (length (filter (fun x => negb (tr_passed x))
                                     (rp_results rep)))
             /\ Z.of_nat (length (rp_results rep)) <= rp_total rep
             /\ (rp_success rep = true <-> rp_error rep = None)
             /\ (res = Return tt -> rp_success rep = true ->
                 rp_total rep = Z.of_nat (length (rp_results rep))
                 /\ 1 <= rp_total rep)
             /\ (res <> Return tt -> rp_success rep = true)).
  { intros res0 w2 E Hne. inversion E. subst. simpl.
    repeat split; try lia; try reflexivity. intros Hret. contradiction. }
  destruct (load_problem env problem_dir w) as [[problem | e | ] w1];
    [| apply (Hinit _ _ H); discriminate | apply (Hinit _ _ H); discriminate].
  destruct (py_get problem "test_cases" (VList [])) as [tcs | e | ];
    [| apply (Hinit _ _ H); discriminate | apply (Hinit _ _ H); discriminate].
  destruct (negb (truthy tcs)) eqn:Htr.
  { inversion H. subst. simpl. repeat split; try lia; try discriminate.
    intros Hne. exfalso. apply Hne. reflexivity. }
  destruct (py_len tcs) as [total | e | ] eqn:Hlen;
    [| apply (Hinit _ _ H); discriminate | apply (Hinit _ _ H); discriminate].
  destruct (load_and_run_report _ _ _ _ _ _ _ _ Hlen H)
    as [Hs [He [Htb [Ht [Hp [Hf [Hle Hall]]]]]]].
  destruct (truthy_py_len _ _ Hlen) as [_ H1].
  apply negb_false_iff in Htr.
  split; [exact Htb |]. split; [exact Hp |]. split; [exact Hf |].
  split; [lia |]. split; [split; intros _; assumption |]. split.
  - intros Hret _. rewrite Ht. split; [apply Hall; exact Hret |].
    apply H1. exact Htr.
  - intros _. exact Hs.
Qed.

Lemma run_tests_report (problem_dir solution_path : string)
    (w w' : World Heap) (r : RunReport) :
  run_tests env problem_dir solution_path w = (Return r, w') ->
  rp_passed r = Z.of_nat (length (filter tr_passed (rp_results r)))
  /\ rp_failed r
     = Z.of_nat (length (filter (fun x => negb (tr_passed x)) (rp_results r)))
  /\ Z.of_nat (length (rp_results r)) <= rp_total r
  /\ (rp_success r = true <-> rp_error r = None)
  /\ (rp_success r = true ->
      rp_total r = Z.of_nat (length (rp_results r)) /\ 1 <= rp_total r
      /\ rp_traceback r = None)
  /\ (forall tb : string,
         rp_traceback r = Some tb ->
         exists msg : string, rp_error r = Some ("Unexpected error: " ++ msg)).
Proof.
  rewrite run_tests_finish. unfold finish_run.
  destruct (run_tests_try env problem_dir solution_path (initial_report, w))
    as [res [rep w1]] eqn:Htry.
  destruct (run_tests_try_report _ _ _ _ _ _ Htry)
    as [Htb [Hp [Hf [Hle [Hse [Hok Hexc]]]]]].
  destruct res as [[] | e | ]; [| | discriminate].
  - intros H. inversion H. subst. repeat split; try assumption;
      try (apply Hse; assumption); try (apply Hok; auto).
    intros tb Htb'. rewrite Htb in Htb'. discriminate.
  - destruct (isinstance_Exception e) eqn:He; [| discriminate].
    intros H. inversion H. subst. unfold failed_report, failure_message. simpl.
    repeat split; try assumption; try discriminate.
    intros tb. destruct (exc_kind e); try (rewrite Htb; discriminate);
      intros _; eexists; reflexivity.
Qed.

(** X13. Run against a candidate whose calls return plain data (so that
    the verdict of every result is a bool), in every report [run_tests]
    returns, successful or not, [passed] is the number of results that
    passed and [failed] the number of those that did not, there are at most
    [total] results, [success] holds exactly when there is no error, and a
    traceback comes only with an error that starts with "Unexpected error:
    ". *)
Theorem report_counts_match_results (problem_dir solution_path : string)
    (w w' : World Heap) (r : RunReport) :
  run_tests env problem_dir solution_path w = (Return r, w') ->
  rp_passed r = Z.of_nat (length (filter tr_passed (rp_results r)))
  /\ rp_failed r
     = Z.of_nat (length (filter (fun x => negb (tr_passed x)) (rp_results r)))
  /\ Z.of_nat (length (rp_results r)) <= rp_total r
  /\ (rp_success r = true <-> rp_error r = None)
  /\ (forall tb : string,
         rp_traceback r = Some tb ->
         exists msg : string, rp_error r = Some ("Unexpected error: " ++ msg)).
Proof.
  intros H.
  destruct (run_tests_report _ _ _ _ _ H) as [Hp [Hf [Hle [Hse [_ Htb]]]]].
  repeat split; try assumption; apply Hse.
Qed.

Lemma filter_nil_Forall {A : Type} (p : A -> bool) (l : list A) :
  filter (fun x => negb (p x)) l = [] ->
  Forall (fun x => p x = true) l /\ filter p l = l.
Proof.
  induction l as [ | x l IH ]; simpl; [intros _; split; [constructor | reflexivity] |].
  destruct (p x) eqn:Hx; simpl; [| discriminate].
  intros H. destruct (IH H) as [Hall Hfil]. split.
  - constructor; assumption.
  - rewrite Hfil. reflexivity.
Qed.


(** ** How a run fails *)

(** The run of a problem with the test cases [tcs], up to the loading of
    the candidate. *)
Lemma run_tests_loaded (problem_dir solution_path : string)
    (w w1 : World Heap) (problem : list (string * Value)) (tcs : list Value) :
  load_problem env problem_dir w = (Return (VDict problem), w1) ->
  dict_lookup "test_cases" problem = Some (VList tcs) ->
  (1 <= length tcs)%nat ->
  run_tests env problem_dir solution_path w
  = finish_run
      (load_and_run (VDict problem) (VList tcs) solution_path
         (set_rp_total (Z.of_nat (length tcs)) initial_report) w1).
Proof.
  intros Hload Htc Hn.
  rewrite run_tests_finish, run_tests_try_cases, Hload.
  unfold py_get. rewrite Htc.
  assert (Htruthy : truthy (VList tcs) = true)
    by (destruct tcs; [simpl in Hn; lia | reflexivity]).
  rewrite Htruthy. reflexivity.
Qed.

(** What loading does once the candidate file has been read. *)
Lemma import_user_solution_exec (solution_path code : string) (w : World Heap) :
  path_exists env solution_path = true ->
  read_text env solution_path = Return code ->
  import_user_solution env solution_path w
  = match py_exec env code solution_path (heap w) with
    | (ExecOk bindings, h) =>
        (Return (("__builtins__", builtins_module) :: bindings),
         mkWorld (pending_alarm w) (clock w) h)
    | (ExecRaises e, h) =>
        (Raise (if isinstance_SyntaxError e
                then SyntaxError ("Syntax error in solution: " ++ exc_str e)
                else if isinstance_Exception e
                     then RuntimeError ("Error loading solution: " ++ exc_str e)
                     else e),
         mkWorld (pending_alarm w) (clock w) h)
    | (ExecNever, h) => (Hang, mkWorld (pending_alarm w) (clock w) h)
    end.
Proof.
  intros Hex Hread. unfold import_user_solution, bind, lift, try_except.
  rewrite Hex, Hread. cbn beta iota delta [negb].
  destruct (py_exec env code solution_path (heap w)) as [[b | e | ] h];
    try reflexivity.
  destruct (isinstance_SyntaxError e); [reflexivity |].
  destruct (isinstance_Exception e); reflexivity.
Qed.

Lemma string_app_assoc (a b c : string) : (a ++ b) ++ c = a ++ b ++ c.
Proof.
  induction a as [ | x a IH ]; [reflexivity |].
  simpl. rewrite IH. reflexivity.
Qed.

Lemma join_app_one (sep : string) (parts : list string) (name : string) :
  join sep (parts ++ [name])%list
  = match parts with
    | [] => name
    | _ => join sep parts ++ sep ++ name
    end.
Proof.
  induction parts as [ | p rest IH ]; [reflexivity |].
  destruct rest as [ | q rest ]; [reflexivity |].
  change (join sep ((p :: q :: rest) ++ [name])%list)
    with (p ++ sep ++ join sep ((q :: rest) ++ [name])%list).
  rewrite IH.
  change (join sep (p :: q :: rest)) with (p ++ sep ++ join sep (q :: rest)).
  rewrite !string_app_assoc. reflexivity.
Qed.

(** The path of the problem file: the directory as [pathlib] prints it, a
    slash and the file name; the file name alone under the current
    directory, and no second slash under a root. *)
Lemma path_join_problem_yaml (dir : string) :
  path_join dir "problem.yaml"
  = match path_parts dir with
    | [] => path_root dir ++ "problem.yaml"
    | _ => path_str dir ++ "/problem.yaml"
    end.
Proof.
  unfold path_join, path_str, path_format.
  change (path_parts "problem.yaml") with ["problem.yaml"].
  rewrite join_app_one.
  destruct (path_parts dir) as [ | part rest ].
  - destruct (path_root dir); reflexivity.
  - destruct (path_root dir); simpl app; cbv iota;
      rewrite ?string_app_assoc; reflexivity.
Qed.

(** X15. A missing file is reported by its path, as [pathlib] prints it.
    Without the problem file the report has the error "Problem file not
    found: " followed by [str(problem_dir / "problem.yaml")] and [total] 0,
    and the candidate is not loaded; without the candidate file it has the
    error "Solution file not found: " followed by [str(solution_path)] and
    [total] the number of test cases.  Neither report has a traceback.  The
    path of the problem file is the directory as printed (repeated and
    trailing slashes and "." parts dropped), a slash and "problem.yaml";
    under the current directory it is "problem.yaml" alone, and under a root
    no second slash is added. *)
Theorem missing_files_are_reported_by_path :
  (forall (problem_dir solution_path : string) (w : World Heap),
      path_exists env (path_join problem_dir "problem.yaml") = false ->
      run_tests env problem_dir solution_path w
      = (Return (mkRunReport false 0 0 0 []
                   (Some ("Problem file not found: "
                          ++ path_join problem_dir "problem.yaml")) None), w))
  /\ (forall (problem_dir solution_path : string) (w w1 : World Heap)
             (problem : list (string * Value)) (tcs : list Value),
         load_problem env problem_dir w = (Return (VDict problem), w1) ->
         dict_lookup "test_cases" problem = Some (VList tcs) ->
         (1 <= length tcs)%nat ->
         path_exists env solution_path = false ->
         run_tests env problem_dir solution_path w
         = (Return (mkRunReport false (Z.of_nat (length tcs)) 0 0 []
                      (Some ("Solution file not found: "
                             ++ path_str solution_path))
                      None), w1))
  /\ (forall problem_dir : string,
         path_join problem_dir "problem.yaml"
         = match path_parts problem_dir with
           | [] => path_root problem_dir ++ "problem.yaml"
           | _ => path_str problem_dir ++ "/problem.yaml"
           end)
  /\ path_str "/code/problem" = "/code/problem"
  /\ path_str "/x/" = "/x"
  /\ path_str "a//b/./c/" = "a/b/c"
  /\ path_str "./solution.py" = "solution.py"
  /\ path_str "../up" = "../up"
  /\ path_str "//net/share" = "//net/share"
  /\ path_str "///x" = "/x"
  /\ path_str "" = "."
  /\ path_join "/x/" "problem.yaml" = "/x/problem.yaml"
  /\ path_join "." "problem.yaml" = "problem.yaml"
  /\ path_join "" "problem.yaml" = "problem.yaml"
  /\ path_join "/" "problem.yaml" = "/problem.yaml".
Proof.
  split; [| split; [| split; [exact path_join_problem_yaml |]]].
  - intros pd sp w Hex.
    rewrite run_tests_finish, run_tests_try_cases.
    unfold load_problem. rewrite Hex. reflexivity.
  - intros pd sp w w1 problem tcs Hload Htc Hn Hex.
    rewrite (run_tests_loaded _ _ _ _ _ _ Hload Htc Hn).
    unfold load_and_run, import_user_solution. rewrite Hex. reflexivity.
  - repeat split; reflexivity.
Qed.

(** X16. An exception raised while the candidate source is compiled and
    executed loses its class: a SyntaxError is reported as "Syntax Error:
    Syntax error in solution: ..." without traceback, every other instance
    of Exception as "Unexpected error: RuntimeError: Error loading
    solution: ..." with a traceback.  No test case is run and [total] is the
    number of test cases. *)
Theorem load_exceptions_are_rewrapped (problem_dir solution_path : string)
    (w w1 : World Heap) (problem : list (string * Value)) (tcs : list Value)
    (code : string) (e : Exc) (h : Heap) :
  load_problem env problem_dir w = (Return (VDict problem), w1) ->
  dict_lookup "test_cases" problem = Some (VList tcs) ->
  (1 <= length tcs)%nat ->
  path_exists env solution_path = true ->
  read_text env solution_path = Return code ->
  py_exec env code solution_path (heap w1) = (ExecRaises e, h) ->
  isinstance_Exception e = true ->
  exists (r : RunReport) (w' : World Heap),
    run_tests env problem_dir solution_path w = (Return r, w')
    /\ rp_success r = false
    /\ rp_results r = []
    /\ rp_total r = Z.of_nat (length tcs)
    /\ rp_error r
       = Some (if isinstance_SyntaxError e
               then "Syntax Error: Syntax error in solution: " ++ exc_str e
               else "Unexpected error: RuntimeError: Error loading solution: "
                    ++ exc_str e)
    /\ (rp_traceback r = None <-> isinstance_SyntaxError e = true).
Proof.
  intros Hload Htc Hn Hex Hread Hexec He.
  rewrite (run_tests_loaded _ _ _ _ _ _ Hload Htc Hn).
  unfold load_and_run.
  rewrite (import_user_solution_exec _ _ _ Hex Hread), Hexec, He.
  destruct (isinstance_SyntaxError e) eqn:Hs; simpl;
    eexists; eexists; (split; [reflexivity |]); simpl;
    repeat split; try reflexivity; try discriminate.
Qed.

(** X17. The deadline does not cover loading: when executing the candidate
    source never ends, [run_tests] never returns, with or without SIGALRM,
    and no alarm is armed meanwhile. *)
Theorem endless_load_is_never_interrupted (problem_dir solution_path : string)
    (w w1 : World Heap) (problem : list (string * Value)) (tcs : list Value)
    (code : string) :
  load_problem env problem_dir w = (Return (VDict problem), w1) ->
  dict_lookup "test_cases" problem = Some (VList tcs) ->
  (1 <= length tcs)%nat ->
  path_exists env solution_path = true ->
  read_text env solution_path = Return code ->
  fst (py_exec env code solution_path (heap w1)) = ExecNever ->
  pending_alarm w1 = None ->
  fst (run_tests env problem_dir solution_path w) = Hang
  /\ pending_alarm (snd (run_tests env problem_dir solution_path w)) = None
  /\ fst (snd (main env ["run_tests.py"; problem_dir; solution_path] ([], w)))
     = [].
Proof.
  intros Hload Htc Hn Hex Hread Hexec Hp.
  assert (Hrun : exists w', run_tests env problem_dir solution_path w = (Hang, w')
                            /\ pending_alarm w' = None).
  { rewrite (run_tests_loaded _ _ _ _ _ _ Hload Htc Hn).
    unfold load_and_run.
    rewrite (import_user_solution_exec _ _ _ Hex Hread).
    destruct (py_exec env code solution_path (heap w1)) as [o h].
    simpl in Hexec. subst o. simpl. eexists. split; [reflexivity | exact Hp]. }
  destruct Hrun as [w' [Hrun Hp']].
  split; [rewrite Hrun; reflexivity |]. split; [rewrite Hrun; exact Hp' |].
  unfold main, problem_dir_of, solution_path_of. simpl.
  unfold bind, outer. simpl. rewrite Hrun. reflexivity.
Qed.

(** X18. A problem definition that is not a mapping (an empty file, a list)
    makes the run fail with "Unexpected error: AttributeError: '<type>'
    object has no attribute 'get'" and a traceback; [total] stays 0 and the
    candidate is not loaded. *)
Theorem problem_that_is_no_mapping_is_an_unexpected_error
    (problem_dir solution_path : string) (w w1 : World Heap) (problem : Value) :
  load_problem env problem_dir w = (Return problem, w1) ->
  (forall d, problem <> VDict d) ->
  exists tb : string,
    run_tests env problem_dir solution_path w
    = (Return (mkRunReport false 0 0 0 []
                 (Some ("Unexpected error: AttributeError: '"
                        ++ type_name problem
                        ++ "' object has no attribute 'get'"))
                 (Some tb)), w1).
Proof.
  intros Hload Hnd.
  rewrite run_tests_finish, run_tests_try_cases, Hload.
  destruct problem; try (eexists; reflexivity).
  exfalso. eapply Hnd. reflexivity.
Qed.

Lemma callable_in_none (namespace : Namespace Heap) :
  (forall name o, In (name, o) namespace -> callable o = false) ->
  forall name, callable_in namespace name = false.
Proof.
  intros H name. unfold callable_in.
  destruct (dict_lookup name namespace) as [o | ] eqn:E; [| reflexivity].
  apply dict_lookup_In in E. exact (H name o E).
Qed.

Lemma find_all_false {A : Type} (p : A -> bool) (l : list A) :
  (forall x, In x l -> p x = false) -> find p l = None.
Proof.
  induction l as [ | x l IH ]; [reflexivity |].
  intros H. simpl. rewrite (H x (or_introl eq_refl)).
  apply IH. intros y Hy. apply H. right. exact Hy.
Qed.

(** X19. When the candidate binds no callable at all and the starter code
    is a string or absent, the run fails with exactly "Could not detect
    function to test", without traceback; no test case is run and [total]
    is the number of test cases. *)
Theorem candidate_without_function_is_reported
    (problem_dir solution_path : string) (w w1 w2 : World Heap)
    (problem : list (string * Value)) (tcs : list Value) (s : string)
    (namespace : Namespace Heap) :
  load_problem env problem_dir w = (Return (VDict problem), w1) ->
  dict_lookup "test_cases" problem = Some (VList tcs) ->
  (1 <= length tcs)%nat ->
  starter_code_of problem = Some s ->
  import_user_solution env solution_path w1 = (Return namespace, w2) ->
  (forall name o, In (name, o) namespace -> callable o = false) ->
  run_tests env problem_dir solution_path w
  = (Return (mkRunReport false (Z.of_nat (length tcs)) 0 0 []
               (Some "Could not detect function to test") None), w2).
Proof.
  intros Hload Htc Hn Hs Himp Hnone.
  rewrite (run_tests_loaded _ _ _ _ _ _ Hload Htc Hn).
  unfold load_and_run. rewrite Himp.
  rewrite (detect_function_name_selection _ _ _ Hs).
  unfold ordered_selection.
  rewrite !find_all_false; [reflexivity | | |].
  - intros [name o] Hin. unfold eligible. simpl.
    rewrite (Hnone name o Hin). reflexivity.
  - intros x _. apply callable_in_none. exact Hnone.
  - intros x _. apply callable_in_none. exact Hnone.
Qed.

(** X20. A starter code that is not a string (a null, a number, a list)
    makes the run fail with "Unexpected error: AttributeError: '<type>'
    object has no attribute 'split'", whatever the candidate defines. *)
Theorem starter_code_that_is_no_string_is_an_unexpected_error
    (problem_dir solution_path : string) (w w1 w2 : World Heap)
    (problem : list (string * Value)) (tcs : list Value) (hint : Value)
    (namespace : Namespace Heap) :
  load_problem env problem_dir w = (Return (VDict problem), w1) ->
  dict_lookup "test_cases" problem = Some (VList tcs) ->
  (1 <= length tcs)%nat ->
  dict_lookup "starter_code_python" problem = Some hint ->
  (forall s, hint <> VStr s) ->
  import_user_solution env solution_path w1 = (Return namespace, w2) ->
  exists tb : string,
    run_tests env problem_dir solution_path w
    = (Return (mkRunReport false (Z.of_nat (length tcs)) 0 0 []
                 (Some ("Unexpected error: AttributeError: '"
                        ++ type_name hint
                        ++ "' object has no attribute 'split'"))
                 (Some tb)), w2).
Proof.
  intros Hload Htc Hn Hh Hns Himp.
  rewrite (run_tests_loaded _ _ _ _ _ _ Hload Htc Hn).
  unfold load_and_run. rewrite Himp.
  unfold detect_function_name, py_get. rewrite Hh.
  destruct hint; try (eexists; reflexivity).
  exfalso. eapply Hns. reflexivity.
Qed.

(** ** More on the resolver *)

Lemma find_callable_in (namespace : Namespace Heap) (names : list string)
    (name : string) :
  find (callable_in namespace) names = Some name ->
  exists f : Func Heap, dict_lookup name namespace = Some (Callable f).
Proof.
  intros H. apply find_some in H. destruct H as [_ H].
  unfold callable_in in H.
  destruct (dict_lookup name namespace) as [[ | f] | ]; try discriminate.
  exists f. reflexivity.
Qed.

(** X21. The resolver returns only names the namespace binds to a
    callable, so that the lookup of line 199 never fails and a function is
    what the test cases are run against; and it does return a name whenever
    the starter code is a string or absent and the namespace has a callable
    that is public and not named like a builtin. *)
Theorem resolver_returns_a_callable_of_the_namespace :
  (forall (problem : Value) (namespace : Namespace Heap) (name : string),
      NoDup (map fst namespace) ->
      detect_function_name env problem namespace = Return name ->
      exists f : Func Heap,
        dict_lookup name namespace = Some (Callable f)
        /\ namespace_getitem namespace name = Return (Callable f))
  /\ (forall (problem : list (string * Value)) (namespace : Namespace Heap)
             (s name : string) (f : Func Heap),
         starter_code_of problem = Some s ->
         In (name, Callable f) namespace ->
         startswith "_" name = false ->
         is_builtin_name env name = false ->
         exists found : string,
           detect_function_name env (VDict problem) namespace = Return found).
Proof.
  split.
  - intros problem namespace name Hnd Hdet.
    assert (H : exists f : Func Heap,
               dict_lookup name namespace = Some (Callable f)).
    { unfold detect_function_name in Hdet.
      destruct (py_get problem "starter_code_python" (VStr ""))
        as [sc | e | ]; try discriminate.
      destruct (py_split sc "010") as [lines | e | ]; try discriminate.
      rewrite scan_starter_code_find, scan_common_names_find,
        scan_namespace_find in Hdet.
      destruct (find (callable_in namespace) _) as [n1 | ] eqn:E1.
      { inversion Hdet. subst. exact (find_callable_in _ _ _ E1). }
      destruct (find (callable_in namespace) common_names) as [n2 | ] eqn:E2.
      { inversion Hdet. subst. exact (find_callable_in _ _ _ E2). }
      destruct (find eligible namespace) as [[n3 o] | ] eqn:E3;
        [| discriminate].
      simpl in Hdet. inversion Hdet. subst.
      apply find_some in E3. destruct E3 as [Hin Hel].
      unfold eligible in Hel. simpl in Hel.
      destruct o as [ | f ]; [discriminate |].
      exists f. apply dict_lookup_NoDup; assumption. }
    destruct H as [f Hf]. exists f. split; [exact Hf |].
    unfold namespace_getitem. rewrite Hf. reflexivity.
  - intros problem namespace s name f Hs Hin Hpub Hnb.
    rewrite (detect_function_name_selection _ _ _ Hs).
    unfold ordered_selection.
    destruct (find (callable_in namespace) (hinted_names s));
      [eexists; reflexivity |].
    destruct (find (callable_in namespace) common_names);
      [eexists; reflexivity |].
    destruct (find eligible namespace) as [item | ] eqn:E;
      [eexists; reflexivity |].
    exfalso. pose proof (find_none eligible namespace E _ Hin) as Hel.
    unfold eligible in Hel. simpl in Hel. rewrite Hpub, Hnb in Hel.
    discriminate.
Qed.

(** ** The command line *)

(** X22. The script takes its two paths from the command line only when
    both are given: with fewer than two arguments it runs on the default
    paths, whatever the one argument is, and arguments after the second are
    ignored. *)
Theorem command_line_needs_both_paths :
  (forall (argv : list string) (w : World Heap),
      (length argv < 3)%nat ->
      run_script env argv w
      = run_script env ["run_tests.py"; "/code/problem"; "/code/solution.py"] w)
  /\ (forall (prog problem_dir solution_path : string) (more : list string)
             (w : World Heap),
         run_script env (prog :: problem_dir :: solution_path :: more) w
         = run_script env ["run_tests.py"; problem_dir; solution_path] w).
Proof.
  split.
  - intros argv w Hlen. unfold run_script, main.
    assert (Hp : problem_dir_of argv = "/code/problem")
      by (unfold problem_dir_of;
          destruct (Z.leb_spec 3 (Z.of_nat (length argv))); [lia | reflexivity]).
    assert (Hs : solution_path_of argv = "/code/solution.py")
      by (unfold solution_path_of;
          destruct (Z.leb_spec 3 (Z.of_nat (length argv))); [lia | reflexivity]).
    rewrite Hp, Hs. reflexivity.
  - intros prog pd sp more w. unfold run_script, main.
    assert (Hp : problem_dir_of (prog :: pd :: sp :: more) = pd)
      by (unfold problem_dir_of;
          destruct (Z.leb_spec 3 (Z.of_nat (length (prog :: pd :: sp :: more))));
          [reflexivity | simpl length in *; lia]).
    assert (Hs : solution_path_of (prog :: pd :: sp :: more) = sp)
      by (unfold solution_path_of;
          destruct (Z.leb_spec 3 (Z.of_nat (length (prog :: pd :: sp :: more))));
          [reflexivity | simpl length in *; lia]).
    rewrite Hp, Hs. reflexivity.
Qed.

(** ** A candidate that overruns every deadline *)

Lemma run_single_test_overrun (f : Func Heap) (d kwargs : list (string * Value))
    (w : World Heap) :
  has_SIGALRM env = true ->
  always_overruns f ->
  input_of d = VDict kwargs ->
  exists (r : TestResult) (w1 : World Heap),
    run_single_test env (Callable f) (VDict d) 2 w = (Return r, w1)
    /\ timed_out r.
Proof.
  intros Hsig Hover Hin. rewrite run_single_test_dict. cbv zeta. rewrite Hin.
  unfold call_function.
  assert (Hp : pending_alarm (armed 2 w) = Some 2)
    by (unfold armed; rewrite Hsig; reflexivity).
  assert (Hh : heap (armed 2 w) = heap w)
    by (unfold armed; rewrite Hsig; reflexivity).
  destruct (Hover (heap w) kwargs) as [Ho Hpass].
  rewrite Hh, (overruns_fires 2 _ _ Ho Hp), Hpass.
  unfold timeout_handler. simpl.
  eexists. eexists. split; [reflexivity |]. repeat split.
Qed.

Lemma for_each_overrun (f : Func Heap) (items : list (list (string * Value))) :
  has_SIGALRM env = true ->
  always_overruns f ->
  Forall (fun d => exists kwargs, input_of d = VDict kwargs) items ->
  forall (rep : RunReport) (w : World Heap),
    exists (new : list TestResult) (rep' : RunReport) (w' : World Heap),
      for_each (map VDict items) (run_test_case env (Callable f)) (rep, w)
      = (Return tt, (rep', w'))
      /\ rp_results rep' = (rp_results rep ++ new)%list
      /\ length new = length items
      /\ Forall timed_out new
      /\ rp_passed rep' = rp_passed rep
      /\ rp_failed rep' = rp_failed rep + Z.of_nat (length items).
Proof.
  intros Hsig Hover Hall. induction Hall as [ | d items [kwargs Hin] _ IH ];
    intros rep w.
  - exists [], rep, w. rewrite app_nil_r. simpl.
    repeat split; try constructor; lia.
  - destruct (run_single_test_overrun f d kwargs w Hsig Hover Hin)
      as [r [w1 [Hr Ht]]].
    destruct (IH (record_result r rep) w1)
      as [new [rep' [w' [Hloop [Hres [Hlen [Hto [Hp Hf]]]]]]]].
    exists (r :: new), rep', w'.
    assert (Hrec : rp_results (record_result r rep) = (rp_results rep ++ [r])%list
                   /\ rp_passed (record_result r rep) = rp_passed rep
                   /\ rp_failed (record_result r rep) = rp_failed rep + 1).
    { unfold record_result. destruct Ht as [Hpass _]. rewrite Hpass.
      repeat split. }
    destruct Hrec as [Hres' [Hp' Hf']].
    split; [| split; [| split; [| split; [| split]]]].
    + simpl. unfold bind at 1.
      rewrite (run_test_case_returns _ _ rep _ _ _ Hr). exact Hloop.
    + rewrite Hres, Hres', <- app_assoc. reflexivity.
    + simpl. rewrite Hlen. reflexivity.
    + constructor; assumption.
    + rewrite Hp, Hp'. reflexivity.
    + rewrite Hf, Hf'. simpl length. lia.
Qed.


(** ** The order of the keys of a dict *)

Lemma forallb_Permutation {A : Type} (p : A -> bool) (l l' : list A) :
  Permutation l l' -> forallb p l = forallb p l'.
Proof.
  induction 1 as [ | x l l' _ IH | x y l | l l' l'' _ IH1 _ IH2 ]; simpl.
  - reflexivity.
  - rewrite IH. reflexivity.
  - rewrite !andb_assoc, (andb_comm (p y) (p x)). reflexivity.
  - rewrite IH1. exact IH2.
Qed.

Lemma dict_lookup_Permutation (k : string) (d d' : list (string * Value)) :
  NoDup (map fst d) -> Permutation d d' ->
  dict_lookup k d = dict_lookup k d'.
Proof.
  intros Hnd Hperm.
  assert (Hnd' : NoDup (map fst d'))
    by (apply (Permutation_NoDup (Permutation_map fst Hperm)); exact Hnd).
  destruct (dict_lookup k d) as [v | ] eqn:E.
  - symmetry. apply dict_lookup_NoDup; [exact Hnd' |].
    apply (Permutation_in _ Hperm). apply dict_lookup_In. exact E.
  - destruct (dict_lookup k d') as [v' | ] eqn:E'; [| reflexivity].
    apply dict_lookup_In in E'.
    apply (Permutation_in _ (Permutation_sym Hperm)) in E'.
    rewrite (dict_lookup_NoDup k d v' Hnd E') in E. discriminate.
Qed.

Lemma py_eq_dict_Permutation (d d' : list (string * Value)) (x : Value) :
  NoDup (map fst d) -> Permutation d d' ->
  py_eq (VDict d) x = py_eq (VDict d') x
  /\ py_eq x (VDict d) = py_eq x (VDict d').
Proof.
  intros Hnd Hperm. destruct x as [ | | | | | | | c ];
    try (split; reflexivity).
  rewrite !py_eq_dict, (Permutation_length Hperm). split.
  - f_equal. unfold dict_all_in. apply forallb_Permutation. exact Hperm.
  - f_equal. unfold dict_all_in.
    induction c as [ | kv c IH ]; [reflexivity |].
    simpl. rewrite IH, (dict_lookup_Permutation _ _ _ Hnd Hperm).
    reflexivity.
Qed.

(** X30. The order of the keys of a dict never matters for the comparison:
    an output or an expected value that is a dict compares the same
    whatever the order in which its entries were inserted. *)
Theorem dict_order_is_irrelevant (d d' : list (string * Value))
    (other : Value) :
  NoDup (map fst d) -> Permutation d d' ->
  compare_outputs (VDict d) other = compare_outputs (VDict d') other
  /\ compare_outputs other (VDict d) = compare_outputs other (VDict d').
Proof.
  intros Hnd Hperm. rewrite !compare_outputs_py_eq. simpl normalize_output.
  apply py_eq_dict_Permutation.
  - rewrite map_map. simpl. exact Hnd.
  - apply Permutation_map. exact Hperm.
Qed.

End Properties.

(** * Concrete runs: witnesses and counterexamples *)

(** The example candidates that add are tame: whatever the keyword
    arguments, they return or raise an instance of Exception. *)
Lemma add_tame : tame (unix_env add) add.
Proof.
  intros h kwargs. unfold add.
  destruct (add_args kwargs) as [[a b] |]; split; simpl; auto.
Qed.

Lemma picky_add_tame : tame (unix_env picky_add) picky_add.
Proof.
  intros h kwargs. unfold picky_add.
  destruct (add_args kwargs) as [[a b] |]; [destruct (a =? 10) |];
    split; simpl; auto.
Qed.

(** [add] answers the test case of the sum of [a] and [b]. *)
Lemma add_answers_correctly (id : string) (a b : Z) :
  answers_correctly add (add_case id a b (a + b)).
Proof.
  intros h. exists [("a", VInt a); ("b", VInt b)], (VInt (a + b)).
  split; [reflexivity |]. split; [reflexivity |]. split; [reflexivity |].
  unfold expected_of, add_case. simpl dict_lookup.
  unfold compare_outputs, comparator. simpl. apply Z.eqb_refl.
Qed.

(** C1. A candidate whose function calls [sys.exit(0)] raises
    SystemExit, which is no instance of Exception: neither the [except]
    clauses of [run_single_test] nor those of [run_tests] catch it.  On the
    first of the three test cases of the addition problem
    [run_single_test] produces no result; [run_tests] produces no report,
    the two remaining test cases are not run, and [main] prints nothing.
    Against a candidate that raises ValueError instead, the same run ends
    with a report of three results. *)
Theorem system_exit_escapes_the_executor :
  finish (quitting tt [("a", VInt 1); ("b", VInt 2)]) = Raises (SystemExit 0)
  /\ isinstance_Exception (SystemExit 0) = false
  /\ run_single_test (unix_env quitting) (Callable quitting)
       (VDict (add_case "t1" 1 2 3)) 2 w0
     = (Raise (SystemExit 0), mkWorld None 1 tt)
  /\ length add_cases = 3%nat
  /\ run_tests (unix_env quitting) "/code/problem" "/code/solution.py" w0
     = (Raise (SystemExit 0), mkWorld None 1 tt)
  /\ fst (snd (main (unix_env quitting)
                 ["run_tests.py"; "/code/problem"; "/code/solution.py"]
                 ([], w0))) = []
  /\ (exists (r : RunReport) (w' : World unit),
         run_tests (unix_env failing) "/code/problem" "/code/solution.py" w0
         = (Return r, w')
         /\ rp_success r = true
         /\ map tr_error (rp_results r)
            = [Some "ValueError: bad input"; Some "ValueError: bad input";
               Some "ValueError: bad input"]).
Proof.
  repeat split; try (vm_compute; reflexivity).
  eexists. eexists. split; [vm_compute; reflexivity |]. split; reflexivity.
Qed.

Lemma exception_fault_is_recorded :
  (exists (r : TestResult) (msg : string),
      run_single_test (unix_env failing) (Callable failing)
        (VDict (add_case "t1" 1 2 3)) 2 w0
      = (Return r, disarmed (unix_env failing) (mkWorld (Some 2) 1.25 tt))
      /\ tr_error r = Some msg /\ tr_passed r = false /\ tr_output r = VNone)
  /\ (exists (r : RunReport) (w' : World unit),
         run_tests (unix_env picky_add) "/code/problem" "/code/solution.py" w0
         = (Return r, w')
         /\ rp_success r = true
         /\ rp_error r = None
         /\ length (rp_results r)
            = length [add_case "t1" 1 2 3; add_case "t2" 2 2 4;
                      add_case "t3" 10 (-3) 7]).
Proof.
  split.
  - apply (proj1 (exception_faults_are_recorded_and_do_not_abort
                    (unix_env failing))
             (Callable failing) (add_case "t1" 1 2 3) 2 w0
             (mkWorld (Some 2) 1.25 tt) (ValueError "bad input"));
      reflexivity.
  - apply (proj2 (proj2 (proj2 (proj2
             (exception_faults_are_recorded_and_do_not_abort
                (unix_env picky_add)))))
             "/code/problem" "/code/solution.py" w0 w0 w0 add_problem
             [add_case "t1" 1 2 3; add_case "t2" 2 2 4; add_case "t3" 10 (-3) 7]
             [("__builtins__", builtins_module); ("helper", NotCallable);
              ("add", Callable picky_add)]
             "add" picky_add).
    + reflexivity.
    + reflexivity.
    + simpl. lia.
    + reflexivity.
    + reflexivity.
    + reflexivity.
    + exact picky_add_tame.
Defined.

(** The run against [picky_add]: the third call raises ValueError, which
    is recorded; the report has three results, two passed and one failed. *)
Lemma one_fault_among_three_test_cases :
  exists (r : RunReport) (w' : World unit),
    run_tests (unix_env picky_add) "/code/problem" "/code/solution.py" w0
    = (Return r, w')
    /\ rp_success r = true /\ rp_total r = 3
    /\ rp_passed r = 2 /\ rp_failed r = 1
    /\ map tr_passed (rp_results r) = [true; true; false]
    /\ map tr_error (rp_results r)
       = [None; None; Some "ValueError: a is too large"].
Proof.
  eexists. eexists. split; [vm_compute; reflexivity |].
  repeat split.
Qed.

(** C2 as stated fails: the call below raises after the clock went from 1 to
    1.25, a quarter of a second, and the one further below is cut off by the
    alarm with the clock at 3; both results carry the integer 0 as their
    elapsed time. *)
Lemma elapsed_time_not_recorded_on_fault :
  (exists (r : TestResult) (w' : World unit),
      run_single_test (unix_env failing) (Callable failing)
        (VDict (add_case "t1" 1 2 3)) 2 w0 = (Return r, w')
      /\ clock w0 = 1%float /\ clock w' = 1.25%float
      /\ py_round ((clock w' - clock w0) * 1000) 2 = 250%float
      /\ tr_error r = Some "ValueError: bad input"
      /\ tr_execution_time_ms r = VInt 0)
  /\ (exists (r : TestResult) (w' : World unit),
         run_single_test (unix_env spin) (Callable spin)
           (VDict (add_case "t1" 1 2 3)) 2 w0 = (Return r, w')
         /\ clock w0 = 1%float /\ clock w' = 3%float
         /\ tr_error r = Some "Timeout: execution exceeded 2 seconds"
         /\ tr_execution_time_ms r = VInt 0).
Proof.
  split; eexists; eexists; (split; [vm_compute; reflexivity |]);
    repeat split; vm_compute; reflexivity.
Qed.


(** C9 as stated fails.  Under the interpreter's limit of 1000 frames,
    which leaves fewer than 1000 nested calls to [normalize_output], the
    float 0.1 + 0.2 inside 1000 lists is not rounded: the call raises
    RecursionError, and so does the comparison with 0.3 inside 1000 lists.
    Inside 10 lists the two compare equal. *)
Lemma deep_float_is_not_rounded :
  nesting (nested 1000 (VFloat (0.1 + 0.2))) = 1001%nat
  /\ normalize_output_call 1000 (nested 1000 (VFloat (0.1 + 0.2)))
     = Raise RecursionError
  /\ compare_outputs_call 1000 (nested 1000 (VFloat (0.1 + 0.2)))
       (nested 1000 (VFloat 0.3)) = Raise RecursionError
  /\ compare_outputs_call 1000 (nested 10 (VFloat (0.1 + 0.2)))
       (nested 10 (VFloat 0.3)) = Return true.
Proof. repeat split; vm_compute; reflexivity. Qed.

Lemma add_report_counts_and_order :
  rp_total add_report = Z.of_nat (length (rp_results add_report))
  /\ rp_passed add_report + rp_failed add_report = rp_total add_report
  /\ exists (problem test_cases : Value) (items : list Value) (w1 : World unit),
       load_problem (unix_env add) "/code/problem" w0 = (Return problem, w1)
       /\ py_get problem "test_cases" (VList []) = Return test_cases
       /\ py_iter test_cases = Return items
       /\ Forall2 result_of items (rp_results add_report).
Proof.
  apply (successful_report_counts_and_order (unix_env add)
           "/code/problem" "/code/solution.py" w0 (mkWorld None 2.5 tt) add_report);
    vm_compute; reflexivity.
Defined.



(** A [def] line indented by a tab, a no-break space (U+00A0) and two
    spaces. *)
Lemma add_is_resolved_from_the_hint :
  startswith "def "
    (strip (String "009" (String "160" "  ") ++ "def " ++ "add" ++ "("
            ++ "a, b):")) = true
  /\ hinted_name (String "009" (String "160" "  ") ++ "def " ++ "add" ++ "("
                  ++ "a, b):") = "add".
Proof.
  apply (proj2 (entry_point_is_ordered_selection (unix_env add))
           (String "009" (String "160" "  ")) "add" "a, b):");
    reflexivity.
Defined.

Lemma add_passes_every_test :
  exists (r : RunReport) (w' : World unit),
    run_tests (unix_env add) "/code/problem" "/code/solution.py" w0
    = (Return r, w')
    /\ rp_success r = true
    /\ rp_error r = None
    /\ rp_failed r = 0
    /\ rp_passed r = rp_total r
    /\ rp_total r = 3
    /\ length (rp_results r) = 3%nat.
Proof.
  apply (correct_candidate_passes_every_test (unix_env add)
           "/code/problem" "/code/solution.py" w0 w0 w0 add_problem
           [add_case "t1" 1 2 (1 + 2); add_case "t2" 2 2 (2 + 2);
            add_case "t3" 10 (-3) (10 + -3)]
           [("__builtins__", builtins_module); ("helper", NotCallable);
            ("add", Callable add)]
           "add" add).
  - reflexivity.
  - reflexivity.
  - simpl. lia.
  - reflexivity.
  - reflexivity.
  - reflexivity.
  - reflexivity.
  - repeat constructor; apply add_answers_correctly.
Defined.

Lemma string_test_case_keeps_first_result :
  exists (r : RunReport) (w' : World unit) (msg : string),
    run_tests
      (env_of true malformed_problem
         (ExecOk [("helper", NotCallable); ("add", Callable add)]))
      "/code/problem" "/code/solution.py" w0 = (Return r, w')
    /\ rp_success r = false
    /\ rp_error r = Some msg
    /\ length (rp_results r) = 1%nat
    /\ rp_passed r + rp_failed r = 1
    /\ rp_total r = 3.
Proof.
  apply (malformed_test_case_keeps_partial_results
           (env_of true malformed_problem
              (ExecOk [("helper", NotCallable); ("add", Callable add)]))
           "/code/problem" "/code/solution.py" w0 w0 w0 malformed_problem
           [add_case "t1" 1 2 3] (VStr "oops") [VDict (add_case "t3" 10 (-3) 7)]
           [("__builtins__", builtins_module); ("helper", NotCallable);
            ("add", Callable add)]
           "add" add).
  - reflexivity.
  - reflexivity.
  - intros d H. discriminate H.
  - reflexivity.
  - reflexivity.
  - reflexivity.
  - exact add_tame.
Defined.

Lemma empty_problem_is_a_failure :
  exists r : RunReport,
    run_tests (env_of true empty_problem ExecNever)
      "/code/problem" "/code/solution.py" w0 = (Return r, w0)
    /\ rp_success r = false
    /\ rp_error r = Some "No test cases found in problem definition"
    /\ rp_results r = []
    /\ rp_total r = 0 /\ rp_passed r = 0 /\ rp_failed r = 0.
Proof.
  apply (proj1 (no_test_cases_is_a_failure (env_of true empty_problem ExecNever))
           "/code/problem" "/code/solution.py" w0 w0 empty_problem);
    reflexivity.
Defined.

(** C7 as stated fails: an empty problem file loads, as null, and holds no
    test case; the run fails, but its error does not mention that no test
    cases were found. *)
Lemma empty_problem_file_has_another_error :
  load_problem (yaml_env VNone) "/code/problem" w0 = (Return VNone, w0)
  /\ exists r : RunReport,
       run_tests (yaml_env VNone) "/code/problem" "/code/solution.py" w0
       = (Return r, w0)
       /\ rp_success r = false
       /\ rp_results r = []
       /\ rp_error r
          = Some "Unexpected error: AttributeError: 'NoneType' object has no attribute 'get'"
       /\ rp_error r <> Some "No test cases found in problem definition".
Proof.
  split; [reflexivity |].
  eexists. split; [vm_compute; reflexivity |].
  repeat split. discriminate.
Qed.

Lemma syntax_error_keeps_total :
  exists (r : RunReport) (w' : World unit),
    run_tests (env_of true add_problem
                 (ExecRaises (SyntaxError "invalid syntax (solution.py, line 1)")))
      "/code/problem" "/code/solution.py" w0 = (Return r, w')
    /\ rp_success r = false
    /\ (exists msg, rp_error r = Some msg)
    /\ rp_results r = []
    /\ rp_total r = Z.of_nat (length add_cases)
    /\ rp_total r <> Z.of_nat (length (rp_results r)).
Proof.
  destruct (failed_load_keeps_total
              (env_of true add_problem
                 (ExecRaises (SyntaxError "invalid syntax (solution.py, line 1)")))
              "/code/problem" "/code/solution.py" w0 w0 add_problem add_cases
              (SyntaxError
                 "Syntax error in solution: invalid syntax (solution.py, line 1)")
              eq_refl eq_refl (le_S _ _ (le_S _ _ (le_n 1)))
              (or_introl (ex_intro _ w0 eq_refl)))
    as [Hreport | [Houtside _]].
  - exact Hreport.
  - discriminate Houtside.
Defined.

(** C6. On the starter code "def undef (x):" line 153 reads the name "un":
    it removes "def " wherever it occurs, also at the end of "undef ".  The
    namespace has a callable [undef], the function the hint names, but the
    resolver does not pick it: no callable "un" exists, none of the
    conventional names is bound, and the last resort returns [List], the
    first callable of the namespace. *)
Theorem hinted_function_is_missed :
  starter_code_of undef_problem = Some "def undef (x):"
  /\ callable_in undef_namespace "undef" = true
  /\ hinted_names "def undef (x):" = ["un"]
  /\ detect_function_name (unix_env add) (VDict undef_problem) undef_namespace
     = Return "List".
Proof. repeat split; vm_compute; reflexivity. Qed.

(** C8. Against a candidate whose function calls [sys.exit(0)] the
    script exits with status 0 although [run_tests] returned no report and
    nothing was printed: the SystemExit of the candidate leaves
    [run_single_test], [run_tests] and [main] and ends the process with its
    own status.  Against [add], which passes the three test cases, the
    script prints the report and exits with 0; against a candidate that
    raises ValueError it prints the report and exits with 1. *)
Theorem system_exit_sets_the_exit_status :
  run_script (unix_env quitting)
    ["run_tests.py"; "/code/problem"; "/code/solution.py"] w0
  = ([], Exits 0)
  /\ run_script (unix_env quitting) [] w0 = ([], Exits 0)
  /\ run_script (unix_env add) [] w0 = ([add_report], Exits 0)
  /\ (exists r : RunReport,
         run_script (unix_env failing) [] w0 = ([r], Exits 1)
         /\ rp_success r = true /\ rp_failed r = 3).
Proof.
  repeat split; try (vm_compute; reflexivity).
  eexists. split; [vm_compute; reflexivity |]. split; reflexivity.
Qed.

(** C10. The problem loads with three test cases, and executing the
    candidate source raises SystemExit: the candidate calls [sys.exit(0)]
    at module level.  [import_user_solution] rewraps instances of Exception
    only, and [run_tests] catches no more: the SystemExit leaves both, and
    there is no report at all, hence none with [success] false and [total]
    3; the process exits with status 0.  When executing the source raises
    ZeroDivisionError instead, the report is there, with [total] 3 and no
    result. *)
Theorem module_level_exit_leaves_no_report :
  load_problem (env_of true add_problem (ExecRaises (SystemExit 0)))
    "/code/problem" w0 = (Return (VDict add_problem), w0)
  /\ dict_lookup "test_cases" add_problem = Some (VList add_cases)
  /\ length add_cases = 3%nat
  /\ import_user_solution (env_of true add_problem (ExecRaises (SystemExit 0)))
       "/code/solution.py" w0 = (Raise (SystemExit 0), w0)
  /\ run_tests (env_of true add_problem (ExecRaises (SystemExit 0)))
       "/code/problem" "/code/solution.py" w0 = (Raise (SystemExit 0), w0)
  /\ run_script (env_of true add_problem (ExecRaises (SystemExit 0)))
       ["run_tests.py"; "/code/problem"; "/code/solution.py"] w0
     = ([], Exits 0)
  /\ (exists (r : RunReport) (w' : World unit),
         run_tests (env_of true add_problem (ExecRaises ZeroDivisionError))
           "/code/problem" "/code/solution.py" w0 = (Return r, w')
         /\ rp_success r = false /\ rp_total r = 3 /\ rp_results r = []).
Proof.
  repeat split; try (vm_compute; reflexivity).
  eexists. eexists. split; [vm_compute; reflexivity |]. repeat split.
Qed.

(** ** Instances of the further properties *)

Lemma dicts_compare_the_same_both_ways :
  compare_outputs (VDict [("a", VInt 1); ("b", VTuple [VFloat 0.5])])
    (VDict [("b", VList [VFloat 0.5]); ("a", VBool true)])
  = compare_outputs (VDict [("b", VList [VFloat 0.5]); ("a", VBool true)])
      (VDict [("a", VInt 1); ("b", VTuple [VFloat 0.5])]).
Proof. apply compare_outputs_is_symmetric; reflexivity. Defined.

Lemma nan_does_not_match_nan :
  compare_outputs (VList [VInt 1; VFloat nan]) (VList [VInt 1; VFloat nan])
  = false.
Proof.
  apply nan_never_passes; [reflexivity | reflexivity | right; reflexivity].
Defined.

Lemma expected_value_matches_itself :
  compare_outputs_call 990
    (VDict [("xs", VList [VFloat 0.1; VInt 2]); ("name", VStr "p")])
    (VDict [("xs", VList [VFloat 0.1; VInt 2]); ("name", VStr "p")])
  = Return true
  <-> contains_nan
        (VDict [("xs", VList [VFloat 0.1; VInt 2]); ("name", VStr "p")]) = false.
Proof.
  apply (proj1 exact_match_passes_unless_nan 990%nat).
  - reflexivity.
  - simpl. lia.
Defined.


Lemma list_input_is_a_recorded_fault :
  exists (r : TestResult) (w1 : World unit) (msg : string),
    run_single_test (unix_env add) (Callable add) (VDict list_input_case) 2 w0
    = (Return r, w1)
    /\ tr_error r = Some ("TypeError: " ++ msg)
    /\ tr_passed r = false
    /\ heap w1 = heap w0 /\ clock w1 = clock w0.
Proof.
  apply (non_mapping_input_is_a_recorded_fault (unix_env add) (Callable add)
           list_input_case 2 w0).
  intros kwargs H. discriminate H.
Defined.


Lemma count_is_kept_after_a_test_case :
  heap (snd (run_single_test counting_env (Callable count_calls)
               (VDict expect_one) 2 (mkWorld None 1 0)))
  = heap_after (count_calls 0 []).
Proof.
  apply (candidate_state_carries_over counting_env count_calls expect_one []
           2 (mkWorld None 1 0)).
  - reflexivity.
  - vm_compute. discriminate.
Defined.

(** The same test case, run twice against [count_calls], passes the first
    time and fails the second. *)
Lemma same_test_case_twice_differs :
  exists (r : RunReport) (w' : World Z),
    run_tests counting_env "/code/problem" "/code/solution.py" (mkWorld None 1 0)
    = (Return r, w')
    /\ map tr_passed (rp_results r) = [true; false]
    /\ map tr_output (rp_results r) = [VInt 1; VInt 2].
Proof.
  eexists. eexists. split; [vm_compute; reflexivity |]. split; reflexivity.
Qed.

Lemma picky_report_counts_match_results :
  rp_passed picky_report
  = Z.of_nat (length (filter tr_passed (rp_results picky_report)))
  /\ rp_failed picky_report
     = Z.of_nat (length (filter (fun x => negb (tr_passed x))
                           (rp_results picky_report)))
  /\ Z.of_nat (length (rp_results picky_report)) <= rp_total picky_report
  /\ (rp_success picky_report = true <-> rp_error picky_report = None)
  /\ (forall tb : string,
         rp_traceback picky_report = Some tb ->
         exists msg : string,
           rp_error picky_report = Some ("Unexpected error: " ++ msg)).
Proof.
  apply (report_counts_match_results (unix_env picky_add)
           "/code/problem" "/code/solution.py" w0 (mkWorld None 2 tt)
           picky_report).
  vm_compute. reflexivity.
Defined.


Lemma missing_files_in_the_default_paths :
  run_tests (files_env []) "/code/problem/" "/code/solution.py" w0
  = (Return (mkRunReport false 0 0 0 []
               (Some "Problem file not found: /code/problem/problem.yaml")
               None), w0)
  /\ run_tests (files_env ["/code/problem/problem.yaml"])
       "/code/problem" "./solution.py" w0
     = (Return (mkRunReport false 3 0 0 []
                  (Some "Solution file not found: solution.py") None),
        w0).
Proof.
  split.
  - apply (proj1 (missing_files_are_reported_by_path (files_env []))
             "/code/problem/" "/code/solution.py" w0).
    reflexivity.
  - apply (proj1 (proj2 (missing_files_are_reported_by_path
                           (files_env ["/code/problem/problem.yaml"])))
             "/code/problem" "./solution.py" w0 w0 add_problem add_cases).
    + reflexivity.
    + reflexivity.
    + simpl. lia.
    + reflexivity.
Defined.

Lemma division_by_zero_at_load_is_rewrapped :
  exists (r : RunReport) (w' : World unit),
    run_tests (env_of true add_problem (ExecRaises ZeroDivisionError))
      "/code/problem" "/code/solution.py" w0 = (Return r, w')
    /\ rp_success r = false
    /\ rp_results r = []
    /\ rp_total r = 3
    /\ rp_error r
       = Some "Unexpected error: RuntimeError: Error loading solution: division by zero"
    /\ (rp_traceback r = None <-> false = true).
Proof.
  apply (load_exceptions_are_rewrapped
           (env_of true add_problem (ExecRaises ZeroDivisionError))
           "/code/problem" "/code/solution.py" w0 w0 add_problem add_cases
           "/code/solution.py" ZeroDivisionError tt);
    try reflexivity.
  simpl. lia.
Defined.

Lemma endless_module_code_hangs_the_run :
  fst (run_tests (env_of true add_problem ExecNever)
         "/code/problem" "/code/solution.py" w0) = Hang
  /\ pending_alarm (snd (run_tests (env_of true add_problem ExecNever)
                           "/code/problem" "/code/solution.py" w0)) = None
  /\ fst (snd (main (env_of true add_problem ExecNever)
                 ["run_tests.py"; "/code/problem"; "/code/solution.py"]
                 ([], w0))) = [].
Proof.
  apply (endless_load_is_never_interrupted (env_of true add_problem ExecNever)
           "/code/problem" "/code/solution.py" w0 w0 add_problem add_cases
           "/code/solution.py");
    try reflexivity.
  simpl. lia.
Defined.

Lemma empty_problem_file_is_an_unexpected_error :
  exists tb : string,
    run_tests (yaml_env VNone) "/code/problem" "/code/solution.py" w0
    = (Return (mkRunReport false 0 0 0 []
                 (Some ("Unexpected error: AttributeError: '"
                        ++ type_name VNone
                        ++ "' object has no attribute 'get'"))
                 (Some tb)), w0).
Proof.
  apply (problem_that_is_no_mapping_is_an_unexpected_error (yaml_env VNone)
           "/code/problem" "/code/solution.py" w0 w0 VNone).
  - reflexivity.
  - intros d H. discriminate H.
Defined.

Lemma data_only_candidate_is_reported :
  run_tests (env_of true add_problem (ExecOk [("table", NotCallable)]))
    "/code/problem" "/code/solution.py" w0
  = (Return (mkRunReport false (Z.of_nat (length add_cases)) 0 0 []
               (Some "Could not detect function to test") None), w0).
Proof.
  apply (candidate_without_function_is_reported
           (env_of true add_problem (ExecOk [("table", NotCallable)]))
           "/code/problem" "/code/solution.py" w0 w0 w0 add_problem add_cases
           "def add(a, b):"
           [("__builtins__", builtins_module); ("table", NotCallable)]);
    try reflexivity.
  - simpl. lia.
  - intros name o [H | [H | []]]; inversion H; reflexivity.
Defined.

Lemma null_starter_code_is_an_unexpected_error :
  exists tb : string,
    run_tests (env_of true null_hint_problem (ExecOk [("solve", Callable add)]))
      "/code/problem" "/code/solution.py" w0
    = (Return (mkRunReport false (Z.of_nat (length add_cases)) 0 0 []
                 (Some ("Unexpected error: AttributeError: '"
                        ++ type_name VNone
                        ++ "' object has no attribute 'split'"))
                 (Some tb)), w0).
Proof.
  apply (starter_code_that_is_no_string_is_an_unexpected_error
           (env_of true null_hint_problem (ExecOk [("solve", Callable add)]))
           "/code/problem" "/code/solution.py" w0 w0 w0 null_hint_problem
           add_cases VNone
           [("__builtins__", builtins_module); ("solve", Callable add)]);
    try reflexivity.
  - simpl. lia.
  - intros s H. discriminate H.
Defined.

Lemma add_is_resolved_to_a_callable :
  (exists f : Func unit,
      dict_lookup "add" [("__builtins__", builtins_module);
                         ("helper", NotCallable); ("add", Callable add)]
      = Some (Callable f)
      /\ namespace_getitem [("__builtins__", builtins_module);
                            ("helper", NotCallable); ("add", Callable add)]
           "add" = Return (Callable f))
  /\ (exists found : string,
         detect_function_name (unix_env add) (VDict add_problem)
           [("__builtins__", builtins_module); ("helper", NotCallable);
            ("add", Callable add)] = Return found).
Proof.
  split.
  - apply (proj1 (resolver_returns_a_callable_of_the_namespace (unix_env add))
             (VDict add_problem)).
    + repeat constructor; simpl; intuition discriminate.
    + reflexivity.
  - apply (proj2 (resolver_returns_a_callable_of_the_namespace (unix_env add))
             add_problem _ "def add(a, b):" "add" add).
    + reflexivity.
    + simpl. right. right. left. reflexivity.
    + reflexivity.
    + reflexivity.
Defined.

Lemma one_argument_is_ignored :
  run_script (unix_env add) ["run_tests.py"; "/tmp/problem"] w0
  = run_script (unix_env add)
      ["run_tests.py"; "/code/problem"; "/code/solution.py"] w0.
Proof.
  apply (proj1 (command_line_needs_both_paths (unix_env add))
           ["run_tests.py"; "/tmp/problem"] w0).
  simpl. lia.
Defined.

(** * Properties of the reference solutions *)

(** ** The LRU cache *)

Lemma lru_contains_In (key : Z) (d : LRUCache.OrderedDict) :
  LRUCache.contains key d = true <-> In key (LRUCache.keys d).
Proof.
  unfold LRUCache.contains, LRUCache.keys. rewrite existsb_exists, in_map_iff.
  split.
  - intros [kv [Hin Heq]]. exists kv. apply Z.eqb_eq in Heq. split; assumption.
  - intros [kv [Heq Hin]]. exists kv. split; [exact Hin |].
    apply Z.eqb_eq. exact Heq.
Qed.

Lemma lru_contains_getitem (key : Z) (d : LRUCache.OrderedDict) :
  LRUCache.contains key d = true ->
  exists v, LRUCache.getitem key d = Return v.
Proof.
  induction d as [ | [k v] d IH ]; simpl; [discriminate |].
  destruct (k =? key); simpl; [intros _; exists v; reflexivity | exact IH].
Qed.

Lemma lru_getitem_contains (key : Z) (d : LRUCache.OrderedDict) (v : Value) :
  LRUCache.getitem key d = Return v -> LRUCache.contains key d = true.
Proof.
  induction d as [ | [k v'] d IH ]; simpl; [discriminate |].
  destruct (k =? key); simpl; [reflexivity | exact IH].
Qed.

Lemma lru_getitem_absent (key : Z) (d : LRUCache.OrderedDict) :
  ~ In key (LRUCache.keys d) ->
  LRUCache.getitem key d = Raise (KeyError (str_of_int key)).
Proof.
  induction d as [ | [k v] d IH ]; simpl; [reflexivity |].
  intros Hn. destruct (Z.eqb_spec k key) as [-> | Hne].
  - exfalso. apply Hn. left. reflexivity.
  - apply IH. intros H. apply Hn. right. exact H.
Qed.

Lemma lru_getitem_app (key : Z) (d e : LRUCache.OrderedDict) :
  LRUCache.getitem key (d ++ e)%list
  = if LRUCache.contains key d then LRUCache.getitem key d
    else LRUCache.getitem key e.
Proof.
  induction d as [ | [k v] d IH ]; simpl; [reflexivity |].
  destruct (k =? key); simpl; [reflexivity | exact IH].
Qed.

Lemma lru_contains_app (key : Z) (d e : LRUCache.OrderedDict) :
  LRUCache.contains key (d ++ e)%list
  = LRUCache.contains key d || LRUCache.contains key e.
Proof. unfold LRUCache.contains. apply existsb_app. Qed.

Lemma lru_remove_incl (key k : Z) (d : LRUCache.OrderedDict) :
  In k (LRUCache.keys (LRUCache.remove key d)) -> In k (LRUCache.keys d).
Proof.
  induction d as [ | [k' v] d IH ]; simpl; [intros [] |].
  destruct (k' =? key); simpl.
  - intros H. right. exact H.
  - intros [H | H]; [left; exact H | right; apply IH; exact H].
Qed.

Lemma lru_remove_NoDup (key : Z) (d : LRUCache.OrderedDict) :
  NoDup (LRUCache.keys d) ->
  NoDup (LRUCache.keys (LRUCache.remove key d))
  /\ ~ In key (LRUCache.keys (LRUCache.remove key d)).
Proof.
  induction d as [ | [k v] d IH ]; simpl; intros Hnd.
  - split; [constructor | intros []].
  - inversion Hnd as [ | ? ? Hk Hd ]; subst.
    destruct (Z.eqb_spec k key) as [-> | Hne]; simpl.
    + split; assumption.
    + destruct (IH Hd) as [Hnd' Hnot]. split.
      * constructor; [| exact Hnd'].
        intros H. apply Hk. apply (lru_remove_incl key). exact H.
      * intros [H | H]; [contradiction | contradiction].
Qed.

Lemma lru_remove_length (key : Z) (d : LRUCache.OrderedDict) :
  LRUCache.contains key d = true ->
  S (length (LRUCache.remove key d)) = length d.
Proof.
  induction d as [ | [k v] d IH ]; simpl; [discriminate |].
  destruct (k =? key); simpl; [reflexivity |].
  intros H. rewrite (IH H). reflexivity.
Qed.

Lemma lru_contains_remove (key k : Z) (d : LRUCache.OrderedDict) :
  k <> key ->
  LRUCache.contains k (LRUCache.remove key d) = LRUCache.contains k d.
Proof.
  intros Hne. induction d as [ | [k' v] d IH ]; simpl; [reflexivity |].
  destruct (Z.eqb_spec k' key) as [-> | Hk']; simpl.
  - destruct (Z.eqb_spec key k); [congruence | reflexivity].
  - rewrite IH. reflexivity.
Qed.

Lemma lru_getitem_remove (key k : Z) (d : LRUCache.OrderedDict) :
  k <> key ->
  LRUCache.getitem k (LRUCache.remove key d) = LRUCache.getitem k d.
Proof.
  intros Hne. induction d as [ | [k' v] d IH ]; simpl; [reflexivity |].
  destruct (Z.eqb_spec k' key) as [-> | Hk']; simpl.
  - destruct (Z.eqb_spec key k); [congruence | reflexivity].
  - rewrite IH. reflexivity.
Qed.

Lemma lru_setitem_absent (key : Z) (value : Value) (d : LRUCache.OrderedDict) :
  LRUCache.contains key d = false ->
  LRUCache.setitem key value d = (d ++ [(key, value)])%list.
Proof.
  induction d as [ | [k v] d IH ]; simpl; [reflexivity |].
  destruct (k =? key); simpl; [discriminate |].
  intros H. rewrite (IH H). reflexivity.
Qed.

Lemma lru_setitem_last (key : Z) (v value : Value) (d : LRUCache.OrderedDict) :
  LRUCache.contains key d = false ->
  LRUCache.setitem key value (d ++ [(key, v)])%list
  = (d ++ [(key, value)])%list.
Proof.
  induction d as [ | [k v'] d IH ]; simpl.
  - rewrite Z.eqb_refl. reflexivity.
  - destruct (k =? key); simpl; [discriminate |].
    intros H. rewrite (IH H). reflexivity.
Qed.

Lemma lru_not_contains (key : Z) (d : LRUCache.OrderedDict) :
  ~ In key (LRUCache.keys d) -> LRUCache.contains key d = false.
Proof.
  intros H. apply not_true_iff_false. intros Hc. apply H.
  apply lru_contains_In. exact Hc.
Qed.

(** What [get] and [put] do in each case. *)

Lemma lru_get_miss (key : Z) (c : LRUCache.t) :
  LRUCache.contains key (LRUCache.cache c) = false ->
  LRUCache.get key c = (Return VNone, c).
Proof.
  intros H. unfold LRUCache.get, bind, gets. rewrite H. reflexivity.
Qed.

Lemma lru_get_hit (key : Z) (v : Value) (c : LRUCache.t) :
  NoDup (LRUCache.keys (LRUCache.cache c)) ->
  LRUCache.getitem key (LRUCache.cache c) = Return v ->
  LRUCache.get key c
  = (Return v,
     LRUCache.set_cache
       (LRUCache.remove key (LRUCache.cache c) ++ [(key, v)])%list c).
Proof.
  intros Hnd Hget. unfold LRUCache.get, bind, gets, lift, modify.
  rewrite (lru_getitem_contains _ _ _ Hget). simpl.
  unfold LRUCache.move_to_end. rewrite Hget.
  rewrite lru_getitem_app.
  destruct (lru_remove_NoDup key _ Hnd) as [_ Hnot].
  rewrite (lru_not_contains _ _ Hnot). simpl. rewrite Z.eqb_refl. reflexivity.
Qed.

Lemma lru_put_present (key : Z) (v0 value : Value) (c : LRUCache.t) :
  NoDup (LRUCache.keys (LRUCache.cache c)) ->
  LRUCache.getitem key (LRUCache.cache c) = Return v0 ->
  LRUCache.put key value c
  = (Return tt,
     LRUCache.set_cache
       (LRUCache.remove key (LRUCache.cache c) ++ [(key, value)])%list c).
Proof.
  intros Hnd Hget. unfold LRUCache.put, bind, gets, lift, modify.
  rewrite (lru_getitem_contains _ _ _ Hget).
  unfold LRUCache.move_to_end. rewrite Hget.
  destruct (lru_remove_NoDup key _ Hnd) as [_ Hnot].
  rewrite (lru_setitem_last _ _ _ _ (lru_not_contains _ _ Hnot)). reflexivity.
Qed.

Lemma lru_put_absent (key : Z) (value : Value) (c : LRUCache.t) :
  LRUCache.contains key (LRUCache.cache c) = false ->
  LRUCache.put key value c
  = if LRUCache.capacity c <=? Z.of_nat (length (LRUCache.cache c)) then
      match LRUCache.cache c with
      | [] => (Raise (KeyError "dictionary is empty"), c)
      | _ :: r =>
          (Return tt, LRUCache.set_cache (r ++ [(key, value)])%list c)
      end
    else
      (Return tt,
       LRUCache.set_cache (LRUCache.cache c ++ [(key, value)])%list c).
Proof.
  intros H. unfold LRUCache.put, bind, gets, lift, modify, when, ret.
  rewrite H.
  destruct (LRUCache.capacity c <=? Z.of_nat (length (LRUCache.cache c))).
  - destruct (LRUCache.cache c) as [ | [k v] r ] eqn:E; [reflexivity |].
    simpl. simpl in H. apply orb_false_iff in H. destruct H as [_ H].
    rewrite (lru_setitem_absent _ _ _ H). reflexivity.
  - simpl. rewrite (lru_setitem_absent _ _ _ H). reflexivity.
Qed.

(** Every call on a cache in order with a capacity of at least one
    returns and leaves the cache in order. *)
Lemma lru_call_ok (op : LRUCache.Op) (c : LRUCache.t) :
  1 <= LRUCache.capacity c -> LRUCache.ok c ->
  exists (v : Value) (c' : LRUCache.t),
    LRUCache.call op c = (Return v, c')
    /\ LRUCache.capacity c' = LRUCache.capacity c /\ LRUCache.ok c'.
Proof.
  intros Hcap [Hlen Hnd].
  assert (Hmove : forall key v,
             LRUCache.getitem key (LRUCache.cache c) = Return v ->
             LRUCache.ok
               (LRUCache.set_cache
                  (LRUCache.remove key (LRUCache.cache c) ++ [(key, v)])%list c)).
  { intros key v Hget. pose proof (lru_getitem_contains _ _ _ Hget) as Hc.
    destruct (lru_remove_NoDup key _ Hnd) as [Hnd' Hnot].
    pose proof (lru_remove_length _ _ Hc) as Hl.
    split; simpl.
    - rewrite length_app. simpl. lia.
    - unfold LRUCache.keys. rewrite map_app. simpl.
      apply NoDup_app; [exact Hnd' | repeat constructor; intros [] | ].
      intros x Hx [Hx' | []]. subst x. contradiction. }
  destruct op as [key | key value]; unfold LRUCache.call.
  - destruct (LRUCache.contains key (LRUCache.cache c)) eqn:Hc.
    + destruct (lru_contains_getitem _ _ Hc) as [v Hget].
      rewrite (lru_get_hit _ _ _ Hnd Hget). eexists. eexists.
      split; [reflexivity |]. split; [reflexivity | apply Hmove; exact Hget].
    + rewrite (lru_get_miss _ _ Hc). eexists. eexists.
      split; [reflexivity |]. split; [reflexivity | split; assumption].
  - unfold bind at 1.
    destruct (LRUCache.contains key (LRUCache.cache c)) eqn:Hc.
    + destruct (lru_contains_getitem _ _ Hc) as [v Hget].
      rewrite (lru_put_present _ _ value _ Hnd Hget). unfold ret.
      eexists. eexists. split; [reflexivity |]. split; [reflexivity |].
      pose proof (lru_getitem_contains _ _ _ Hget) as Hc'.
      destruct (lru_remove_NoDup key _ Hnd) as [Hnd' Hnot].
      pose proof (lru_remove_length _ _ Hc') as Hl.
      split; simpl.
      * rewrite length_app. simpl. lia.
      * unfold LRUCache.keys. rewrite map_app. simpl.
        apply NoDup_app; [exact Hnd' | repeat constructor; intros [] | ].
        intros x Hx [Hx' | []]. subst x. contradiction.
    + rewrite (lru_put_absent _ _ _ Hc).
      assert (Hnew : ~ In key (LRUCache.keys (LRUCache.cache c))).
      { intros H. apply lru_contains_In in H. congruence. }
      destruct (Z.leb_spec (LRUCache.capacity c)
                  (Z.of_nat (length (LRUCache.cache c)))) as [Hfull | Hroom].
      * destruct (LRUCache.cache c) as [ | [k v] r ] eqn:E;
          [simpl in Hfull; lia |].
        unfold ret. eexists. eexists. split; [reflexivity |].
        split; [reflexivity |].
        simpl in Hlen, Hnd, Hnew. inversion Hnd as [ | ? ? Hk Hr ]; subst.
        split; simpl.
        -- rewrite length_app. simpl. lia.
        -- unfold LRUCache.keys. rewrite map_app. simpl.
           apply NoDup_app; [exact Hr | repeat constructor; intros [] | ].
           intros x Hx [Hx' | []]. subst x. apply Hnew. right. exact Hx.
      * unfold ret. eexists. eexists. split; [reflexivity |].
        split; [reflexivity |]. split; simpl.
        -- rewrite length_app. simpl. lia.
        -- unfold LRUCache.keys. rewrite map_app. simpl.
           apply NoDup_app; [exact Hnd | repeat constructor; intros [] | ].
           intros x Hx [Hx' | []]. subst x. contradiction.
Qed.

Lemma lru_calls_ok (ops : list LRUCache.Op) :
  forall c : LRUCache.t,
    1 <= LRUCache.capacity c -> LRUCache.ok c ->
    exists c' : LRUCache.t,
      LRUCache.calls ops c = (Return tt, c')
      /\ LRUCache.capacity c' = LRUCache.capacity c /\ LRUCache.ok c'.
Proof.
  induction ops as [ | op ops IH ]; intros c Hcap Hok.
  - exists c. repeat split; try assumption; apply Hok.
  - destruct (lru_call_ok op c Hcap Hok) as [v [c1 [Hcall [Hc1 Hok1]]]].
    destruct (IH c1 ltac:(lia) Hok1) as [c2 [Hrun [Hc2 Hok2]]].
    exists c2. split; [| split; [congruence | exact Hok2]].
    unfold LRUCache.calls in *. simpl. unfold bind at 1. unfold bind at 1.
    rewrite Hcall. unfold ret at 1. exact Hrun.
Qed.

(** X23. An LRU cache built with a capacity of at least one never holds
    more entries than its capacity and never holds a key twice, whatever
    calls of [get] and [put] it receives, and none of these calls raises. *)
Theorem lru_cache_respects_its_capacity (capacity : Z)
    (ops : list LRUCache.Op) :
  1 <= capacity ->
  exists c : LRUCache.t,
    LRUCache.calls ops (LRUCache.__init__ capacity) = (Return tt, c)
    /\ LRUCache.capacity c = capacity
    /\ Z.of_nat (length (LRUCache.cache c)) <= capacity
    /\ NoDup (map fst (LRUCache.cache c)).
Proof.
  intros Hcap.
  destruct (lru_calls_ok ops (LRUCache.__init__ capacity)) as [c [Hrun [Hc Hok]]].
  - exact Hcap.
  - split; simpl; [lia | constructor].
  - exists c. simpl in Hc. destruct Hok as [Hlen Hnd]. rewrite Hc in Hlen.
    repeat split; assumption.
Qed.

Lemma lru_newer_remove (key k : Z) (d : LRUCache.OrderedDict) :
  k <> key ->
  incl (LRUCache.newer k (LRUCache.remove key d)) (LRUCache.newer k d).
Proof.
  intros Hne. induction d as [ | [k' v] d IH ]; simpl; [apply incl_refl |].
  destruct (Z.eqb_spec k' key) as [-> | Hk']; simpl.
  - destruct (Z.eqb_spec key k) as [-> | _]; [congruence |].
    apply incl_refl.
  - destruct (Z.eqb_spec k' k) as [-> | _]; [| exact IH].
    intros x Hx. apply (lru_remove_incl key). exact Hx.
Qed.

Lemma lru_newer_app (k : Z) (d e : LRUCache.OrderedDict) :
  LRUCache.newer k (d ++ e)%list
  = if LRUCache.contains k d
    then (LRUCache.newer k d ++ LRUCache.keys e)%list
    else LRUCache.newer k e.
Proof.
  induction d as [ | [k' v] d IH ]; simpl; [reflexivity |].
  destruct (k' =? k); simpl; [| exact IH].
  unfold LRUCache.keys. apply map_app.
Qed.

Lemma lru_kept_app (k key : Z) (v value : Value) (D : list Z)
    (base : LRUCache.OrderedDict) (c : LRUCache.t) :
  LRUCache.getitem k base = Return v ->
  incl (LRUCache.newer k base) D ->
  In key D ->
  LRUCache.kept k v D (LRUCache.set_cache (base ++ [(key, value)])%list c).
Proof.
  intros Hget Hincl Hin. pose proof (lru_getitem_contains _ _ _ Hget) as Hc.
  split; simpl.
  - rewrite lru_getitem_app, Hc. exact Hget.
  - rewrite lru_newer_app, Hc. apply incl_app; [exact Hincl |].
    intros x [<- | []]. exact Hin.
Qed.

Lemma lru_call_keeps (k : Z) (v : Value) (D : list Z) (op : LRUCache.Op)
    (c : LRUCache.t) :
  1 <= LRUCache.capacity c -> LRUCache.ok c ->
  ~ In k D -> Z.of_nat (length D) <= LRUCache.capacity c - 1 ->
  In (LRUCache.key_of op) D ->
  LRUCache.kept k v D c ->
  exists (r : Value) (c' : LRUCache.t),
    LRUCache.call op c = (Return r, c')
    /\ LRUCache.capacity c' = LRUCache.capacity c
    /\ LRUCache.ok c' /\ LRUCache.kept k v D c'.
Proof.
  intros Hcap Hok Hk HD Hin [Hget Hincl].
  destruct (lru_call_ok op c Hcap Hok) as [r [c' [Hcall [Hcap' Hok']]]].
  exists r, c'. split; [exact Hcall |]. split; [exact Hcap' |].
  split; [exact Hok' |].
  destruct Hok as [Hlen Hnd].
  assert (Hne : k <> LRUCache.key_of op) by (intros ->; contradiction).
  assert (Hmoved : forall value,
             LRUCache.kept k v D
               (LRUCache.set_cache
                  (LRUCache.remove (LRUCache.key_of op) (LRUCache.cache c)
                   ++ [(LRUCache.key_of op, value)])%list c)).
  { intros value. apply lru_kept_app; [| | exact Hin].
    - rewrite lru_getitem_remove by exact Hne. exact Hget.
    - intros x Hx. apply Hincl.
      apply (lru_newer_remove (LRUCache.key_of op)); assumption. }
  destruct op as [key | key value]; unfold LRUCache.call in Hcall;
    simpl LRUCache.key_of in *.
  - destruct (LRUCache.contains key (LRUCache.cache c)) eqn:Hc.
    + destruct (lru_contains_getitem _ _ Hc) as [v' Hget'].
      rewrite (lru_get_hit _ _ _ Hnd Hget') in Hcall.
      inversion Hcall. subst. apply Hmoved.
    + rewrite (lru_get_miss _ _ Hc) in Hcall. inversion Hcall. subst.
      split; assumption.
  - unfold bind at 1 in Hcall.
    destruct (LRUCache.contains key (LRUCache.cache c)) eqn:Hc.
    + destruct (lru_contains_getitem _ _ Hc) as [v' Hget'].
      rewrite (lru_put_present _ _ value _ Hnd Hget') in Hcall.
      inversion Hcall. subst. apply Hmoved.
    + rewrite (lru_put_absent _ _ _ Hc) in Hcall.
      destruct (Z.leb_spec (LRUCache.capacity c)
                  (Z.of_nat (length (LRUCache.cache c)))) as [Hfull | Hroom].
      * destruct (LRUCache.cache c) as [ | [k0 v0] rest ] eqn:E;
          [discriminate Hcall |].
        inversion Hcall. subst r c'. clear Hcall.
        simpl in Hget, Hincl, Hnd, Hlen, Hfull, Hc.
        apply orb_false_iff in Hc. destruct Hc as [_ Hc].
        inversion Hnd as [ | ? ? Hk0 Hrest ]; subst.
        destruct (Z.eqb_spec k0 k) as [-> | Hk0k].
        -- exfalso.
           assert (Hnew : ~ In key (map fst rest)).
           { intros H. apply (lru_contains_In key rest) in H. congruence. }
           assert (Hle : (length (key :: map fst rest) <= length D)%nat).
           { apply NoDup_incl_length.
             - constructor; assumption.
             - intros x [<- | Hx]; [exact Hin | apply Hincl; exact Hx]. }
           simpl in Hle. rewrite length_map in Hle. lia.
        -- apply lru_kept_app; assumption.
      * inversion Hcall. subst. apply lru_kept_app; assumption.
Qed.

Lemma lru_calls_keep (k : Z) (v : Value) (D : list Z) (cap : Z) :
  ~ In k D -> Z.of_nat (length D) <= cap - 1 -> 1 <= cap ->
  forall (ops : list LRUCache.Op) (c0 : LRUCache.t),
    Forall (fun op => In (LRUCache.key_of op) D) ops ->
    LRUCache.capacity c0 = cap ->
    LRUCache.ok c0 -> LRUCache.kept k v D c0 ->
    exists c1 : LRUCache.t,
      LRUCache.calls ops c0 = (Return tt, c1)
      /\ LRUCache.capacity c1 = cap
      /\ LRUCache.ok c1 /\ LRUCache.kept k v D c1.
Proof.
  intros Hk HD Hcap ops. induction ops as [ | op ops IH ];
    intros c0 Hops Hcap0 Hok0 Hkept0.
  - exists c0. repeat split; try assumption; try apply Hkept0; apply Hok0.
  - inversion Hops as [ | ? ? Hop Hrest ]; subst.
    destruct (lru_call_keeps k v D op c0) as [r [c1 [Hcall [Hc1 [Hok1 Hk1]]]]];
      try assumption; try lia.
    destruct (IH c1 Hrest Hc1 Hok1 Hk1) as [c2 [Hrun Hrest2]].
    exists c2. split; [| exact Hrest2].
    unfold LRUCache.calls in *. simpl. unfold bind at 1. unfold bind at 1.
    rewrite Hcall. unfold ret at 1. exact Hrun.
Qed.

(** X24. The cache evicts the least recently used key only: once [put(k,
    v)] has returned, calls of [get] and [put] on other keys, at most
    capacity - 1 different ones, leave [k] in the cache, and [get(k)] still
    returns [v]. *)
Theorem recently_used_key_is_not_evicted (k : Z) (v : Value) (D : list Z)
    (ops : list LRUCache.Op) (c : LRUCache.t) :
  1 <= LRUCache.capacity c -> LRUCache.ok c ->
  ~ In k D -> Z.of_nat (length D) <= LRUCache.capacity c - 1 ->
  Forall (fun op => In (LRUCache.key_of op) D) ops ->
  exists c1 c2 : LRUCache.t,
    (LRUCache.put k v ;; LRUCache.calls ops) c = (Return tt, c1)
    /\ LRUCache.get k c1 = (Return v, c2).
Proof.
  intros Hcap Hok Hk HD Hops.
  assert (Hput : exists c0 : LRUCache.t,
             LRUCache.put k v c = (Return tt, c0)
             /\ LRUCache.capacity c0 = LRUCache.capacity c
             /\ LRUCache.ok c0 /\ LRUCache.kept k v D c0).
  { destruct (lru_call_ok (LRUCache.Put k v) c Hcap Hok)
      as [r [c0 [Hcall [Hcap0 Hok0]]]].
    unfold LRUCache.call, bind, ret in Hcall.
    destruct (LRUCache.put k v c) as [[[] | e | ] c0'] eqn:Hp;
      try discriminate Hcall.
    inversion Hcall. subst r c0'. clear Hcall.
    exists c0. split; [reflexivity |]. split; [exact Hcap0 |].
    split; [exact Hok0 |].
    destruct Hok as [Hlen Hnd].
    assert (Hlast : forall base : LRUCache.OrderedDict,
               ~ In k (LRUCache.keys base) ->
               LRUCache.kept k v D
                 (LRUCache.set_cache (base ++ [(k, v)])%list c)).
    { intros base Hb. pose proof (lru_not_contains _ _ Hb) as Hcb.
      split; simpl.
      - rewrite lru_getitem_app, Hcb. simpl. rewrite Z.eqb_refl. reflexivity.
      - rewrite lru_newer_app, Hcb. simpl. rewrite Z.eqb_refl.
        intros x []. }
    destruct (LRUCache.contains k (LRUCache.cache c)) eqn:Hc.
    - destruct (lru_contains_getitem _ _ Hc) as [v' Hget'].
      rewrite (lru_put_present _ _ v _ Hnd Hget') in Hp.
      inversion Hp. subst c0. apply Hlast.
      apply (lru_remove_NoDup k _ Hnd).
    - assert (Hnew : ~ In k (LRUCache.keys (LRUCache.cache c))).
      { intros H. apply lru_contains_In in H. congruence. }
      rewrite (lru_put_absent _ _ _ Hc) in Hp.
      destruct (LRUCache.capacity c <=? Z.of_nat (length (LRUCache.cache c))).
      + destruct (LRUCache.cache c) as [ | kv rest ]; [discriminate Hp |].
        inversion Hp. subst c0. apply Hlast.
        intros H. apply Hnew. right. exact H.
      + inversion Hp. subst c0. apply Hlast. exact Hnew. }
  destruct Hput as [c0 [Hp [Hcap0 [Hok0 Hkept0]]]].
  destruct (lru_calls_keep k v D (LRUCache.capacity c) Hk HD Hcap ops c0
              Hops Hcap0 Hok0 Hkept0)
    as [c1 [Hcalls [_ [Hok1 [Hget1 _]]]]].
  eexists. eexists. split.
  - unfold bind. rewrite Hp. exact Hcalls.
  - apply lru_get_hit; [apply Hok1 | exact Hget1].
Qed.

(** X25. An LRU cache built with a capacity of zero or less stores
    nothing: every [put] raises the KeyError of [popitem] on an empty dict
    and leaves the cache empty, and [get] returns [None]. *)
Theorem lru_cache_without_capacity_stores_nothing (capacity key : Z)
    (value : Value) :
  capacity <= 0 ->
  LRUCache.put key value (LRUCache.__init__ capacity)
  = (Raise (KeyError "dictionary is empty"), LRUCache.__init__ capacity)
  /\ LRUCache.get key (LRUCache.__init__ capacity)
     = (Return VNone, LRUCache.__init__ capacity).
Proof.
  intros Hcap. split; [| reflexivity].
  rewrite lru_put_absent by reflexivity. simpl.
  destruct (Z.leb_spec capacity 0); [reflexivity | lia].
Qed.

(** ** The replay buffer *)

Lemma for_each_app_any {St A : Type} (xs ys : list A) (body : A -> M St unit)
    (s : St) :
  for_each (xs ++ ys) body s
  = match for_each xs body s with
    | (Return _, s') => for_each ys body s'
    | other => other
    end.
Proof.
  revert s. induction xs as [ | x xs IH ]; intros s; [reflexivity |].
  simpl. unfold bind. destruct (body x s) as [[[] | e | ] s']; try reflexivity.
  apply IH.
Qed.

Lemma rb_mod_succ (n c : Z) :
  0 < c ->
  (n mod c + 1) mod c = (n + 1) mod c
  /\ (n + 1) mod c = if n mod c + 1 <? c then n mod c + 1 else 0.
Proof.
  intros Hc. split; [apply Zplus_mod_idemp_l |].
  pose proof (Z.mod_pos_bound n c Hc) as Hb.
  pose proof (Z.div_mod n c ltac:(lia)) as Hdm.
  destruct (Z.ltb_spec (n mod c + 1) c) as [Hlt | Hge]; symmetry.
  - apply (Z.mod_unique (n + 1) c (n / c)); [left; lia | lia].
  - apply (Z.mod_unique (n + 1) c (n / c + 1)); [left; lia | lia].
Qed.

Lemma rb_list_setitem (B A : list Value) (a x : Value) :
  ReplayBuffer.list_setitem (B ++ a :: A)%list (Z.of_nat (length B)) x
  = Return (B ++ x :: A)%list.
Proof.
  unfold ReplayBuffer.list_setitem. rewrite length_app. simpl length.
  destruct (Z.ltb_spec (Z.of_nat (length B)) 0) as [H | _]; [lia |].
  destruct (Z.leb_spec 0 (Z.of_nat (length B))) as [_ | H]; [| lia].
  destruct (Z.ltb_spec (Z.of_nat (length B))
              (Z.of_nat (length B + S (length A)))) as [_ | H]; [| lia].
  simpl andb. cbv iota. rewrite Nat2Z.id. f_equal.
  induction B as [ | b B IH ]; [reflexivity |].
  simpl. f_equal. exact IH.
Qed.

Lemma rb_lastn_short (c : nat) (l : list Value) :
  (length l <= c)%nat -> ReplayBuffer.lastn c l = l.
Proof.
  intros H. unfold ReplayBuffer.lastn.
  replace (length l - c)%nat with 0%nat by lia. reflexivity.
Qed.

Lemma rb_lastn_snoc (c : nat) (l : list Value) (x : Value) :
  (1 <= c <= length l)%nat ->
  ReplayBuffer.lastn c (l ++ [x])%list
  = (tl (ReplayBuffer.lastn c l) ++ [x])%list.
Proof.
  intros H. unfold ReplayBuffer.lastn.
  rewrite length_app. simpl length.
  replace (length l + 1 - c)%nat with (S (length l - c)) by lia.
  rewrite skipn_app.
  replace (S (length l - c) - length l)%nat with 0%nat by lia.
  simpl skipn at 2. f_equal.
  change (S (length l - c)) with (1 + (length l - c))%nat.
  rewrite <- skipn_skipn. 
  destruct (skipn (length l - c) l); reflexivity.
Qed.

Lemma rb_lastn_length (c : nat) (l : list Value) :
  length (ReplayBuffer.lastn c l) = Nat.min (length l) c.
Proof. unfold ReplayBuffer.lastn. rewrite length_skipn. lia. Qed.

(** What [push] does to a buffer of capacity [cap >= 1] that is not yet
    full, and to a full one whose position is the length of [B]. *)
Lemma rb_push_append (x : ReplayBuffer.Experience) (rb : ReplayBuffer.t) :
  Z.of_nat (length (ReplayBuffer.buffer rb)) < ReplayBuffer.capacity rb ->
  ReplayBuffer.push x rb
  = (Return tt,
     ReplayBuffer.mk (ReplayBuffer.capacity rb)
       (ReplayBuffer.buffer rb ++ [ReplayBuffer.experience_of x])%list
       ((ReplayBuffer.position rb + 1) mod ReplayBuffer.capacity rb)).
Proof.
  intros H. unfold ReplayBuffer.push, bind, gets, modify, lift. simpl.
  destruct (Z.ltb_spec (Z.of_nat (length (ReplayBuffer.buffer rb)))
              (ReplayBuffer.capacity rb)) as [_ | H']; [| lia].
  unfold ReplayBuffer.py_mod.
  destruct (Z.eqb_spec (ReplayBuffer.capacity rb) 0) as [H0 | _]; [lia |].
  reflexivity.
Qed.

Lemma rb_push_overwrite (x : ReplayBuffer.Experience) (cap : Z)
    (B A : list Value) (a : Value) :
  1 <= cap -> cap <= Z.of_nat (length (B ++ a :: A)%list) ->
  ReplayBuffer.push x
    (ReplayBuffer.mk cap (B ++ a :: A)%list (Z.of_nat (length B)))
  = (Return tt,
     ReplayBuffer.mk cap (B ++ ReplayBuffer.experience_of x :: A)%list
       ((Z.of_nat (length B) + 1) mod cap)).
Proof.
  intros Hcap Hfull. unfold ReplayBuffer.push, bind, gets, modify, lift.
  cbn [ReplayBuffer.buffer ReplayBuffer.capacity ReplayBuffer.position].
  destruct (Z.ltb_spec (Z.of_nat (length (B ++ a :: A)%list)) cap) as [H | _];
    [lia |].
  rewrite rb_list_setitem. unfold ReplayBuffer.py_mod.
  destruct (Z.eqb_spec cap 0) as [H0 | _]; [lia |].
  reflexivity.
Qed.

(** The buffer after the experiences [xs] have been pushed: it holds the
    last ones, the part [B] written since the position last came back to 0
    in front of the part [A] written before. *)
Lemma rb_pushes_state (cap : Z) (xs : list ReplayBuffer.Experience) :
  1 <= cap ->
  exists A B : list Value,
    ReplayBuffer.pushes xs (ReplayBuffer.__init__ cap)
    = (Return tt,
       ReplayBuffer.mk cap (B ++ A)%list (Z.of_nat (length xs) mod cap))
    /\ ReplayBuffer.lastn (Z.to_nat cap) (map ReplayBuffer.experience_of xs)
       = (A ++ B)%list
    /\ Z.of_nat (length B) = Z.of_nat (length xs) mod cap.
Proof.
  intros Hcap. induction xs as [ | x xs IH ] using rev_ind.
  - exists [], []. repeat split.
  - destruct IH as [A [B [Hrun [Hlast HB]]]].
    assert (Hstep : forall rb',
               ReplayBuffer.push x
                 (ReplayBuffer.mk cap (B ++ A)%list
                    (Z.of_nat (length xs) mod cap)) = (Return tt, rb') ->
               ReplayBuffer.pushes (xs ++ [x]) (ReplayBuffer.__init__ cap)
               = (Return tt, rb')).
    { intros rb' Hpush. unfold ReplayBuffer.pushes in *.
      rewrite for_each_app_any, Hrun. simpl. unfold bind.
      rewrite Hpush. reflexivity. }
    rewrite length_app, map_app. simpl length. simpl map.
    rewrite Nat2Z.inj_add. change (Z.of_nat 1) with 1.
    destruct (rb_mod_succ (Z.of_nat (length xs)) cap ltac:(lia)) as [Hm1 Hm2].
    pose proof (Z.mod_pos_bound (Z.of_nat (length xs)) cap ltac:(lia)) as Hb.
    pose proof (rb_lastn_length (Z.to_nat cap)
                  (map ReplayBuffer.experience_of xs)) as Hlen.
    rewrite Hlast, length_app, length_map in Hlen.
    destruct (Z.ltb_spec (Z.of_nat (length xs)) cap) as [Hshort | Hfull].
    + (* not yet full: the buffer is all of [xs] *)
      assert (HA : A = []).
      { rewrite Z.mod_small in HB by lia.
        destruct A; [reflexivity | simpl in Hlen; lia]. }
      subst A. rewrite app_nil_r in *. simpl in Hlast.
      rewrite rb_lastn_short in Hlast by (rewrite length_map; lia).
      subst B. rewrite length_map in *.
      assert (Hpush : ReplayBuffer.push x
                        (ReplayBuffer.mk cap
                           (map ReplayBuffer.experience_of xs)
                           (Z.of_nat (length xs) mod cap))
                      = (Return tt,
                         ReplayBuffer.mk cap
                           (map ReplayBuffer.experience_of xs
                            ++ [ReplayBuffer.experience_of x])%list
                           ((Z.of_nat (length xs) + 1) mod cap))).
      { rewrite rb_push_append.
        - cbn [ReplayBuffer.buffer ReplayBuffer.capacity ReplayBuffer.position].
          rewrite Hm1. reflexivity.
        - simpl. rewrite length_map. exact Hshort. }
      assert (Hl : ReplayBuffer.lastn (Z.to_nat cap)
                     (map ReplayBuffer.experience_of xs
                      ++ [ReplayBuffer.experience_of x])%list
                   = (map ReplayBuffer.experience_of xs
                      ++ [ReplayBuffer.experience_of x])%list).
      { apply rb_lastn_short. rewrite length_app, length_map. simpl. lia. }
      rewrite (Z.mod_small (Z.of_nat (length xs)) cap) in Hm2 by lia.
      destruct (Z.ltb_spec (Z.of_nat (length xs) + 1) cap) as [Hlt | Hge].
      * exists [], (map ReplayBuffer.experience_of xs
                    ++ [ReplayBuffer.experience_of x])%list.
        rewrite app_nil_r. split; [exact (Hstep _ Hpush) |].
        split; [exact Hl |].
        rewrite Hm2, length_app, length_map. simpl length. lia.
      * exists (map ReplayBuffer.experience_of xs
                ++ [ReplayBuffer.experience_of x])%list, [].
        split; [exact (Hstep _ Hpush) |].
        split; [rewrite app_nil_r; exact Hl |].
        rewrite Hm2. reflexivity.
    + (* full: the oldest experience, the head of [A], is overwritten *)
      assert (HlenAB : (length A + length B)%nat = Z.to_nat cap) by lia.
      destruct A as [ | a A' ]; [simpl in HlenAB; lia |].
      rewrite rb_lastn_snoc by (rewrite length_map; lia).
      rewrite Hlast. simpl tl.
      rewrite <- HB in *.
      destruct (Z.ltb_spec (Z.of_nat (length B) + 1) cap) as [Hlt | Hge].
      * exists A', (B ++ [ReplayBuffer.experience_of x])%list.
        split; [| split].
        -- apply Hstep. rewrite rb_push_overwrite.
           ++ rewrite Hm1, <- app_assoc. reflexivity.
           ++ exact Hcap.
           ++ rewrite length_app. simpl length. simpl in HlenAB. lia.
        -- rewrite <- app_assoc. reflexivity.
        -- rewrite Hm2. rewrite length_app. simpl length.
           destruct (Z.ltb_spec (Z.of_nat (length B) + 1) cap); lia.
      * assert (HA' : A' = [])
          by (destruct A'; [reflexivity | simpl in HlenAB; lia]).
        subst A'. exists (B ++ [ReplayBuffer.experience_of x])%list, [].
        split; [| split].
        -- apply Hstep. rewrite rb_push_overwrite.
           ++ rewrite Hm1. reflexivity.
           ++ exact Hcap.
           ++ rewrite length_app. simpl length. simpl in HlenAB. lia.
        -- rewrite app_nil_r. reflexivity.
        -- rewrite Hm2.
           destruct (Z.ltb_spec (Z.of_nat (length B) + 1) cap); simpl; lia.
Qed.

Lemma rb_rotate_app (A B : list Value) :
  ReplayBuffer.rotate (length A) (A ++ B)%list = (B ++ A)%list.
Proof.
  unfold ReplayBuffer.rotate. f_equal.
  - induction A as [ | a A IH ]; [reflexivity | exact IH].
  - induction A as [ | a A IH ]; [destruct B; reflexivity |].
    simpl. f_equal. exact IH.
Qed.

(** X26. A replay buffer of capacity at least one holds the latest
    experiences: after any number of pushes, none of which raises, its
    length is the smaller of that number and the capacity, its position is
    that number modulo the capacity, and its content is the last
    experiences pushed, turned so that the oldest of a full buffer sits at
    the position, the next to be overwritten. *)
Theorem replay_buffer_holds_the_latest_experiences (capacity : Z)
    (xs : list ReplayBuffer.Experience) :
  1 <= capacity ->
  exists rb : ReplayBuffer.t,
    ReplayBuffer.pushes xs (ReplayBuffer.__init__ capacity) = (Return tt, rb)
    /\ ReplayBuffer.capacity rb = capacity
    /\ ReplayBuffer.position rb = Z.of_nat (length xs) mod capacity
    /\ ReplayBuffer.__len__ rb
       = (Return (Z.min (Z.of_nat (length xs)) capacity), rb)
    /\ ReplayBuffer.buffer rb
       = let latest :=
           ReplayBuffer.lastn (Z.to_nat capacity)
             (map ReplayBuffer.experience_of xs) in
         ReplayBuffer.rotate
           (length latest - Z.to_nat (ReplayBuffer.position rb)) latest.
Proof.
  intros Hcap.
  destruct (rb_pushes_state capacity xs Hcap) as [A [B [Hrun [Hlast HB]]]].
  pose proof (rb_lastn_length (Z.to_nat capacity)
                (map ReplayBuffer.experience_of xs)) as Hlen.
  rewrite Hlast, length_app, length_map in Hlen.
  eexists. split; [exact Hrun |]. split; [reflexivity |].
  split; [reflexivity |]. split.
  - unfold ReplayBuffer.__len__, bind, gets, ret. simpl.
    rewrite length_app. do 2 f_equal. lia.
  - cbv zeta. cbn [ReplayBuffer.buffer ReplayBuffer.position].
    rewrite Hlast, <- HB, Nat2Z.id, length_app.
    replace (length A + length B - length B)%nat with (length A) by lia.
    symmetry. apply rb_rotate_app.
Qed.

(** X27. A replay buffer of capacity zero or less accepts nothing: the
    first [push] raises the IndexError of the list assignment and leaves
    the buffer as it was, so the modulo by the capacity is never reached. *)
Theorem replay_buffer_without_capacity_raises (capacity : Z)
    (x : ReplayBuffer.Experience) :
  capacity <= 0 ->
  ReplayBuffer.push x (ReplayBuffer.__init__ capacity)
  = (Raise (IndexError "list assignment index out of range"),
     ReplayBuffer.__init__ capacity).
Proof.
  intros Hcap. unfold ReplayBuffer.push, bind, gets, lift. simpl.
  destruct (Z.ltb_spec 0 capacity) as [H | _]; [lia | reflexivity].
Qed.

(** ** The clipped objective *)

Lemma SFltb_SFleb (x y : spec_float) : SFltb x y = true -> SFleb x y = true.
Proof.
  unfold SFltb, SFleb. destruct (SFcompare x y) as [[ | | ] | ];
    congruence.
Qed.

Lemma float_leb_refl (x : float) :
  PrimFloat.is_nan x = false -> PrimFloat.leb x x = true.
Proof.
  intros H. rewrite leb_spec. unfold PrimFloat.is_nan in H.
  apply negb_false_iff in H. rewrite FloatAxioms.eqb_spec in H.
  unfold SFeqb in H. unfold SFleb.
  destruct (SFcompare (Prim2SF x) (Prim2SF x)) as [[ | | ] | ];
    congruence.
Qed.

Lemma ppo_clip_objective_combine (ratios advantages : list float)
    (epsilon : float) :
  ppo_clip_objective ratios advantages epsilon
  = map (fun p => clipped_objective (fst p) (snd p) epsilon)
      (combine ratios advantages).
Proof.
  revert advantages. induction ratios as [ | r rs IH ];
    intros [ | a advs ]; try reflexivity.
  simpl. f_equal. apply IH.
Qed.

(** X28. [ppo_clip_objective] gives one objective per pair of
    [zip(ratios, advantages)], so as many as the shorter list has; each
    objective is at most the unclipped [ratio * advantage] unless that is a
    NaN, and it is exactly the unclipped one when the ratio lies strictly
    between [1 - epsilon] and [1 + epsilon]. *)
Theorem clipped_objective_is_a_pessimistic_bound :
  (forall (ratios advantages : list float) (epsilon : float),
      ppo_clip_objective ratios advantages epsilon
      = map (fun p => clipped_objective (fst p) (snd p) epsilon)
          (combine ratios advantages)
      /\ length (ppo_clip_objective ratios advantages epsilon)
         = Nat.min (length ratios) (length advantages))
  /\ (forall ratio advantage epsilon : float,
         PrimFloat.is_nan (ratio * advantage) = false ->
         PrimFloat.leb (clipped_objective ratio advantage epsilon)
           (ratio * advantage) = true)
  /\ (forall ratio advantage epsilon : float,
         PrimFloat.ltb (1 - epsilon) ratio = true ->
         PrimFloat.ltb ratio (1 + epsilon) = true ->
         clipped_objective ratio advantage epsilon
         = (ratio * advantage)%float).
Proof.
  split; [| split].
  - intros ratios advantages epsilon.
    rewrite ppo_clip_objective_combine. split; [reflexivity |].
    rewrite length_map, length_combine. reflexivity.
  - intros ratio advantage epsilon Hnan. unfold clipped_objective.
    cbv zeta. unfold py_min at 1.
    match goal with
    | |- context [if PrimFloat.ltb ?c ?u then _ else _] =>
        destruct (PrimFloat.ltb c u) eqn:Hlt
    end.
    + rewrite leb_spec. apply SFltb_SFleb. rewrite <- ltb_spec. exact Hlt.
    + apply float_leb_refl. exact Hnan.
  - intros ratio advantage epsilon Hlo Hhi. unfold clipped_objective.
    cbv zeta. unfold py_min at 2. rewrite Hhi. unfold py_max. rewrite Hlo.
    unfold py_min.
    match goal with
    | |- context [if ?c then _ else _] => destruct c; reflexivity
    end.
Qed.

(** ** Instances for the reference solutions *)

(** The calls at the end of [12-lru-cache/solution.py], lines 103-115,
    return what its comments say: with capacity 2, key 2 is evicted by the
    third [put] and key 1 by the fourth. *)
Lemma lru_cache_example_of_the_source :
  let run :=
    (LRUCache.put 1 (VStr "K1,V1") ;;
     LRUCache.put 2 (VStr "K2,V2") ;;
     a <- LRUCache.get 1 ;;
     LRUCache.put 3 (VStr "K3,V3") ;;
     b <- LRUCache.get 2 ;;
     LRUCache.put 4 (VStr "K4,V4") ;;
     c <- LRUCache.get 1 ;;
     d <- LRUCache.get 3 ;;
     e <- LRUCache.get 4 ;;
     ret [a; b; c; d; e]) in
  fst (run (LRUCache.__init__ 2))
  = Return [VStr "K1,V1"; VNone; VNone; VStr "K3,V3"; VStr "K4,V4"].
Proof. vm_compute. reflexivity. Qed.

Lemma lru_cache_of_two_stays_within_two :
  exists c : LRUCache.t,
    LRUCache.calls
      [LRUCache.Put 1 (VStr "K1,V1"); LRUCache.Put 2 (VStr "K2,V2");
       LRUCache.Get 1; LRUCache.Put 3 (VStr "K3,V3"); LRUCache.Get 2;
       LRUCache.Put 4 (VStr "K4,V4")]
      (LRUCache.__init__ 2) = (Return tt, c)
    /\ LRUCache.capacity c = 2
    /\ Z.of_nat (length (LRUCache.cache c)) <= 2
    /\ NoDup (map fst (LRUCache.cache c)).
Proof. apply lru_cache_respects_its_capacity. lia. Defined.

Lemma key_one_survives_calls_on_key_two :
  exists c1 c2 : LRUCache.t,
    (LRUCache.put 1 (VStr "K1,V1") ;;
     LRUCache.calls [LRUCache.Put 2 (VStr "K2,V2"); LRUCache.Get 2;
                     LRUCache.Put 2 (VStr "again")])
      (LRUCache.mk 2 [(7, VInt 0); (2, VInt 0)]) = (Return tt, c1)
    /\ LRUCache.get 1 c1 = (Return (VStr "K1,V1"), c2).
Proof.
  apply (recently_used_key_is_not_evicted 1 (VStr "K1,V1") [2]).
  - simpl. lia.
  - split; [simpl; lia |].
    repeat constructor; simpl; intuition discriminate.
  - simpl. intuition discriminate.
  - simpl. lia.
  - repeat constructor.
Defined.

Lemma lru_cache_of_zero_stores_nothing :
  LRUCache.put 1 (VStr "K1,V1") (LRUCache.__init__ 0)
  = (Raise (KeyError "dictionary is empty"), LRUCache.__init__ 0)
  /\ LRUCache.get 1 (LRUCache.__init__ 0)
     = (Return VNone, LRUCache.__init__ 0).
Proof. apply lru_cache_without_capacity_stores_nothing. lia. Defined.

(** The experience [push([i], i % 2, i, [i+1], False)] of line 100. *)
Lemma four_pushes_into_a_buffer_of_three :
  exists rb : ReplayBuffer.t,
    ReplayBuffer.pushes
      (map (fun i => ReplayBuffer.mkExperience (VList [VInt i]) (VInt (i mod 2))
                       (VInt i) (VList [VInt (i + 1)]) (VBool false))
         [0; 1; 2; 3])
      (ReplayBuffer.__init__ 3) = (Return tt, rb)
    /\ ReplayBuffer.capacity rb = 3
    /\ ReplayBuffer.position rb = 4 mod 3
    /\ ReplayBuffer.__len__ rb = (Return (Z.min 4 3), rb)
    /\ ReplayBuffer.buffer rb
       = let latest :=
           ReplayBuffer.lastn (Z.to_nat 3)
             (map ReplayBuffer.experience_of
                (map (fun i => ReplayBuffer.mkExperience (VList [VInt i])
                                 (VInt (i mod 2)) (VInt i)
                                 (VList [VInt (i + 1)]) (VBool false))
                   [0; 1; 2; 3])) in
         ReplayBuffer.rotate
           (length latest - Z.to_nat (ReplayBuffer.position rb)) latest.
Proof.
  apply (replay_buffer_holds_the_latest_experiences 3
           (map (fun i => ReplayBuffer.mkExperience (VList [VInt i])
                            (VInt (i mod 2)) (VInt i) (VList [VInt (i + 1)])
                            (VBool false))
              [0; 1; 2; 3])).
  lia.
Defined.

(** After these four pushes the first slot holds the fourth experience and
    the other two the second and the third. *)
Lemma fourth_push_overwrites_the_first_slot :
  match ReplayBuffer.pushes
          (map (fun i => ReplayBuffer.mkExperience (VInt i) VNone VNone VNone
                           VNone) [0; 1; 2; 3])
          (ReplayBuffer.__init__ 3) with
  | (Return _, rb) =>
      map (fun e => match e with VTuple (s :: _) => s | _ => VNone end)
        (ReplayBuffer.buffer rb) = [VInt 3; VInt 1; VInt 2]
      /\ ReplayBuffer.position rb = 1
  | _ => False
  end.
Proof. vm_compute. split; reflexivity. Qed.

Lemma replay_buffer_of_zero_raises :
  ReplayBuffer.push
    (ReplayBuffer.mkExperience (VInt 0) (VInt 0) (VInt 0) (VInt 1) (VBool false))
    (ReplayBuffer.__init__ 0)
  = (Raise (IndexError "list assignment index out of range"),
     ReplayBuffer.__init__ 0).
Proof. apply replay_buffer_without_capacity_raises. lia. Defined.

Lemma ratio_inside_the_range_is_not_clipped :
  clipped_objective 1.1 2 0.2 = (1.1 * 2)%float.
Proof.
  apply (proj2 (proj2 clipped_objective_is_a_pessimistic_bound));
    reflexivity.
Defined.

(** The example of lines 75-80: ratios 0.8, 1.0, 1.2 and 1.5 with the
    advantage 1 and epsilon 0.2; the last ratio is clipped. *)
Lemma clipped_objective_example_of_the_source :
  map (fun x => py_round x 2)
    (ppo_clip_objective [0.8; 1; 1.2; 1.5] [1; 1; 1; 1] 0.2)%float
  = [0.8; 1; 1.2; 1.2]%float.
Proof. vm_compute. reflexivity. Qed.

(** ** Two more instances for the runner *)


Lemma swapped_keys_compare_the_same :
  compare_outputs (VDict [("lo", VInt 1); ("hi", VFloat 2.5)]) (VInt 0)
  = compare_outputs (VDict [("hi", VFloat 2.5); ("lo", VInt 1)]) (VInt 0)
  /\ compare_outputs (VDict [("hi", VFloat 2.5); ("lo", VInt 1)])
       (VDict [("lo", VInt 1); ("hi", VFloat 2.5)])
     = compare_outputs (VDict [("hi", VFloat 2.5); ("lo", VInt 1)])
         (VDict [("hi", VFloat 2.5); ("lo", VInt 1)]).
Proof.
  split.
  - apply (proj1 (dict_order_is_irrelevant
                    [("lo", VInt 1); ("hi", VFloat 2.5)]
                    [("hi", VFloat 2.5); ("lo", VInt 1)] (VInt 0)
                    ltac:(repeat constructor; simpl; intuition discriminate)
                    (perm_swap _ _ _))).
  - apply (proj2 (dict_order_is_irrelevant
                    [("lo", VInt 1); ("hi", VFloat 2.5)]
                    [("hi", VFloat 2.5); ("lo", VInt 1)]
                    (VDict [("hi", VFloat 2.5); ("lo", VInt 1)])
                    ltac:(repeat constructor; simpl; intuition discriminate)
                    (perm_swap _ _ _))).
Defined.
